(** * product-bg-remover: a shallow embedding of [processor.py] and [app.py]

    The compositing pipeline of [processor.py] is embedded function by
    function.  Rasters are Pillow images: a mode, a size and a pixel grid.
    Python integers are [Z]; Python floats (binary64) are [spec_float] with
    the IEEE operations of the Standard Library's [SpecFloat]; exceptions
    are an explicit [result] type.  What Pillow, NumPy, rembg and the file
    system compute on pixel data with convolutions, resampling or random
    draws is taken from a [Backend] instance; everything the pipeline itself
    decides (sizes, bounding boxes, scale, anchor, branch selection, labels)
    is computed here. *)

From Stdlib Require Import ZArith List String Ascii Bool Lia QArith SpecFloat.
Import ListNotations.

Local Open Scope string_scope.
Local Open Scope Z_scope.

(* ================================================================= *)
(** ** Python runtime *)

Module Py.

(** The exceptions the embedded code can meet. *)
Inductive exn : Type :=
| ValueError
| ZeroDivisionError
| OverflowError
| KeyError
| ExternalError (msg : string).

Inductive result (T : Type) : Type :=
| Ok (v : T)
| Raise (e : exn).
Arguments Ok {T} v.
Arguments Raise {T} e.

Definition bind {T U : Type} (r : result T) (k : T -> result U) : result U :=
  match r with
  | Ok v => k v
  | Raise e => Raise e
  end.

Definition returns {T : Type} (r : result T) : bool :=
  match r with Ok _ => true | Raise _ => false end.

(** [range(n)] *)
Definition range (n : Z) : list Z := map Z.of_nat (seq 0 (Z.to_nat n)).

(** *** Strings *)

Definition is_upper (c : ascii) : bool :=
  let n := nat_of_ascii c in (65 <=? n)%nat && (n <=? 90)%nat.
Definition is_lower (c : ascii) : bool :=
  let n := nat_of_ascii c in (97 <=? n)%nat && (n <=? 122)%nat.
Definition chr_lower (c : ascii) : ascii :=
  if is_upper c then ascii_of_nat (nat_of_ascii c + 32) else c.
Definition chr_upper (c : ascii) : ascii :=
  if is_lower c then ascii_of_nat (nat_of_ascii c - 32) else c.

(** [s.lower()] *)
Fixpoint lower (s : string) : string :=
  match s with
  | EmptyString => EmptyString
  | String c s' => String (chr_lower c) (lower s')
  end.

(** [s.capitalize()]: first character upper case, the rest lower case. *)
Definition capitalize (s : string) : string :=
  match s with
  | EmptyString => EmptyString
  | String c s' => String (chr_upper c) (lower s')
  end.

(** [k in s] on strings: [k] occurs in [s] as a substring. *)
Fixpoint contains (s k : string) : bool :=
  if prefix k s then true
  else match s with
       | EmptyString => false
       | String _ s' => contains s' k
       end.

(** [x in l] on a list of strings. *)
Definition mem (x : string) (l : list string) : bool :=
  existsb (String.eqb x) l.

(** A [dict] with string keys, in insertion order. *)
Definition dict (V : Type) : Type := list (string * V).

Fixpoint get {V : Type} (d : dict V) (k : string) : option V :=
  match d with
  | [] => None
  | (k', v) :: d' => if String.eqb k k' then Some v else get d' k
  end.

Definition keys {V : Type} (d : dict V) : list string := map fst d.

(** Truth value of an optional string: [None] and [''] are false. *)
Definition truthy (s : option string) : bool :=
  match s with
  | None | Some EmptyString => false
  | Some _ => true
  end.

(** *** Floats (binary64) *)

Definition float : Type := spec_float.

Definition prec : Z := 53.
Definition emax : Z := 1024.

(** [float(n)] for an integer [n]. *)
Definition of_int (n : Z) : float := binary_normalize prec emax n 0 false.

Definition fmul : float -> float -> float := SFmul prec emax.
Definition fadd : float -> float -> float := SFadd prec emax.
Definition fsub : float -> float -> float := SFsub prec emax.
Definition fltb : float -> float -> bool := SFltb.

(** [a / b]: true division; a zero divisor raises. *)
Definition fdiv (a b : float) : result float :=
  match b with
  | S754_zero _ => Raise ZeroDivisionError
  | _ => Ok (SFdiv prec emax a b)
  end.

(** A decimal literal [m * 10^-k], correctly rounded as Python reads it. *)
Definition lit (m : Z) (k : Z) : float :=
  SFdiv prec emax (of_int m) (of_int (10 ^ k)).

(** [int(x)]: truncation towards zero. *)
Definition int (x : float) : result Z :=
  match x with
  | S754_zero _ => Ok 0
  | S754_finite s m e =>
      let mag := if 0 <=? e then Z.shiftl (Zpos m) e
                 else Z.shiftr (Zpos m) (- e) in
      Ok (if s then - mag else mag)
  | S754_infinity _ => Raise OverflowError
  | S754_nan => Raise ValueError
  end.

End Py.

Import Py.

Declare Scope py_scope.
Delimit Scope py_scope with py.
Notation "x <- c ;; k" := (Py.bind c (fun x => k))
  (at level 61, c at next level, right associativity) : py_scope.
Notation "' p <- c ;; k" := (Py.bind c (fun p => k))
  (at level 61, p pattern, c at next level, right associativity) : py_scope.
Local Open Scope py_scope.

(* ================================================================= *)
(** ** Pillow images *)

Module PIL.

Inductive mode : Type := L | RGB | RGBA.

(** ["A" in image.mode] *)
Definition has_alpha (m : mode) : bool :=
  match m with RGBA => true | _ => false end.

(** One stored pixel.  Channels are 8-bit values; an [L] image keeps its
    single band in [R] (and repeats it in [G], [B]), an image without
    alpha keeps [A] at 255. *)
Record pixel : Type := mkpx { R : Z; G : Z; B : Z; A : Z }.

Definition transparent : pixel := mkpx 0 0 0 0.
Definition grey (v : Z) : pixel := mkpx v v v 255.

Definition raster : Type := Z -> Z -> pixel.

Record Image : Type := mkImage {
  im_mode : mode;
  width : Z;
  height : Z;
  px : raster
}.

Definition size (im : Image) : Z * Z := (width im, height im).

Definition inside (im : Image) (x y : Z) : bool :=
  (0 <=? x) && (x <? width im) && (0 <=? y) && (y <? height im).

Definition same_size (a b : Image) : bool :=
  (width a =? width b) && (height a =? height b).

Definition mode_eqb (a b : mode) : bool :=
  match a, b with
  | L, L | RGB, RGB | RGBA, RGBA => true
  | _, _ => false
  end.

(** *** What the numeric back ends compute

    Convolutions, resampling, enhancement and blending arithmetic, the
    segmentation model, the asset files and the random generator are
    outside [processor.py]; the program only fixes which image, which
    size and which parameters they are called with. *)

Inductive Filter : Type :=
| GaussianBlur (radius : float)
| MinFilter (size : Z)
| FIND_EDGES
| SHARPEN.

Inductive Resampling : Type := LANCZOS.

Class Backend : Type := {
  (** [rembg.remove] between the PNG encoder and decoder *)
  rembg_remove : Image -> result Image;
  (** the decoded file [assets/backgrounds/<name>.png], when it exists *)
  asset_file : string -> option Image;
  (** [Image.filter]: the filtered pixel data *)
  filter_data : Filter -> Image -> raster;
  (** [Image.resize]: the resampled pixel data for a target size *)
  resize_data : option Resampling -> Z * Z -> Image -> raster;
  (** luminance of an RGB pixel, for [convert("L")] *)
  luma : pixel -> Z;
  (** masked paste of one channel: mask value, destination, source *)
  paste_blend : Z -> Z -> Z -> Z;
  (** [ImageEnhance.Brightness(im).enhance(f)] and [Contrast] *)
  brightness_data : float -> Image -> raster;
  contrast_data : float -> Image -> raster;
  (** [Image.blend(a, b, alpha)] on one pixel *)
  blend_px : float -> pixel -> pixel -> pixel;
  (** [Image.alpha_composite(dst, src)] on one pixel *)
  composite_px : pixel -> pixel -> pixel;
  (** [ImageChops.multiply] on one channel *)
  multiply8 : Z -> Z -> Z;
  (** [np.random.normal(0, sigma, shape)] at index [(y, x, c)] *)
  normal : float -> Z -> Z -> Z -> float;
  (** [x ** y] on floats *)
  fpow : float -> float -> float
}.

Section Ops.
Context {backend : Backend}.

(** [Image.new(mode, size, color)] *)
Definition new (m : mode) (sz : Z * Z) (color : pixel) : result Image :=
  let '(w, h) := sz in
  if (w <? 0) || (h <? 0) then Raise ValueError
  else Ok (mkImage m w h (fun _ _ => color)).

(** [ImageColor.getrgb] on the color names the program uses *)
Definition getrgb (name : string) : result pixel :=
  if String.eqb name "white" then Ok (mkpx 255 255 255 255)
  else if String.eqb name "black" then Ok (mkpx 0 0 0 255)
  else Raise ValueError.

Definition copy (im : Image) : Image := im.

(** [im.convert(mode)] *)
Definition convert (m : mode) (im : Image) : Image :=
  match m, im_mode im with
  | RGBA, RGBA | RGB, RGB | L, L => im
  | RGBA, _ | RGB, _ =>
      mkImage m (width im) (height im)
        (fun x y => let p := px im x y in mkpx (R p) (G p) (B p) 255)
  | L, _ =>
      mkImage L (width im) (height im)
        (fun x y => grey (luma (px im x y)))
  end.

(** One band as an [L] image. *)
Definition band (c : pixel -> Z) (im : Image) : Image :=
  mkImage L (width im) (height im) (fun x y => grey (c (px im x y))).

(** [im.split()] *)
Definition split (im : Image) : list Image :=
  match im_mode im with
  | L => [im]
  | RGB => [band R im; band G im; band B im]
  | RGBA => [band R im; band G im; band B im; band A im]
  end.

(** [im.split()[-1]] *)
Definition last_band (im : Image) : Image :=
  last (split im) im.

(** [Image.merge("RGBA", (r, g, b, a))] and [Image.merge("RGB", (r, g, b))] *)
Definition merge (m : mode) (bands : list Image) : result Image :=
  match m, bands with
  | RGBA, [r; g; b; a] =>
      if same_size r g && same_size r b && same_size r a then
        Ok (mkImage RGBA (width r) (height r)
              (fun x y => mkpx (R (px r x y)) (R (px g x y))
                               (R (px b x y)) (R (px a x y))))
      else Raise ValueError
  | RGB, [r; g; b] =>
      if same_size r g && same_size r b then
        Ok (mkImage RGB (width r) (height r)
              (fun x y => mkpx (R (px r x y)) (R (px g x y))
                               (R (px b x y)) 255))
      else Raise ValueError
  | _, _ => Raise ValueError
  end.

(** [im.putalpha(alpha)] with an image as [alpha]; the updated image.  An
    RGB image becomes RGBA.  (An L image becomes LA in Pillow, a mode
    this model does not have: what is stated of [putalpha] is stated of
    RGB and RGBA images, the only ones the pipeline gives it.) *)
Definition putalpha (im alpha : Image) : result Image :=
  if same_size im alpha then
    Ok (mkImage RGBA (width im) (height im)
          (fun x y => let p := px im x y in
                      mkpx (R p) (G p) (B p) (R (px alpha x y))))
  else Raise ValueError.

(** [im.crop((left, upper, right, lower))]; outside the image the
    result is zero. *)
Definition crop (im : Image) (box : Z * Z * Z * Z) : Image :=
  let '(x0, y0, x1, y1) := box in
  mkImage (im_mode im) (Z.max 0 (x1 - x0)) (Z.max 0 (y1 - y0))
    (fun x y => if inside im (x0 + x) (y0 + y)
                then px im (x0 + x) (y0 + y) else transparent).

(** The value a mask image gives at a pixel: its alpha band when it has
    one, its single band otherwise. *)
Definition mask_value (mask : Image) (x y : Z) : Z :=
  if has_alpha (im_mode mask) then A (px mask x y) else R (px mask x y).

Definition blend_channels (m : Z) (d s : pixel) : pixel :=
  mkpx (paste_blend m (R d) (R s)) (paste_blend m (G d) (G s))
       (paste_blend m (B d) (B s)) (paste_blend m (A d) (A s)).

(** [dst.paste(src, (x0, y0))] and [dst.paste(src, (x0, y0), mask=mask)];
    the updated destination.  The source is converted to the
    destination's mode; a mask of another size than the source raises. *)
Definition paste (dst src : Image) (pos : Z * Z) (mask : option Image)
  : result Image :=
  let '(x0, y0) := pos in
  let src' := convert (im_mode dst) src in
  match mask with
  | None =>
      Ok (mkImage (im_mode dst) (width dst) (height dst)
            (fun x y => if inside src (x - x0) (y - y0)
                        then px src' (x - x0) (y - y0) else px dst x y))
  | Some mk =>
      if same_size src mk then
        Ok (mkImage (im_mode dst) (width dst) (height dst)
              (fun x y => if inside src (x - x0) (y - y0)
                          then blend_channels
                                 (mask_value mk (x - x0) (y - y0))
                                 (px dst x y) (px src' (x - x0) (y - y0))
                          else px dst x y))
      else Raise ValueError
  end.

(** [dst.paste(color, (x0, y0), mask=mask)] with a plain color *)
Definition paste_color (dst : Image) (color : pixel) (pos : Z * Z)
           (mask : Image) : Image :=
  let '(x0, y0) := pos in
  mkImage (im_mode dst) (width dst) (height dst)
    (fun x y => if inside mask (x - x0) (y - y0)
                then blend_channels (mask_value mask (x - x0) (y - y0))
                                    (px dst x y) color
                else px dst x y).

(** [im.filter(f)]: same mode and size *)
Definition filter (f : Filter) (im : Image) : Image :=
  mkImage (im_mode im) (width im) (height im) (filter_data f im).

(** [im.resize(size, resample)]: a copy when the size is unchanged, an
    error for an empty target *)
Definition resize (im : Image) (sz : Z * Z) (resample : option Resampling)
  : result Image :=
  let '(w, h) := sz in
  if (w =? width im) && (h =? height im) then Ok (copy im)
  else if (w <? 1) || (h <? 1) then Raise ValueError
  else Ok (mkImage (im_mode im) w h (resize_data resample sz im)).

(** [im.point(f)] *)
Definition point (f : Z -> Z) (im : Image) : Image :=
  mkImage (im_mode im) (width im) (height im)
    (fun x y => let p := px im x y in
                match im_mode im with
                | L => grey (f (R p))
                | RGB => mkpx (f (R p)) (f (G p)) (f (B p)) 255
                | RGBA => mkpx (f (R p)) (f (G p)) (f (B p)) (f (A p))
                end).

(** [ImageOps.invert] *)
Definition invert (im : Image) : Image := point (fun v => 255 - v) im.

(** [ImageOps.flip]: top to bottom *)
Definition flip (im : Image) : Image :=
  mkImage (im_mode im) (width im) (height im)
    (fun x y => px im x (height im - 1 - y)).

(** [ImageChops.multiply(a, b)]: the result has the common part's size *)
Definition multiply (a b : Image) : Image :=
  mkImage (im_mode a) (Z.min (width a) (width b))
    (Z.min (height a) (height b))
    (fun x y => let p := px a x y in let q := px b x y in
                mkpx (multiply8 (R p) (R q)) (multiply8 (G p) (G q))
                     (multiply8 (B p) (B q)) (multiply8 (A p) (A q))).

(** [Image.blend(a, b, alpha)] *)
Definition blend (a b : Image) (alpha : float) : result Image :=
  if same_size a b && mode_eqb (im_mode a) (im_mode b) then
    Ok (mkImage (im_mode a) (width a) (height a)
          (fun x y => blend_px alpha (px a x y) (px b x y)))
  else Raise ValueError.

(** [Image.alpha_composite(dst, src)] *)
Definition alpha_composite (dst src : Image) : result Image :=
  if same_size dst src && mode_eqb (im_mode dst) RGBA
     && mode_eqb (im_mode src) RGBA then
    Ok (mkImage RGBA (width dst) (height dst)
          (fun x y => composite_px (px dst x y) (px src x y)))
  else Raise ValueError.

(** [ImageEnhance.Brightness(im).enhance(f)], [ImageEnhance.Contrast] *)
Definition enhance_brightness (im : Image) (f : float) : Image :=
  mkImage (im_mode im) (width im) (height im) (brightness_data f im).
Definition enhance_contrast (im : Image) (f : float) : Image :=
  mkImage (im_mode im) (width im) (height im) (contrast_data f im).

(** Whether a stored pixel counts as data for [getbbox]: the alpha
    channel alone when the image has one, any band otherwise. *)
Definition nonzero (m : mode) (p : pixel) : bool :=
  match m with
  | RGBA => negb (A p =? 0)
  | RGB => negb ((R p =? 0) && (G p =? 0) && (B p =? 0))
  | L => negb (R p =? 0)
  end.

(** One row of the bounding-box scan: the columns seen so far and
    whether the row holds data. *)
Definition scan_row (im : Image) (y : Z) (acc : bool * Z * Z)
  : bool * Z * Z :=
  fold_left
    (fun '(has_data, x0, x1) x =>
       if nonzero (im_mode im) (px im x y)
       then (true, if x <? x0 then x else x0,
                   if x1 <=? x then x + 1 else x1)
       else (has_data, x0, x1))
    (range (width im)) acc.

Definition scan_rows (im : Image) (rows : list Z) (box : Z * Z * Z * Z)
  : Z * Z * Z * Z :=
  fold_left
    (fun '(x0, y0, x1, y1) y =>
       let '(has_data, x0', x1') := scan_row im y (false, x0, x1) in
       if has_data
       then (x0', if y0 <? 0 then y else y0, x1', y + 1)
       else (x0', y0, x1', y1))
    rows box.

(** [im.getbbox()]: the box [(left, upper, right, lower)] of the data,
    right and lower excluded; [None] when there is none. *)
Definition getbbox (im : Image) : option (Z * Z * Z * Z) :=
  let '(x0, y0, x1, y1) :=
    scan_rows im (range (height im)) (width im, -1, 0, 0) in
  if y0 <? 0 then None else Some (x0, y0, x1, y1).

(** [np.array(im)]: rows of pixels *)
Definition np_array (im : Image) : list (list pixel) :=
  map (fun y => map (fun x => px im x y) (range (width im)))
      (range (height im)).

End Ops.

End PIL.

Import PIL.

(* ================================================================= *)
(** ** NumPy on pixel arrays *)

Module Np.

(** [np.any(mask)] on a two-dimensional boolean array *)
Definition any (mask : list (list bool)) : bool :=
  existsb (existsb (fun b => b)) mask.

(** [rgb[mask]]: the entries of [rgb] where [mask] holds, row by row *)
Definition select {T : Type} (arr : list (list T)) (mask : list (list bool))
  : list T :=
  List.concat (map (fun '(row, mrow) =>
                 map fst (List.filter snd (combine row mrow)))
              (combine arr mask)).

Definition sum (l : list Z) : Z := fold_right Z.add 0 l.

(** [np.mean(pixels)] over every entry of a [k x 3] array, as NumPy
    computes it: the sum accumulated in binary64 (the entries are integers
    in 0..255, so it is exact below 2^53), divided once by the number of
    entries and rounded to binary64. *)
Definition mean64 (pixels : list (list Z)) : float :=
  let values := List.concat pixels in
  SFdiv prec emax (of_int (sum values))
    (of_int (Z.of_nat (List.length values))).

(** [a > b] on floats *)
Definition gt64 (a b : float) : bool := fltb b a.

(** The same mean before the rounding, as an exact rational.  With fewer
    than 2^43 entries the rounded quotient lies on the same side of an
    integer threshold as the exact one, and the program only uses the
    threshold 200: at integer thresholds a comparison of this mean is the
    comparison the code makes.  At other thresholds it is not (a mean that
    exceeds the threshold by less than the rounding error compares greater
    here and equal in the code). *)
Definition mean (pixels : list (list Z)) : Q :=
  let values := List.concat pixels in
  (inject_Z (sum values) / inject_Z (Z.of_nat (List.length values)))%Q.

(** [a > b] *)
Definition gt (a b : Q) : bool := negb (Qle_bool a b).

(** What [np.random.normal] refuses as a scale ([ValueError: scale < 0]): a
    number whose sign bit is set. *)
Definition signbit (x : float) : bool :=
  match x with
  | S754_zero s | S754_infinity s | S754_finite s _ _ => s
  | S754_nan => false
  end.

End Np.

(* ================================================================= *)
(** ** processor.py *)

Section Processor.
Context {backend : Backend}.

Definition remove_background (input_image : Image) : result Image :=
  output <- rembg_remove input_image ;;
  Ok (convert RGBA output).

Definition is_product_white (image : Image) (threshold : Q) : bool :=
  let img := convert RGBA image in
  let data := np_array img in
  let rgb := map (map (fun p => [R p; G p; B p])) data in
  let alpha := map (map A) data in
  let mask := map (map (fun a => 0 <? a)) alpha in
  if negb (Np.any mask) then false
  else
    let pixels := Np.select rgb mask in
    let avg_brightness := Np.mean pixels in
    Np.gt avg_brightness threshold.

(** The same function with the arithmetic of the code for an arbitrary
    threshold: the mean and the comparison in binary64.
    [is_product_white] above is this function for an integer threshold,
    with the mean kept exact. *)
Definition is_product_white_binary64 (image : Image) (threshold : float)
  : bool :=
  let img := convert RGBA image in
  let data := np_array img in
  let rgb := map (map (fun p => [R p; G p; B p])) data in
  let alpha := map (map A) data in
  let mask := map (map (fun a => 0 <? a)) alpha in
  if negb (Np.any mask) then false
  else
    let pixels := Np.select rgb mask in
    let avg_brightness := Np.mean64 pixels in
    Np.gt64 avg_brightness threshold.

Definition create_drop_shadow (image : Image) (offset : Z * Z)
           (background_color : pixel) (blur : Z) : result (Image * Z) :=
  if negb (has_alpha (im_mode image)) then Ok (image, 0)
  else
    let pad := blur * 4 in
    let '(w, h) := size image in
    shadow_container <- new RGBA (w + pad * 2, h + pad * 2) transparent ;;
    let alpha := last_band image in
    shadow_mask <- new L (w + pad * 2, h + pad * 2) (grey 0) ;;
    shadow_mask <- paste shadow_mask alpha
                     (pad + fst offset, pad + snd offset) None ;;
    let shadow_mask := filter (GaussianBlur (of_int blur)) shadow_mask in
    shadow_rgba <- new RGBA (size shadow_mask) background_color ;;
    shadow_rgba <- putalpha shadow_rgba shadow_mask ;;
    Ok (shadow_rgba, pad).

Definition create_perspective_shadow (image : Image) (scale_y : float)
           (blur : Z) (opacity : float) : result Image :=
  let '(w, h) := size image in
  let alpha := last_band image in
  silhouette <- new L (w, h) (grey 0) ;;
  let silhouette := paste_color silhouette (grey 255) (0, 0) alpha in
  shadow_h <- int (fmul (of_int h) scale_y) ;;
  shadow_img <- resize silhouette (w, shadow_h) (Some LANCZOS) ;;
  final_shadow <- new RGBA (w, h) transparent ;;
  op <- int (fmul (of_int 255) opacity) ;;
  shadow_layer <- new RGBA (w, shadow_h) (mkpx 0 0 0 op) ;;
  final_shadow <- paste final_shadow shadow_layer (0, h - shadow_h)
                    (Some shadow_img) ;;
  Ok (filter (GaussianBlur (of_int blur)) final_shadow).

Definition apply_rim_glow (image : Image) (color : Z * Z * Z)
           (power : float) (blur : Z) : result Image :=
  if negb (has_alpha (im_mode image)) then Ok image
  else
    let alpha := last_band image in
    let glow_mask := filter (GaussianBlur (of_int blur)) alpha in
    glow_a <- int (fmul (of_int 100) power) ;;
    let '(r, g, b) := color in
    glow_color <- new RGBA (size image) (mkpx r g b glow_a) ;;
    glow_layer <- new RGBA (size image) transparent ;;
    glow_layer <- paste glow_layer glow_color (0, 0) (Some glow_mask) ;;
    combined <- new RGBA (size image) transparent ;;
    combined <- paste combined glow_layer (0, 0) (Some glow_layer) ;;
    paste combined image (0, 0) (Some image).

Definition apply_light_wrap (product background : Image) (pos : Z * Z)
           (intensity : float) (blur : Z) : result Image :=
  if negb (has_alpha (im_mode product)) then Ok product
  else
    let '(p_w, p_h) := size product in
    let bg_crop :=
      convert RGBA (crop background
                      (fst pos, snd pos, fst pos + p_w, snd pos + p_h)) in
    let alpha := last_band product in
    let edges_sharp :=
      filter (GaussianBlur (of_int 1)) (filter FIND_EDGES alpha) in
    let bg_blurred_sharp := filter (GaussianBlur (of_int 3)) bg_crop in
    layer_sharp <- new RGBA (size product) transparent ;;
    layer_sharp <- paste layer_sharp bg_blurred_sharp (0, 0)
                     (Some edges_sharp) ;;
    let edges_soft :=
      filter (GaussianBlur (of_int 3)) (filter FIND_EDGES alpha) in
    let bg_blurred_soft := filter (GaussianBlur (of_int blur)) bg_crop in
    layer_soft <- new RGBA (size product) transparent ;;
    layer_soft <- paste layer_soft bg_blurred_soft (0, 0)
                    (Some edges_soft) ;;
    res <- alpha_composite product layer_sharp ;;
    over <- alpha_composite res layer_soft ;;
    blend res over intensity.

Definition apply_scene_shadows (product background : Image) (pos : Z * Z)
           (intensity : float) : result Image :=
  if negb (has_alpha (im_mode product)) then Ok product
  else
    let '(p_w, p_h) := size product in
    let bg_crop :=
      convert L (crop background
                   (fst pos, snd pos, fst pos + p_w, snd pos + p_h)) in
    let bg_shadows := invert bg_crop in
    let bg_shadows := filter (GaussianBlur (of_int 2)) bg_shadows in
    let rgb := convert RGB product in
    shadow3 <- merge RGB [bg_shadows; bg_shadows; bg_shadows] ;;
    let shadowed_rgb := multiply rgb shadow3 in
    blended_rgb <- blend rgb shadowed_rgb intensity ;;
    let res := copy product in
    paste res blended_rgb (0, 0) (Some (last_band product)).

(** [np.clip(v, 0, 255).astype(np.uint8)] *)
Definition clip_uint8 (v : float) : Z :=
  if fltb v (of_int 0) then 0
  else if fltb (of_int 255) v then 255
  else match int v with Ok z => z | Raise _ => 0 end.

(** [np.random.normal(0, sigma, shape)]: the samples by index
    [(y, x, c)]; a negative [sigma] raises. *)
Definition random_normal (sigma : float)
  : result (Z -> Z -> Z -> float) :=
  if Np.signbit sigma then Raise ValueError else Ok (normal sigma).

Definition apply_film_grain (image : Image) (intensity : float)
  : result Image :=
  let rgb := convert RGB image in
  noise <- random_normal (fmul intensity (of_int 255)) ;;
  let grain (c v x y : Z) := clip_uint8 (fadd (of_int v) (noise y x c)) in
  let res :=
    mkImage RGB (width rgb) (height rgb)
      (fun x y => let p := px rgb x y in
                  mkpx (grain 0 (R p) x y) (grain 1 (G p) x y)
                       (grain 2 (B p) x y) 255) in
  if has_alpha (im_mode image) then
    putalpha (convert RGBA res) (last_band image)
  else Ok res.

Definition apply_cinematic_effects (image : Image) (is_dark_bg : bool)
           (is_dark_product : bool) (tint_color : option (Z * Z * Z))
  : result Image :=
  processed <-
    match tint_color with
    | Some (r, g, b) =>
        solid <- new RGB (size image) (mkpx r g b 255) ;;
        processed_rgb <- blend (convert RGB image) solid (lit 2 2) ;;
        if has_alpha (im_mode image) then
          putalpha (convert RGBA processed_rgb) (last_band image)
        else Ok processed_rgb
    | None => Ok image
    end ;;
  let processed :=
    if is_dark_product then
      enhance_contrast (enhance_brightness processed (lit 11 1)) (lit 105 2)
    else processed in
  processed <-
    (if is_dark_bg then
       apply_rim_glow processed (255, 255, 255) (lit 11 1) 5
     else Ok processed) ;;
  Ok (filter SHARPEN processed).

Definition load_background (bg_name : string) (target_size : Z * Z)
  : result Image :=
  let bg_path := ("assets/backgrounds/" ++ bg_name ++ ".png")%string in
  match asset_file bg_path with
  | Some bg_file =>
      let bg_img := convert RGBA bg_file in
      resize bg_img target_size (Some LANCZOS)
  | None => c <- getrgb "white" ;; new RGBA target_size c
  end.

Definition solidify_edges (image : Image) (iterations : nat)
  : result Image :=
  if negb (has_alpha (im_mode image)) then Ok image
  else
    let alpha := last_band image in
    let rgb := convert RGB image in
    rgb <- fold_left
             (fun acc _ =>
                rgb <- acc ;;
                let blurred_rgb := filter (GaussianBlur (of_int 3)) rgb in
                let mask := point (fun x => if x =? 0 then 255 else 0) alpha in
                paste rgb blurred_rgb (0, 0) (Some mask))
             (seq 0 iterations) (Ok rgb) ;;
    merge RGBA (split rgb ++ [alpha])%list.

Definition feather_edges (image : Image) (blur_radius : float)
  : result Image :=
  if negb (has_alpha (im_mode image)) then Ok image
  else
    image <- solidify_edges image 2 ;;
    let alpha := last_band image in
    let alpha := filter (GaussianBlur blur_radius) alpha in
    let res := copy image in
    putalpha res alpha.

Definition create_reflection (image : Image) (opacity : float) (blur : Z)
  : result Image :=
  let reflection := flip image in
  let '(w, h) := size reflection in
  gradient <- new L (w, h) (grey 0) ;;
  rows <- fold_right
            (fun y acc =>
               rest <- acc ;;
               ratio <- fdiv (of_int y) (of_int h) ;;
               alpha_val <- int (fmul (fmul (of_int 255) opacity)
                                   (fsub (of_int 1)
                                      (fpow ratio (lit 15 1)))) ;;
               Ok (Z.max 0 alpha_val :: rest))
            (Ok []) (range h) ;;
  let gradient :=
    mkImage L w h
      (fun x y => if inside gradient x y
                  then grey (nth (Z.to_nat y) rows 0) else px gradient x y) in
  let ref_alpha := last_band reflection in
  let new_alpha := multiply ref_alpha gradient in
  reflection <- putalpha reflection new_alpha ;;
  Ok (filter (GaussianBlur (of_int blur)) reflection).

(** *** [process_product_photo] *)

Definition image_bg_map : dict string :=
  [ ("Realistic Studio", "studio_floor");
    ("Wooden Floor", "wood_floor");
    ("Marble Floor", "marble_floor");
    ("Grey Marble Floor", "grey_marble_floor");
    ("Premium Dark Marble", "premium_dark_marble");
    ("Premium White Marble", "premium_white_marble");
    ("Midnight Obsidian Marble", "obsidian_marble");
    ("Dark Studio (Flat Lay)", "dark_studio_floor");
    ("Industrial Slate Floor", "industrial_slate");
    ("Natural Daylight Studio", "daylight_studio");
    ("Premium Oak Parquet", "premium_parquet") ].

(** [any(k in manual_bg for k in ks)] *)
Definition any_in (ks : list string) (manual_bg : string) : bool :=
  existsb (contains manual_bg) ks.

Definition is_floor (manual_bg : string) : bool :=
  any_in ["Floor"; "Marble"; "Studio"; "Slate"; "Parquet"] manual_bg.
Definition is_marble (manual_bg : string) : bool :=
  contains manual_bg "Marble".
Definition is_spotlight (manual_bg : string) : bool :=
  contains manual_bg "Obsidian".
Definition is_flat_lay (manual_bg : string) : bool :=
  any_in ["Flat Lay"; "Daylight"; "Parquet"] manual_bg.
Definition is_slate (manual_bg : string) : bool :=
  contains manual_bg "Slate".
Definition is_daylight (manual_bg : string) : bool :=
  contains manual_bg "Daylight".
Definition is_dark_bg (manual_bg : string) : bool :=
  any_in ["Dark"; "Obsidian"; "Slate"] manual_bg.

(** [is_daylight or "Parquet" in manual_bg] *)
Definition daylight_or_parquet (manual_bg : string) : bool :=
  is_daylight manual_bg || contains manual_bg "Parquet".

Definition safe_pad : Z := 100.

(** [bbox = no_bg.getbbox()], then the crop [if bbox:]. *)
Definition trim (no_bg : Image) : Image :=
  match getbbox no_bg with
  | Some bbox => crop no_bg bbox
  | None => no_bg
  end.

(** Steps 1 and 2: background removal, the trim, then the 100px safe
    zone.  Gives the padded subject and the size of the trimmed one. *)
Definition trim_and_pad (input_image : Image) : result (Image * Z * Z) :=
  no_bg <- remove_background input_image ;;
  let no_bg := trim no_bg in
  let '(orig_w, orig_h) := size no_bg in
  padded_product <-
    new RGBA (orig_w + safe_pad * 2, orig_h + safe_pad * 2) transparent ;;
  padded_product <- paste padded_product no_bg (safe_pad, safe_pad) None ;;
  Ok (padded_product, orig_w, orig_h).

Definition scale_factor (manual_bg : string) : float :=
  if is_flat_lay manual_bg then lit 65 2
  else if is_spotlight manual_bg then lit 45 2
  else lit 5 1.

(** Step 4: the scaled subject, and [scale] when it was computed. *)
Definition perspective_scaling (no_bg : Image) (orig_h bg_h : Z)
           (manual_bg : string) : result (Image * option float) :=
  if is_floor manual_bg then
    target_h <- int (fmul (of_int bg_h) (scale_factor manual_bg)) ;;
    scale <- fdiv (of_int target_h) (of_int orig_h) ;;
    new_w <- int (fmul (of_int (fst (size no_bg))) scale) ;;
    new_h <- int (fmul (of_int (snd (size no_bg))) scale) ;;
    processed_product <- resize no_bg (new_w, new_h) (Some LANCZOS) ;;
    Ok (processed_product, Some scale)
  else Ok (no_bg, None).

(** Step 5: shave the mask and treat the edge band by subject tone. *)
Definition adaptive_edge_purity (processed_product : Image)
           (is_light_prod : bool) : result Image :=
  if has_alpha (im_mode processed_product) then
    let mask := last_band processed_product in
    let shrunk_mask := filter (MinFilter 7) mask in
    processed_product <- putalpha processed_product shrunk_mask ;;
    let rgb := convert RGB processed_product in
    let edge_region :=
      filter (GaussianBlur (of_int 1)) (filter FIND_EDGES shrunk_mask) in
    rgb <-
      (if negb is_light_prod then
         let darkened := enhance_brightness rgb (lit 4 1) in
         paste rgb darkened (0, 0) (Some edge_region)
       else
         let cleaned := enhance_brightness rgb (lit 105 2) in
         paste rgb cleaned (0, 0) (Some edge_region)) ;;
    merge RGBA (split rgb ++ [shrunk_mask])%list
  else Ok processed_product.

(** Step 7: [(pos_x, pos_y)] *)
Definition positioning (bg_w bg_h p_w p_h : Z) (manual_bg : string)
  : result (Z * Z) :=
  let pos_x := (bg_w - p_w) / 2 in
  pos_y <-
    (if is_spotlight manual_bg || is_flat_lay manual_bg
     then Ok ((bg_h - p_h) / 2)
     else horizon <- int (fmul (of_int bg_h) (lit 7 1)) ;;
          Ok (horizon - p_h)) ;;
  Ok (pos_x, pos_y).

(** Step 8, floor styles: reflection or light bounce, then the shadows. *)
Definition floor_layers (final_render processed_product : Image)
           (manual_bg : string) (is_light_prod : bool)
           (pos_x pos_y p_h : Z) : result Image :=
  final_render <-
    (if is_marble manual_bg then
       reflection <- create_reflection processed_product (lit 8 2) 4 ;;
       paste final_render reflection (pos_x, pos_y + p_h - 2)
         (Some reflection)
     else if is_light_prod && daylight_or_parquet manual_bg then
       '(bounce, pad_b) <-
         create_drop_shadow processed_product (0, 0)
           (mkpx 255 255 255 20) 50 ;;
       paste final_render bounce (pos_x - pad_b, pos_y - pad_b)
         (Some bounce)
     else Ok final_render) ;;
  if is_flat_lay manual_bg then
    let offset := if daylight_or_parquet manual_bg
                  then (-12, 10) else (0, 4) in
    let base_op := if daylight_or_parquet manual_bg then 45 else 80 in
    shadow_op <-
      (if is_light_prod then int (fmul (of_int base_op) (lit 15 1))
       else Ok base_op) ;;
    '(shadow_f, pad_f) <-
      create_drop_shadow processed_product offset
        (mkpx 0 0 0 shadow_op) 35 ;;
    final_render <-
      paste final_render shadow_f (pos_x - pad_f, pos_y - pad_f)
        (Some shadow_f) ;;
    let contact_op := if is_light_prod then 220 else 160 in
    qx <- fdiv (of_int (fst offset)) (of_int 4) ;;
    off_x <- int qx ;;
    qy <- fdiv (of_int (snd offset)) (of_int 4) ;;
    off_y <- int qy ;;
    '(shadow_c, pad_c) <-
      create_drop_shadow processed_product (off_x, off_y)
        (mkpx 0 0 0 contact_op) 4 ;;
    paste final_render shadow_c (pos_x - pad_c, pos_y - pad_c)
      (Some shadow_c)
  else if is_slate manual_bg then
    let shadow_op := if is_light_prod then 90 else 60 in
    '(shadow_s, pad_s) <-
      create_drop_shadow processed_product (15, 12)
        (mkpx 0 0 0 shadow_op) 40 ;;
    final_render <-
      paste final_render shadow_s (pos_x - pad_s, pos_y - pad_s)
        (Some shadow_s) ;;
    '(shadow_c, pad_c) <-
      create_drop_shadow processed_product (3, 2)
        (mkpx 0 0 0 (if is_light_prod then 200 else 180)) 4 ;;
    paste final_render shadow_c (pos_x - pad_c, pos_y - pad_c)
      (Some shadow_c)
  else
    shadow_p <-
      create_perspective_shadow processed_product (lit 2 1) 15
        (if is_light_prod then lit 35 2 else lit 25 2) ;;
    lift <- int (fmul (of_int p_h) (lit 1 1)) ;;
    final_render <-
      paste final_render shadow_p (pos_x, pos_y + lift) (Some shadow_p) ;;
    '(shadow_c, pad_c) <-
      create_drop_shadow processed_product (0, 2)
        (mkpx 0 0 0 (if is_light_prod then 210 else 180)) 2 ;;
    final_render <-
      paste final_render shadow_c (pos_x - pad_c, pos_y - pad_c)
        (Some shadow_c) ;;
    '(shadow_s, pad_s) <-
      create_drop_shadow processed_product (0, 4)
        (mkpx 0 0 0 (if is_light_prod then 60 else 40)) 25 ;;
    paste final_render shadow_s (pos_x - pad_s, pos_y - pad_s)
      (Some shadow_s).

(** Step 8, any other style: re-centred vertically, one soft shadow.
    Gives the render and the new [pos_y]. *)
Definition plain_layers (final_render processed_product : Image)
           (is_light_prod : bool) (pos_x bg_h p_h : Z)
  : result (Image * Z) :=
  let pos_y := (bg_h - p_h) / 2 in
  '(shadow_d, pad_d) <-
    create_drop_shadow processed_product (0, 10)
      (mkpx 0 0 0 (if is_light_prod then 80 else 60)) 30 ;;
  final_render <-
    paste final_render shadow_d (pos_x - pad_d, pos_y - pad_d)
      (Some shadow_d) ;;
  Ok (final_render, pos_y).

Definition render_layers (final_render processed_product : Image)
           (manual_bg : string) (is_light_prod : bool)
           (pos_x pos_y bg_h p_h : Z) : result (Image * Z) :=
  if is_floor manual_bg then
    final_render <-
      floor_layers final_render processed_product manual_bg is_light_prod
        pos_x pos_y p_h ;;
    Ok (final_render, pos_y)
  else
    plain_layers final_render processed_product is_light_prod
      pos_x bg_h p_h.

(** The local variables of the plate branch when it returns. *)
Record frame : Type := mkframe {
  bg_w : Z;
  bg_h : Z;
  scale : option float;
  p_w : Z;
  p_h : Z;
  pos_x : Z;
  pos_y : Z;
  processed_product : Image;
  final_render : Image
}.

(** The branch [if manual_bg in image_bg_map]. *)
Definition plate_branch (no_bg : Image) (orig_h : Z)
           (manual_bg bg_key : string) : result frame :=
  bg_layer <- load_background bg_key (size no_bg) ;;
  let '(bg_w, bg_h) := size bg_layer in
  '(processed_product, scale) <-
    perspective_scaling no_bg orig_h bg_h manual_bg ;;
  let is_light_prod := is_product_white processed_product 200 in
  processed_product <-
    adaptive_edge_purity processed_product is_light_prod ;;
  processed_product <- feather_edges processed_product (lit 4 1) ;;
  let '(p_w, p_h) := size processed_product in
  '(pos_x, pos_y) <- positioning bg_w bg_h p_w p_h manual_bg ;;
  thumb <- resize bg_layer (1, 1) None ;;
  let avg_color := let p := px thumb 0 0 in (R p, G p, B p) in
  processed_product <-
    apply_cinematic_effects processed_product (is_dark_bg manual_bg)
      (negb is_light_prod) (Some avg_color) ;;
  processed_product <-
    (if daylight_or_parquet manual_bg then
       apply_scene_shadows processed_product bg_layer (pos_x, pos_y)
         (lit 8 2)
     else Ok processed_product) ;;
  processed_product <-
    apply_light_wrap processed_product bg_layer (pos_x, pos_y)
      (lit 12 2) 12 ;;
  let final_render := copy bg_layer in
  let is_light_prod := is_product_white processed_product 200 in
  '(final_render, pos_y) <-
    render_layers final_render processed_product manual_bg is_light_prod
      pos_x pos_y bg_h p_h ;;
  final_render <-
    paste final_render processed_product (pos_x, pos_y)
      (Some processed_product) ;;
  final_render <- apply_film_grain final_render (lit 12 3) ;;
  Ok (mkframe bg_w bg_h scale p_w p_h pos_x pos_y processed_product
        final_render).

(** The flat-color branch: the explicit color, or the one chosen from the
    subject's brightness. *)
Definition resolve_bg_color (no_bg : Image) (manual_bg : option string)
  : string :=
  match manual_bg with
  | Some name =>
      if truthy manual_bg && mem name ["White"; "Black"] then lower name
      else if is_product_white no_bg 200 then "black" else "white"
  | None => if is_product_white no_bg 200 then "black" else "white"
  end.

Definition color_branch (no_bg : Image) (manual_bg : option string)
  : result (Image * string) :=
  let bg_color := resolve_bg_color no_bg manual_bg in
  no_bg <- feather_edges no_bg (lit 7 1) ;;
  color <- getrgb bg_color ;;
  final_render <- new RGBA (size no_bg) color ;;
  final_render <- paste final_render no_bg (0, 0) (Some no_bg) ;;
  Ok (convert RGB final_render, capitalize bg_color).

(** [manual_bg in image_bg_map], with the asset key when it holds *)
Definition plate_key (manual_bg : option string) : option (string * string) :=
  match manual_bg with
  | Some name =>
      match get image_bg_map name with
      | Some bg_key => Some (name, bg_key)
      | None => None
      end
  | None => None
  end.

Definition process_product_photo (input_image : Image)
           (manual_bg : option string) : result (Image * string) :=
  '(no_bg, orig_w, orig_h) <- trim_and_pad input_image ;;
  match plate_key manual_bg with
  | Some (name, bg_key) =>
      fr <- plate_branch no_bg orig_h name bg_key ;;
      Ok (convert RGB (final_render fr), name)
  | None => color_branch no_bg manual_bg
  end.

End Processor.

(* ================================================================= *)
(** ** app.py: the selection passed to the pipeline *)

Module App.

Definition options : list string :=
  [ "Auto-detect"; "White"; "Black"; "Realistic Studio"; "Wooden Floor";
    "Marble Floor"; "Grey Marble Floor"; "Premium Dark Marble";
    "Premium White Marble"; "Midnight Obsidian Marble";
    "Dark Studio (Flat Lay)"; "Industrial Slate Floor";
    "Natural Daylight Studio"; "Premium Oak Parquet" ].

Definition bg_map : dict (option string) :=
  [ ("White", Some "white");
    ("Black", Some "black");
    ("Auto-detect", None);
    ("Realistic Studio", Some "Realistic Studio");
    ("Wooden Floor", Some "Wooden Floor");
    ("Marble Floor", Some "Marble Floor");
    ("Grey Marble Floor", Some "Grey Marble Floor");
    ("Premium Dark Marble", Some "Premium Dark Marble");
    ("Premium White Marble", Some "Premium White Marble");
    ("Midnight Obsidian Marble", Some "Midnight Obsidian Marble");
    ("Dark Studio (Flat Lay)", Some "Dark Studio (Flat Lay)");
    ("Industrial Slate Floor", Some "Industrial Slate Floor");
    ("Natural Daylight Studio", Some "Natural Daylight Studio");
    ("Premium Oak Parquet", Some "Premium Oak Parquet") ].

(** The body of [if process_btn:]: look the choice up, run the pipeline. *)
Definition process {backend : Backend} (input_image : Image)
           (manual_bg_choice : string) : result (Image * string) :=
  match get bg_map manual_bg_choice with
  | Some manual_bg => process_product_photo input_image manual_bg
  | None => Raise KeyError
  end.

End App.

(* ================================================================= *)
(** ** Notions the statements use *)

(** The RGBA pixels of an image, row by row. *)
Definition pixels_of {backend : Backend} (im : Image) : list pixel :=
  List.concat (np_array (convert RGBA im)).

(** A pixel of non-zero opacity. *)
Definition is_opaque (p : pixel) : bool := 0 <? A p.

(** The pixels of non-zero opacity of an image. *)
Definition opaque {backend : Backend} (im : Image) : list pixel :=
  List.filter is_opaque (pixels_of im).

(** Sum of the R, G and B values of a list of pixels. *)
Definition brightness_sum (l : list pixel) : Z :=
  fold_right (fun p acc => R p + G p + B p + acc) 0 l.

(** Mean of the R, G and B values over the pixels of non-zero opacity. *)
Definition mean_brightness {backend : Backend} (im : Image) : Q :=
  (inject_Z (brightness_sum (opaque im))
   / inject_Z (3 * Z.of_nat (List.length (opaque im))))%Q.

(** The same mean rounded to binary64, as [np.mean] returns it. *)
Definition mean_brightness64 {backend : Backend} (im : Image) : float :=
  SFdiv prec emax (of_int (brightness_sum (opaque im)))
    (of_int (3 * Z.of_nat (List.length (opaque im)))).

(** The subject in its safe zone: [safe_pad] transparent pixels on every
    side. *)
Definition padded {backend : Backend} (t : Image) : Image :=
  mkImage RGBA (width t + safe_pad * 2) (height t + safe_pad * 2)
    (fun x y => if inside t (x - safe_pad) (y - safe_pad)
                then px (convert RGBA t) (x - safe_pad) (y - safe_pad)
                else transparent).

(** The background choice is absent: no choice at all, or a name that is
    neither a plate style nor a color name. *)
Definition absent (manual_bg : option string) : Prop :=
  match manual_bg with
  | None => True
  | Some name => get image_bg_map name = None
                 /\ mem name ["White"; "Black"] = false
  end.

(** An image has a size. *)
Definition well_sized (im : Image) : Prop :=
  0 <= width im /\ 0 <= height im.

(** Every channel of every pixel of the image is an 8-bit value. *)
Definition uint8 (v : Z) : Prop := 0 <= v <= 255.
Definition uint8_image (im : Image) : Prop :=
  forall x y, inside im x y = true ->
    uint8 (R (px im x y)) /\ uint8 (G (px im x y)) /\
    uint8 (B (px im x y)) /\ uint8 (A (px im x y)).

(** The pixel at [(x, y)] counts as data for [getbbox]. *)
Definition holds_data (im : Image) (x y : Z) : bool :=
  nonzero (im_mode im) (px im x y).

(** What the bounding-box scan has established after the rows below [n]:
    either nothing was found and the box is still the initial one, or the
    box is the tight box of the data in those rows. *)
Definition scanned (im : Image) (n : Z) (box : Z * Z * Z * Z) : Prop :=
  let '(x0, y0, x1, y1) := box in
  (y0 < 0 ->
     box = (width im, -1, 0, 0) /\
     forall x y, 0 <= x < width im -> 0 <= y < n -> holds_data im x y = false)
  /\ (0 <= y0 ->
        0 <= x0 < x1 /\ x1 <= width im /\ y0 < y1 /\ y1 <= n /\
        (forall x y, 0 <= x < width im -> 0 <= y < n ->
           holds_data im x y = true -> x0 <= x < x1 /\ y0 <= y < y1) /\
        (exists y, 0 <= y < n /\ holds_data im x0 y = true) /\
        (exists y, 0 <= y < n /\ holds_data im (x1 - 1) y = true) /\
        (exists x, 0 <= x < width im /\ holds_data im x y0 = true) /\
        (exists x, 0 <= x < width im /\ holds_data im x (y1 - 1) = true)).

(** A box inside the image that contains every pixel holding data and has
    one on each of its four edges. *)
Definition tight_box (im : Image) (box : Z * Z * Z * Z) : Prop :=
  let '(x0, y0, x1, y1) := box in
  0 <= x0 /\ x0 < x1 /\ x1 <= width im /\
  0 <= y0 /\ y0 < y1 /\ y1 <= height im /\
  (forall x y, inside im x y = true -> holds_data im x y = true ->
     x0 <= x < x1 /\ y0 <= y < y1) /\
  (exists y, inside im x0 y = true /\ holds_data im x0 y = true) /\
  (exists y, inside im (x1 - 1) y = true /\ holds_data im (x1 - 1) y = true) /\
  (exists x, inside im x y0 = true /\ holds_data im x y0 = true) /\
  (exists x, inside im x (y1 - 1) = true /\ holds_data im x (y1 - 1) = true).

(** Same opacity, and no darker where opaque. *)
Definition no_darker (p q : pixel) : Prop :=
  A p = A q /\ (0 < A p -> R p <= R q /\ G p <= G q /\ B p <= B q).

(** [f] holds on the [k] integers from [z] on. *)
Fixpoint all_from (k : nat) (z : Z) (f : Z -> bool) : bool :=
  match k with
  | O => true
  | S k' => f z && all_from k' (z + 1) f
  end.

(** The exact value of a finite float. *)
Definition value (x : float) : Q :=
  match x with
  | S754_finite s m e =>
      ((if s then -1 else 1) * inject_Z (Zpos m) * Qpower 2 e)%Q
  | _ => 0%Q
  end.

(* ================================================================= *)
(** ** Sample inputs *)

Module Demo.

(** A back end for running the pipeline on samples: the subject comes
    already cut out, there are no asset files, and every filter returns a
    blank raster. *)
Definition backend : Backend := {|
  rembg_remove := fun im => Ok im;
  asset_file := fun _ => None;
  filter_data := fun _ _ _ _ => transparent;
  resize_data := fun _ _ im => px im;
  luma := fun p => R p;
  paste_blend := fun m d s => if m =? 0 then d else s;
  brightness_data := fun _ im => px im;
  contrast_data := fun _ im => px im;
  blend_px := fun _ a _ => a;
  composite_px := fun d s => if A s =? 0 then d else s;
  multiply8 := fun a b => a * b / 255;
  normal := fun _ _ _ _ => of_int 0;
  fpow := fun a _ => a
|}.

(** The same back end with a resize that scales: nearest neighbour. *)
Definition nearest : Backend := {|
  rembg_remove := fun im => Ok im;
  asset_file := fun _ => None;
  filter_data := fun _ _ _ _ => transparent;
  resize_data := fun _ '(w, h) im x y =>
                   px im (x * width im / w) (y * height im / h);
  luma := fun p => R p;
  paste_blend := fun m d s => if m =? 0 then d else s;
  brightness_data := fun _ im => px im;
  contrast_data := fun _ im => px im;
  blend_px := fun _ a _ => a;
  composite_px := fun d s => if A s =? 0 then d else s;
  multiply8 := fun a b => a * b / 255;
  normal := fun _ _ _ _ => of_int 0;
  fpow := fun a _ => a
|}.

(** A raster of one color. *)
Definition solid (w h : Z) (p : pixel) : Image :=
  mkImage RGBA w h (fun _ _ => p).

(** A fully transparent 2x2 photo. *)
Definition blank : Image := solid 2 2 transparent.

(** One opaque pixel of color [p] at (2, 1) in a transparent 5x4 photo. *)
Definition dot (p : pixel) : Image :=
  mkImage RGBA 5 4
    (fun x y => if (x =? 2) && (y =? 1) then p else transparent).

Definition near_white : pixel := mkpx 250 250 250 255.
Definition near_black : pixel := mkpx 10 10 10 255.

(** An opaque dark column, 1 pixel wide and 256 high. *)
Definition column : Image := solid 1 256 near_black.

(** An opaque dark slab, 40 pixels wide and 256 high. *)
Definition slab : Image := solid 40 256 near_black.

(** The numbers of a frame. *)
Definition summary (r : result frame)
  : option (Z * Z * option float * Z * Z * Z * Z) :=
  match r with
  | Ok fr => Some (bg_w fr, bg_h fr, scale fr, p_w fr, p_h fr,
                   pos_x fr, pos_y fr)
  | Raise _ => None
  end.

End Demo.

(* ================================================================= *)
(** ** Notions for the further properties *)

(** The color channels of a pixel. *)
Definition rgb_of (p : pixel) : Z * Z * Z := (R p, G p, B p).

(** Pillow's masked paste at the two ends of the mask range: a mask value
    of 0 keeps the destination, 255 takes the source. *)
Definition exact_mask {backend : Backend} : Prop :=
  forall d s, paste_blend 0 d s = d /\ paste_blend 255 d s = s.

(** The canvas color a flat-color label names. *)
Definition canvas_color (label : string) : pixel :=
  if String.eqb label "Black" then mkpx 0 0 0 255 else mkpx 255 255 255 255.

(** The random generator draws no noise: it accepts [sigma] and every
    sample is a zero. *)
Definition no_noise {backend : Backend} (sigma : float) : Prop :=
  exists noise,
    random_normal sigma = Ok noise
    /\ forall y x c, exists s, noise y x c = S754_zero s.

(** The heights of step 4 for a subject of trimmed height [h] and a scale
    factor [f]: the target height, the scale, and the height of the scaled
    subject with its safe zone. *)
Definition scaled_height (f : float) (h : Z) : result (Z * float * Z) :=
  target_h <- int (fmul (of_int (h + safe_pad * 2)) f) ;;
  scale <- fdiv (of_int target_h) (of_int h) ;;
  new_h <- int (fmul (of_int (h + safe_pad * 2)) scale) ;;
  Ok (target_h, scale, new_h).

(* ================================================================= *)
(** ** Tactics *)

(** From [x <- c ;; k = Ok v], the value [c] returned. *)
Ltac inv_bind H :=
  match type of H with
  | bind ?c _ = Ok _ =>
      let E := fresh "E" in
      destruct c eqn:E; cbn [bind] in H; [| discriminate H]
  end.

(** Two runs that start with the same computation: follow its result. *)
Ltac same_step :=
  match goal with
  | |- bind ?c _ = bind ?c _ =>
      let v := fresh "v" in
      destruct c as [v | ?]; cbn [bind];
      [ match type of v with
        | (_ * _)%type => destruct v
        | _ => idtac
        end
      | reflexivity ]
  end.

(* ================================================================= *)
(** ** The Python runtime on samples *)

Example int_truncates : int (fmul (of_int 100) (lit 29 2)) = Ok 28.
Proof. reflexivity. Qed.

Example int_towards_zero :
  (q <- fdiv (of_int (-12)) (of_int 4) ;; int q) = Ok (-3)
  /\ (q <- fdiv (of_int 10) (of_int 4) ;; int q) = Ok 2.
Proof. split; reflexivity. Qed.

Example horizon_of_650_rows : int (fmul (of_int 650) (lit 7 1)) = Ok 454.
Proof. reflexivity. Qed.

Example division_by_zero : fdiv (of_int 3) (of_int 0) = Raise ZeroDivisionError.
Proof. reflexivity. Qed.

Example capitalize_colors :
  capitalize "black" = "Black" /\ capitalize "white" = "White"
  /\ lower "White" = "white".
Proof. repeat split. Qed.

Example substring_tests :
  contains "Premium Oak Parquet" "Parquet" = true
  /\ contains "Dark Studio (Flat Lay)" "Flat Lay" = true
  /\ contains "Marble Floor" "Slate" = false.
Proof. repeat split. Qed.

Example bbox_of_dot : getbbox (Demo.dot Demo.near_white) = Some (2, 1, 3, 2).
Proof. reflexivity. Qed.

Example bbox_of_blank : getbbox Demo.blank = None.
Proof. reflexivity. Qed.

(* ================================================================= *)
(** ** Lists and ranges *)

Lemma in_range (n x : Z) : In x (range n) <-> 0 <= x < n.
Proof.
  unfold range. rewrite in_map_iff. split.
  - intros (k & <- & Hk). apply in_seq in Hk. lia.
  - intros Hx. exists (Z.to_nat x). split; [lia |]. apply in_seq. lia.
Qed.

Lemma range_snoc (n : Z) : 0 <= n -> range (n + 1) = (range n ++ [n])%list.
Proof.
  intros Hn. unfold range.
  replace (Z.to_nat (n + 1)) with (S (Z.to_nat n)) by lia.
  rewrite seq_S, map_app. simpl. f_equal. f_equal. lia.
Qed.

Lemma range_nonpos (n : Z) : n <= 0 -> range n = [].
Proof.
  intros Hn. unfold range. replace (Z.to_nat n) with 0%nat by lia. reflexivity.
Qed.

Lemma inside_iff (im : Image) (x y : Z) :
  inside im x y = true <-> 0 <= x < width im /\ 0 <= y < height im.
Proof. unfold inside. rewrite !andb_true_iff. lia. Qed.

Lemma any_map_map {T : Type} (f : T -> bool) (data : list (list T)) :
  Np.any (map (map f) data) = existsb f (List.concat data).
Proof.
  unfold Np.any. induction data as [| row data IH]; simpl; [reflexivity |].
  rewrite existsb_app, <- IH. f_equal.
  induction row as [| p row IHr]; simpl; [reflexivity |]. now rewrite IHr.
Qed.

Lemma select_row {T U : Type} (g : T -> U) (f : T -> bool) (row : list T) :
  map fst (List.filter snd (combine (map g row) (map f row)))
  = map g (List.filter f row).
Proof.
  induction row as [| p row IH]; simpl; [reflexivity |].
  destruct (f p); simpl; now rewrite IH.
Qed.

Lemma select_map_map {T U : Type} (g : T -> U) (f : T -> bool)
      (data : list (list T)) :
  Np.select (map (map g) data) (map (map f) data)
  = map g (List.filter f (List.concat data)).
Proof.
  unfold Np.select. induction data as [| row data IH]; simpl; [reflexivity |].
  rewrite IH, select_row, filter_app, map_app. reflexivity.
Qed.

Lemma existsb_filter_nil {T : Type} (f : T -> bool) (l : list T) :
  existsb f l = false <-> List.filter f l = [].
Proof.
  induction l as [| a l IH]; simpl; [tauto |].
  destruct (f a); simpl; [split; discriminate | exact IH].
Qed.

Lemma sum_channels (l : list pixel) :
  Np.sum (List.concat (map (fun p => [R p; G p; B p]) l)) = brightness_sum l.
Proof.
  unfold Np.sum. induction l as [| p l IH]; simpl; [reflexivity |].
  rewrite IH. lia.
Qed.

Lemma length_channels (l : list pixel) :
  Z.of_nat (List.length (List.concat (map (fun p => [R p; G p; B p]) l)))
  = 3 * Z.of_nat (List.length l).
Proof.
  induction l as [| p l IH]; [reflexivity |].
  change (List.concat (map (fun p => [R p; G p; B p]) (p :: l)))
    with ([R p; G p; B p] ++ List.concat (map (fun p => [R p; G p; B p]) l))%list.
  rewrite length_app, Nat2Z.inj_add, IH.
  change (List.length (p :: l)) with (S (List.length l)).
  change (List.length [R p; G p; B p]) with 3%nat. lia.
Qed.

Lemma gt_iff (a b : Q) : Np.gt a b = true <-> (b < a)%Q.
Proof.
  unfold Np.gt. rewrite negb_true_iff. split.
  - intros Hf. apply Qnot_le_lt. intros Hle.
    apply Qle_bool_iff in Hle. congruence.
  - intros Hlt. destruct (Qle_bool a b) eqn:E; [| reflexivity].
    apply Qle_bool_iff in E. exfalso. exact (Qlt_not_le _ _ Hlt E).
Qed.

(* ================================================================= *)
(** ** The colour classifier *)

Section Classifier.
Context {backend : Backend}.

(** [is_product_white] in terms of the opaque pixels. *)
Lemma is_product_white_unfold (im : Image) (threshold : Q) :
  is_product_white im threshold =
  match opaque im with
  | [] => false
  | _ => Np.gt (mean_brightness im) threshold
  end.
Proof.
  unfold is_product_white, mean_brightness, Np.mean, opaque, pixels_of,
    is_opaque.
  set (data := np_array (convert RGBA im)).
  rewrite (map_map (map A)), (map_ext _ _ (fun row => map_map A _ row)).
  rewrite any_map_map, select_map_map.
  destruct (List.filter (fun p => 0 <? A p) (List.concat data)) as [| p l] eqn:E.
  - apply existsb_filter_nil in E. now rewrite E.
  - assert (Hex : existsb (fun p => 0 <? A p) (List.concat data) = true).
    { destruct (existsb _ _) eqn:E'; [reflexivity |].
      apply existsb_filter_nil in E'. congruence. }
    rewrite Hex. simpl negb. cbv iota.
    rewrite sum_channels, length_channels. reflexivity.
Qed.


Lemma in_pixels_of (im : Image) (p : pixel) :
  In p (pixels_of im) <->
  exists x y, inside im x y = true /\ p = px (convert RGBA im) x y.
Proof.
  unfold pixels_of, np_array. rewrite in_concat.
  assert (Hw : width (convert RGBA im) = width im)
    by (unfold convert; destruct (im_mode im); reflexivity).
  assert (Hh : height (convert RGBA im) = height im)
    by (unfold convert; destruct (im_mode im); reflexivity).
  rewrite Hw, Hh. split.
  - intros (row & Hrow & Hp). apply in_map_iff in Hrow.
    destruct Hrow as (y & <- & Hy). apply in_map_iff in Hp.
    destruct Hp as (x & <- & Hx). apply in_range in Hx, Hy.
    exists x, y. split; [apply inside_iff; lia | reflexivity].
  - intros (x & y & Hin & ->). apply inside_iff in Hin.
    exists (map (fun x => px (convert RGBA im) x y) (range (width im))).
    split; apply in_map_iff.
    + exists y. split; [reflexivity | apply in_range; lia].
    + exists x. split; [reflexivity | apply in_range; lia].
Qed.

Lemma in_opaque (im : Image) (p : pixel) :
  In p (opaque im) <->
  exists x y, inside im x y = true /\ p = px (convert RGBA im) x y
              /\ 0 < A p.
Proof.
  unfold opaque, is_opaque. rewrite filter_In, in_pixels_of, Z.ltb_lt.
  split.
  - intros ((x & y & Hin & Hp) & Ha). now exists x, y.
  - intros (x & y & Hin & Hp & Ha). split; [now exists x, y | exact Ha].
Qed.

(** Pointwise related images have pointwise related pixel lists. *)
Lemma Forall2_map_same {T U : Type} (rel : U -> U -> Prop)
      (f g : T -> U) (l : list T) :
  (forall x, In x l -> rel (f x) (g x)) ->
  Forall2 rel (map f l) (map g l).
Proof.
  induction l as [| a l IH]; intros Hl; simpl; constructor.
  - apply Hl. now left.
  - apply IH. intros x Hx. apply Hl. now right.
Qed.

Lemma Forall2_concat_map {T U : Type} (rel : U -> U -> Prop)
      (f g : T -> list U) (l : list T) :
  (forall y, In y l -> Forall2 rel (f y) (g y)) ->
  Forall2 rel (List.concat (map f l)) (List.concat (map g l)).
Proof.
  induction l as [| a l IH]; intros Hl; simpl; [constructor |].
  apply Forall2_app.
  - apply Hl. now left.
  - apply IH. intros y Hy. apply Hl. now right.
Qed.

Lemma pixels_of_related (rel : pixel -> pixel -> Prop) (a b : Image) :
  width a = width b -> height a = height b ->
  (forall x y, inside a x y = true ->
     rel (px (convert RGBA a) x y) (px (convert RGBA b) x y)) ->
  Forall2 rel (pixels_of a) (pixels_of b).
Proof.
  intros Hw Hh Hrel. unfold pixels_of, np_array.
  assert (Hsz : forall im, width (convert RGBA im) = width im
                           /\ height (convert RGBA im) = height im)
    by (intros im; unfold convert; destruct (im_mode im); split; reflexivity).
  destruct (Hsz a) as [-> ->]. destruct (Hsz b) as [-> ->].
  rewrite <- Hw, <- Hh.
  apply Forall2_concat_map. intros y Hy.
  apply Forall2_map_same. intros x Hx.
  apply in_range in Hx, Hy. apply Hrel, inside_iff. lia.
Qed.

Lemma brightness_no_darker (l1 l2 : list pixel) :
  Forall2 no_darker l1 l2 ->
  let o1 := List.filter is_opaque l1 in
  let o2 := List.filter is_opaque l2 in
  List.length o1 = List.length o2 /\ brightness_sum o1 <= brightness_sum o2.
Proof.
  unfold is_opaque.
  induction 1 as [| p q l1 l2 [Ha Hc] _ IH]; simpl; [split; [reflexivity | lia] |].
  simpl in IH. destruct IH as [IHl IHs]. rewrite <- Ha.
  destruct (0 <? A p) eqn:E; simpl.
  - apply Z.ltb_lt in E. destruct (Hc E) as (Hr & Hg & Hb).
    split; [now f_equal | lia].
  - now split.
Qed.

End Classifier.

(* ================================================================= *)
(** ** The bounding box *)

Section BoundingBox.
Context {backend : Backend}.
Variable im : Image.

Local Abbreviation nz := (holds_data im).

(** One row, over any list of columns. *)
Lemma scan_columns (y : Z) (xs : list Z) (hd : bool) (a b : Z) :
  exists hd' a' b',
    fold_left
      (fun '(has_data, x0, x1) x =>
         if nonzero (im_mode im) (px im x y)
         then (true, if x <? x0 then x else x0,
                     if x1 <=? x then x + 1 else x1)
         else (has_data, x0, x1)) xs (hd, a, b) = (hd', a', b')
    /\ hd' = hd || existsb (fun x => nz x y) xs
    /\ a' <= a /\ b <= b'
    /\ (forall x, In x xs -> nz x y = true -> a' <= x < b')
    /\ (a' = a \/ (In a' xs /\ nz a' y = true))
    /\ (b' = b \/ (In (b' - 1) xs /\ nz (b' - 1) y = true)).
Proof.
  revert hd a b. induction xs as [| x xs IH]; intros hd a b.
  - exists hd, a, b. simpl. rewrite orb_false_r.
    repeat split; try lia; try tauto.
  - simpl fold_left.
    change (nonzero (im_mode im) (px im x y)) with (nz x y).
    destruct (nz x y) eqn:E.
    + destruct (IH true (if x <? a then x else a)
                  (if b <=? x then x + 1 else b))
        as (hd' & a' & b' & Hf & Hhd & Ha & Hb & Hin & Hwa & Hwb).
      exists hd', a', b'. rewrite Hf. simpl existsb. rewrite E.
      assert (Hax : (if x <? a then x else a) <= x /\
                    (if x <? a then x else a) <= a)
        by (destruct (Z.ltb_spec x a); lia).
      assert (Hbx : x < (if b <=? x then x + 1 else b) /\
                    b <= (if b <=? x then x + 1 else b))
        by (destruct (Z.leb_spec b x); lia).
      split; [reflexivity |]. split; [now rewrite orb_true_r |].
      split; [lia |]. split; [lia |]. split; [| split].
      * intros x' [<- | Hx'] Hnz; [lia | now apply Hin].
      * destruct Hwa as [-> | [Hi Hn]].
        -- destruct (Z.ltb_spec x a); [right | now left].
           split; [now left | exact E].
        -- right. split; [now right | exact Hn].
      * destruct Hwb as [-> | [Hi Hn]].
        -- destruct (Z.leb_spec b x); [right | now left].
           replace (x + 1 - 1) with x by lia. split; [now left | exact E].
        -- right. split; [now right | exact Hn].
    + destruct (IH hd a b)
        as (hd' & a' & b' & Hf & Hhd & Ha & Hb & Hin & Hwa & Hwb).
      exists hd', a', b'. rewrite Hf. simpl existsb. rewrite E.
      split; [reflexivity |]. split; [exact Hhd |].
      split; [exact Ha |]. split; [exact Hb |]. split; [| split].
      * intros x' [<- | Hx'] Hnz; [congruence | now apply Hin].
      * destruct Hwa as [-> | [Hi Hn]]; [now left | right].
        split; [now right | exact Hn].
      * destruct Hwb as [-> | [Hi Hn]]; [now left | right].
        split; [now right | exact Hn].
Qed.

Lemma existsb_range_false (n y : Z) :
  existsb (fun x => nz x y) (range n) = false ->
  forall x, 0 <= x < n -> nz x y = false.
Proof.
  intros He x Hx. destruct (nz x y) eqn:E; [| reflexivity].
  assert (Ht : existsb (fun x => nz x y) (range n) = true)
    by (apply existsb_exists; exists x; split; [now apply in_range | exact E]).
  congruence.
Qed.

Lemma scanned_step (n : Z) (box : Z * Z * Z * Z) :
  0 <= n -> scanned im n box ->
  scanned im (n + 1) (scan_rows im [n] box).
Proof.
  intros Hn. destruct box as [[[x0 y0] x1] y1]. intros [Hnone Hsome].
  unfold scan_rows, scan_row. simpl fold_left.
  destruct (scan_columns n (range (width im)) false x0 x1)
    as (hd' & a' & b' & Hf & Hhd & Ha & Hb & Hin & Hwa & Hwb).
  rewrite Hf. simpl in Hhd.
  destruct hd'.
  - (* the row holds data *)
    symmetry in Hhd. apply existsb_exists in Hhd.
    destruct Hhd as (xd & Hxd & Hnzd). apply in_range in Hxd.
    assert (Hbox : a' <= xd < b') by (apply Hin; [now apply in_range | exact Hnzd]).
    assert (Hrow : forall x, 0 <= x < width im -> nz x n = true -> a' <= x < b')
      by (intros x Hx; apply Hin; now apply in_range).
    assert (Hedge_a : In a' (range (width im)) /\ nz a' n = true ->
                      exists y, 0 <= y < n + 1 /\ nz a' y = true)
      by (intros [_ H]; exists n; split; [lia | exact H]).
    assert (Hedge_b : In (b' - 1) (range (width im)) /\ nz (b' - 1) n = true ->
                      exists y, 0 <= y < n + 1 /\ nz (b' - 1) y = true)
      by (intros [_ H]; exists n; split; [lia | exact H]).
    unfold scanned. destruct (Z.ltb_spec y0 0) as [Hneg | Hpos].
    + destruct (Hnone Hneg) as [Heq Hempty]. inversion Heq; subst x0 y0 x1 y1.
      split; [lia |]. intros _.
      assert (Ha' : a' <> width im) by lia.
      assert (Hb' : b' <> 0) by lia.
      destruct Hwa as [? | Hwa]; [contradiction |].
      destruct Hwb as [? | Hwb]; [contradiction |].
      assert (Hbw : b' <= width im)
        by (destruct Hwb as [Hi _]; apply in_range in Hi; lia).
      assert (Ha0 : 0 <= a')
        by (destruct Hwa as [Hi _]; apply in_range in Hi; lia).
      repeat split; try lia.
      * destruct (Z.eq_dec y n) as [-> | Hne]; [now apply Hrow |].
        rewrite Hempty in H1; [discriminate | lia | lia].
      * destruct (Z.eq_dec y n) as [-> | Hne]; [now apply Hrow |].
        rewrite Hempty in H1; [discriminate | lia | lia].
      * destruct (Z.eq_dec y n) as [-> | Hne]; [lia |].
        rewrite Hempty in H1; [discriminate | lia | lia].
      * now apply Hedge_a.
      * now apply Hedge_b.
      * exists xd. now split.
      * exists xd. replace (n + 1 - 1) with n by lia. now split.
    + destruct (Hsome Hpos)
        as (Hx & Hx1 & Hy & Hy1 & Hall & Ex0 & Ex1 & Ey0 & Ey1).
      split; [lia |]. intros _.
      assert (Hbw : b' <= width im).
      { destruct Hwb as [-> | [Hi _]]; [lia | apply in_range in Hi; lia]. }
      assert (Ha0 : 0 <= a').
      { destruct Hwa as [-> | [Hi _]]; [lia | apply in_range in Hi; lia]. }
      repeat split; try lia.
      * destruct (Z.eq_dec y n) as [-> | Hne]; [now apply Hrow |].
        enough (x0 <= x < x1 /\ y0 <= y < y1) by lia.
        apply Hall; [lia | lia | assumption].
      * destruct (Z.eq_dec y n) as [-> | Hne]; [now apply Hrow |].
        enough (x0 <= x < x1 /\ y0 <= y < y1) by lia.
        apply Hall; [lia | lia | assumption].
      * destruct (Z.eq_dec y n) as [-> | Hne]; [lia |].
        enough (x0 <= x < x1 /\ y0 <= y < y1) by lia.
        apply Hall; [lia | lia | assumption].
      * destruct Hwa as [-> | Hwa]; [| now apply Hedge_a].
        destruct Ex0 as (y & Hyr & Hnz). exists y. split; [lia | exact Hnz].
      * destruct Hwb as [-> | Hwb]; [| now apply Hedge_b].
        destruct Ex1 as (y & Hyr & Hnz). exists y. split; [lia | exact Hnz].
      * exact Ey0.
      * exists xd. replace (n + 1 - 1) with n by lia. now split.
  - (* the row is empty *)
    symmetry in Hhd.
    pose proof (existsb_range_false _ _ Hhd) as Hrow.
    assert (Ea : a' = x0).
    { destruct Hwa as [-> | [Hi Hnzx]]; [reflexivity |].
      apply in_range in Hi. rewrite Hrow in Hnzx; [discriminate | lia]. }
    assert (Eb : b' = x1).
    { destruct Hwb as [-> | [Hi Hnzx]]; [reflexivity |].
      apply in_range in Hi. rewrite Hrow in Hnzx; [discriminate | lia]. }
    subst a' b'. unfold scanned. split.
    + intros Hneg. destruct (Hnone Hneg) as [Heq Hempty].
      split; [exact Heq |]. intros x y Hx Hy.
      destruct (Z.eq_dec y n) as [-> | Hne]; [now apply Hrow |].
      apply Hempty; lia.
    + intros Hpos.
      destruct (Hsome Hpos)
        as (Hx & Hx1 & Hy & Hy1 & Hall & Ex0 & Ex1 & Ey0 & Ey1).
      repeat split; try lia.
      * destruct (Z.eq_dec y n) as [-> | Hne];
          [rewrite Hrow in H1; [discriminate | lia] |].
        enough (x0 <= x < x1 /\ y0 <= y < y1) by lia.
        apply Hall; [lia | lia | assumption].
      * destruct (Z.eq_dec y n) as [-> | Hne];
          [rewrite Hrow in H1; [discriminate | lia] |].
        enough (x0 <= x < x1 /\ y0 <= y < y1) by lia.
        apply Hall; [lia | lia | assumption].
      * destruct (Z.eq_dec y n) as [-> | Hne];
          [rewrite Hrow in H1; [discriminate | lia] |].
        enough (x0 <= x < x1 /\ y0 <= y < y1) by lia.
        apply Hall; [lia | lia | assumption].
      * destruct (Z.eq_dec y n) as [-> | Hne];
          [rewrite Hrow in H1; [discriminate | lia] |].
        enough (x0 <= x < x1 /\ y0 <= y < y1) by lia.
        apply Hall; [lia | lia | assumption].
      * destruct Ex0 as (y & Hyr & Hnz). exists y. split; [lia | exact Hnz].
      * destruct Ex1 as (y & Hyr & Hnz). exists y. split; [lia | exact Hnz].
      * exact Ey0.
      * exact Ey1.
Qed.

Lemma scan_rows_app (l1 l2 : list Z) (box : Z * Z * Z * Z) :
  scan_rows im (l1 ++ l2) box = scan_rows im l2 (scan_rows im l1 box).
Proof. unfold scan_rows. apply fold_left_app. Qed.

Lemma scanned_all (k : nat) :
  scanned im (Z.of_nat k)
    (scan_rows im (range (Z.of_nat k)) (width im, -1, 0, 0)).
Proof.
  induction k as [| k IH].
  - simpl. split; [| lia]. intros _. split; [reflexivity |]. intros; lia.
  - replace (Z.of_nat (S k)) with (Z.of_nat k + 1) by lia.
    rewrite range_snoc by lia. rewrite scan_rows_app.
    apply scanned_step; [lia | exact IH].
Qed.

Lemma getbbox_spec :
  match getbbox im with
  | None => forall x y, inside im x y = true -> nz x y = false
  | Some box => tight_box im box
  end.
Proof.
  unfold getbbox.
  pose proof (scanned_all (Z.to_nat (height im))) as Hs.
  assert (Hr : range (Z.of_nat (Z.to_nat (height im))) = range (height im))
    by (unfold range; now rewrite Nat2Z.id).
  rewrite Hr in Hs.
  destruct (scan_rows im (range (height im)) (width im, -1, 0, 0))
    as [[[x0 y0] x1] y1].
  destruct Hs as [Hnone Hsome].
  destruct (Z.ltb_spec y0 0) as [Hneg | Hpos].
  - destruct (Hnone Hneg) as [_ Hempty]. intros x y Hin.
    apply inside_iff in Hin. apply Hempty; lia.
  - destruct (Hsome Hpos)
      as (Hx & Hx1 & Hy & Hy1 & Hall & Ex0 & Ex1 & Ey0 & Ey1).
    assert (Hh : Z.of_nat (Z.to_nat (height im)) = height im) by lia.
    rewrite Hh in *.
    unfold tight_box. repeat split; try lia.
    + apply inside_iff in H. apply (Hall x y); lia || assumption.
    + apply inside_iff in H. apply (Hall x y); lia || assumption.
    + apply inside_iff in H. apply (Hall x y); lia || assumption.
    + apply inside_iff in H. apply (Hall x y); lia || assumption.
    + destruct Ex0 as (y & Hyr & Hnz). exists y.
      split; [apply inside_iff; lia | exact Hnz].
    + destruct Ex1 as (y & Hyr & Hnz). exists y.
      split; [apply inside_iff; lia | exact Hnz].
    + destruct Ey0 as (x & Hxr & Hnz). exists x.
      split; [apply inside_iff; lia | exact Hnz].
    + destruct Ey1 as (x & Hxr & Hnz). exists x.
      split; [apply inside_iff; lia | exact Hnz].
Qed.

End BoundingBox.

(* ================================================================= *)
(** ** Sizes through the image operations *)

Section Shapes.
Context {backend : Backend}.

Lemma new_ok (m : mode) (w h : Z) (c : pixel) :
  0 <= w -> 0 <= h -> new m (w, h) c = Ok (mkImage m w h (fun _ _ => c)).
Proof.
  intros Hw Hh. unfold new.
  destruct (Z.ltb_spec w 0); [lia |]. destruct (Z.ltb_spec h 0); [lia |].
  reflexivity.
Qed.

Lemma same_size_true (a b : Image) :
  width a = width b -> height a = height b -> same_size a b = true.
Proof. intros Hw Hh. unfold same_size. rewrite Hw, Hh, !Z.eqb_refl. reflexivity. Qed.

Lemma convert_shape (m : mode) (im : Image) :
  im_mode (convert m im) = m /\ width (convert m im) = width im
  /\ height (convert m im) = height im.
Proof. unfold convert. destruct m, (im_mode im) eqn:E; simpl; auto. Qed.

Lemma convert_same (im : Image) : convert (im_mode im) im = im.
Proof. unfold convert. destruct (im_mode im); reflexivity. Qed.

Lemma last_band_shape (im : Image) :
  width (last_band im) = width im /\ height (last_band im) = height im.
Proof. unfold last_band, split. destruct (im_mode im); simpl; auto. Qed.

Lemma paste_mask_ok (dst src mk : Image) (pos : Z * Z) :
  width src = width mk -> height src = height mk ->
  exists r, paste dst src pos (Some mk) = Ok r
            /\ im_mode r = im_mode dst
            /\ width r = width dst /\ height r = height dst.
Proof.
  intros Hw Hh. unfold paste. destruct pos as [x0 y0].
  rewrite (same_size_true _ _ Hw Hh). eexists. split; [reflexivity |].
  simpl. auto.
Qed.

Lemma putalpha_ok (im alpha : Image) :
  width im = width alpha -> height im = height alpha ->
  exists r, putalpha im alpha = Ok r /\ im_mode r = RGBA
            /\ width r = width im /\ height r = height im.
Proof.
  intros Hw Hh. unfold putalpha. rewrite (same_size_true _ _ Hw Hh).
  eexists. split; [reflexivity |]. simpl. auto.
Qed.

Lemma solidify_edges_ok (im : Image) (iterations : nat) :
  exists r, solidify_edges im iterations = Ok r
            /\ im_mode r = im_mode im
            /\ width r = width im /\ height r = height im.
Proof.
  unfold solidify_edges. destruct (im_mode im) eqn:Em; simpl has_alpha;
    simpl negb; cbv iota zeta; try (exists im; repeat split; (reflexivity || assumption)).
  destruct (convert_shape RGB im) as (Hm & Hw & Hh).
  destruct (last_band_shape im) as (Haw & Hah).
  assert (Hloop :
    forall l acc, im_mode acc = RGB -> width acc = width im ->
                  height acc = height im ->
      exists r,
        fold_left
          (fun (acc : result Image) (_ : nat) =>
             rgb <- acc ;;
             paste rgb (filter (GaussianBlur (of_int 3)) rgb) (0, 0)
               (Some (point (fun x => if x =? 0 then 255 else 0)
                        (last_band im))))
          l (Ok acc) = Ok r
        /\ im_mode r = RGB /\ width r = width im /\ height r = height im).
  { induction l as [| k l IH]; intros acc Hma Hwa Hha.
    - exists acc. simpl. auto.
    - cbn [fold_left].
      destruct (paste_mask_ok acc (filter (GaussianBlur (of_int 3)) acc)
                  (point (fun x => if x =? 0 then 255 else 0) (last_band im))
                  (0, 0)) as (r & Hr & Hmr & Hwr & Hhr).
      + simpl. lia.
      + simpl. lia.
      + cbn [bind]. rewrite Hr. apply IH; congruence. }
  destruct (Hloop (seq 0 iterations) (convert RGB im) Hm Hw Hh)
    as (r & Hr & Hmr & Hwr & Hhr).
  rewrite Hr. cbn [bind]. unfold split, merge. rewrite Hmr. cbn [app].
  rewrite !same_size_true; simpl; try lia.
  eexists. split; [reflexivity |]. simpl. auto.
Qed.

Lemma feather_edges_ok (im : Image) (blur_radius : float) :
  exists r, feather_edges im blur_radius = Ok r
            /\ im_mode r = im_mode im
            /\ width r = width im /\ height r = height im.
Proof.
  unfold feather_edges. destruct (has_alpha (im_mode im)) eqn:Ea; simpl negb;
    cbv iota; [| exists im; auto].
  destruct (solidify_edges_ok im 2) as (s & Hs & Hms & Hws & Hhs).
  rewrite Hs. cbn [bind]. unfold copy.
  destruct (last_band_shape s) as (Haw & Hah).
  destruct (putalpha_ok s (filter (GaussianBlur blur_radius) (last_band s)))
    as (r & Hr & Hmr & Hwr & Hhr); [simpl; lia | simpl; lia |].
  exists r. split; [exact Hr |].
  destruct (im_mode im); try discriminate. split; [exact Hmr | lia].
Qed.

Lemma create_drop_shadow_ok (image : Image) (offset : Z * Z)
      (background_color : pixel) (blur : Z) :
  im_mode image = RGBA -> well_sized image -> 0 <= blur ->
  exists shadow,
    create_drop_shadow image offset background_color blur
    = Ok (shadow, 4 * blur)
    /\ im_mode shadow = RGBA
    /\ width shadow = width image + 2 * (4 * blur)
    /\ height shadow = height image + 2 * (4 * blur).
Proof.
  intros Hm [Hw Hh] Hb. unfold create_drop_shadow. rewrite Hm.
  simpl has_alpha. simpl negb. cbv iota. unfold size.
  rewrite !new_ok by lia. cbn [bind]. unfold paste. cbn [bind].
  unfold filter. cbn [width height]. rewrite new_ok by lia. cbn [bind].
  unfold putalpha, same_size. cbn [width height].
  rewrite !Z.eqb_refl. cbn [andb bind].
  eexists. split; [f_equal; f_equal; lia |].
  cbn [im_mode width height]. split; [reflexivity | lia].
Qed.

End Shapes.

(* ================================================================= *)
(** ** The entry point *)

Section Pipeline.
Context {backend : Backend}.

Lemma trim_well_sized (seg : Image) : well_sized seg -> well_sized (trim seg).
Proof.
  unfold trim, well_sized. intros Hs.
  destruct (getbbox seg) as [[[[x0 y0] x1] y1] |]; [simpl; lia | exact Hs].
Qed.

Lemma trim_and_pad_ok (input_image seg : Image) :
  remove_background input_image = Ok seg -> well_sized seg ->
  trim_and_pad input_image
  = Ok (padded (trim seg), width (trim seg), height (trim seg)).
Proof.
  intros Hseg Hs. apply trim_well_sized in Hs. destruct Hs as [Hw Hh].
  unfold trim_and_pad. rewrite Hseg. cbn [bind]. unfold size.
  unfold safe_pad in *. rewrite new_ok by lia. cbn [bind]. reflexivity.
Qed.

Lemma resolve_bg_color_cases (no_bg : Image) (manual_bg : option string) :
  resolve_bg_color no_bg manual_bg = "white"
  \/ resolve_bg_color no_bg manual_bg = "black".
Proof.
  unfold resolve_bg_color.
  destruct manual_bg as [name |];
    [| destruct (is_product_white no_bg 200); auto].
  destruct (truthy (Some name) && mem name ["White"; "Black"]) eqn:E;
    [| destruct (is_product_white no_bg 200); auto].
  apply andb_true_iff in E. destruct E as [_ E].
  unfold mem in E. cbn [existsb] in E. rewrite orb_false_r in E.
  apply orb_true_iff in E.
  destruct E as [E | E]; apply String.eqb_eq in E; subst name; auto.
Qed.

Lemma resolve_absent (no_bg : Image) (manual_bg : option string) :
  absent manual_bg ->
  resolve_bg_color no_bg manual_bg
  = if is_product_white no_bg 200 then "black" else "white".
Proof.
  unfold absent, resolve_bg_color. destruct manual_bg as [name |];
    [| reflexivity].
  intros [_ Hm]. rewrite Hm, andb_false_r. reflexivity.
Qed.

Lemma absent_no_plate (manual_bg : option string) :
  absent manual_bg -> plate_key manual_bg = None.
Proof.
  unfold absent, plate_key. destruct manual_bg as [name |]; [| reflexivity].
  intros [-> _]. reflexivity.
Qed.

Lemma color_branch_ok (no_bg : Image) (manual_bg : option string) :
  well_sized no_bg ->
  exists img,
    color_branch no_bg manual_bg
    = Ok (img, capitalize (resolve_bg_color no_bg manual_bg))
    /\ im_mode img = RGB
    /\ width img = width no_bg /\ height img = height no_bg.
Proof.
  intros [Hw Hh]. unfold color_branch.
  destruct (feather_edges_ok no_bg (lit 7 1)) as (f & Hf & Hmf & Hwf & Hhf).
  rewrite Hf. cbn [bind].
  assert (Hc : exists c, getrgb (resolve_bg_color no_bg manual_bg) = Ok c)
    by (destruct (resolve_bg_color_cases no_bg manual_bg) as [-> | ->];
        eexists; reflexivity).
  destruct Hc as (c & ->). cbn [bind]. unfold size.
  rewrite new_ok by lia. cbn [bind].
  destruct (paste_mask_ok (mkImage RGBA (width f) (height f) (fun _ _ => c))
              f f (0, 0) eq_refl eq_refl) as (r & Hr & Hmr & Hwr & Hhr).
  rewrite Hr. cbn [bind]. eexists. split; [reflexivity |].
  destruct (convert_shape RGB r) as (Hm' & Hw' & Hh').
  cbn [width height] in Hwr, Hhr. repeat split; congruence.
Qed.

(** With no plate style selected the pipeline returns, and the label is
    the capitalized flat color. *)
Lemma process_color_ok (input_image seg : Image)
      (manual_bg : option string) :
  remove_background input_image = Ok seg -> well_sized seg ->
  plate_key manual_bg = None ->
  exists img,
    process_product_photo input_image manual_bg
    = Ok (img, capitalize (resolve_bg_color (padded (trim seg)) manual_bg))
    /\ im_mode img = RGB
    /\ width img = width (trim seg) + 200
    /\ height img = height (trim seg) + 200.
Proof.
  intros Hseg Hs Hk. unfold process_product_photo.
  rewrite (trim_and_pad_ok _ _ Hseg Hs). cbn [bind]. rewrite Hk.
  apply trim_well_sized in Hs. destruct Hs as [Hw Hh].
  destruct (color_branch_ok (padded (trim seg)) manual_bg)
    as (img & Hi & Hm & Hwi & Hhi).
  { unfold well_sized, padded, safe_pad. cbn [width height]. lia. }
  exists img. split; [exact Hi |]. split; [exact Hm |].
  unfold padded, safe_pad in Hwi, Hhi. cbn [width height] in Hwi, Hhi. lia.
Qed.

(** A raster without an opaque pixel is never classified light. *)
Lemma no_opaque_not_white (im : Image) (threshold : Q) :
  (forall x y, inside im x y = true -> A (px (convert RGBA im) x y) <= 0) ->
  is_product_white im threshold = false.
Proof.
  intros Hall. rewrite is_product_white_unfold.
  destruct (opaque im) as [| p l] eqn:E; [reflexivity |].
  assert (Hp : In p (opaque im)) by (rewrite E; now left).
  apply in_opaque in Hp. destruct Hp as (x & y & Hin & -> & Ha).
  specialize (Hall x y Hin). lia.
Qed.

Lemma empty_bbox_not_white (seg : Image) (threshold : Q) :
  im_mode seg = RGBA -> getbbox seg = None ->
  is_product_white (padded (trim seg)) threshold = false.
Proof.
  intros Hm Hb. apply no_opaque_not_white. intros x y _.
  assert (Hc : convert RGBA seg = seg)
    by (rewrite <- Hm; apply convert_same).
  unfold trim. rewrite Hb.
  pose proof (getbbox_spec seg) as Hspec. rewrite Hb in Hspec.
  unfold padded. rewrite Hc. cbn [convert im_mode px].
  destruct (inside seg (x - safe_pad) (y - safe_pad)) eqn:Ei;
    [| simpl; lia].
  specialize (Hspec _ _ Ei). unfold holds_data in Hspec.
  rewrite Hm in Hspec. unfold nonzero in Hspec.
  apply negb_false_iff, Z.eqb_eq in Hspec. lia.
Qed.

Lemma remove_background_mode (input_image seg : Image) :
  remove_background input_image = Ok seg -> im_mode seg = RGBA.
Proof.
  unfold remove_background. destruct (rembg_remove input_image) as [o | e];
    cbn [bind]; [| discriminate].
  intros Heq. injection Heq as <-. exact (proj1 (convert_shape RGBA o)).
Qed.

End Pipeline.

(* ================================================================= *)
(** ** The plate branch *)

Section Plate.
Context {backend : Backend}.

Lemma returns_ok {T : Type} (r : result T) :
  returns r = true -> exists v, r = Ok v.
Proof. destruct r as [v | e]; [now exists v | discriminate]. Qed.

Lemma resize_shape (im r : Image) (w h : Z) (rs : option Resampling) :
  resize im (w, h) rs = Ok r -> width r = w /\ height r = h.
Proof.
  unfold resize, copy.
  destruct ((w =? width im) && (h =? height im)) eqn:E.
  - apply andb_true_iff in E. destruct E as [Ew Eh].
    apply Z.eqb_eq in Ew, Eh. intros [= <-]. auto.
  - destruct ((w <? 1) || (h <? 1)); [discriminate |].
    intros [= <-]. auto.
Qed.

Lemma paste_shape (dst src r : Image) (pos : Z * Z) (mask : option Image) :
  paste dst src pos mask = Ok r ->
  im_mode r = im_mode dst /\ width r = width dst /\ height r = height dst.
Proof.
  unfold paste. destruct pos as [x0 y0]. destruct mask as [mk |].
  - destruct (same_size src mk); [| discriminate]. intros [= <-]. auto.
  - intros [= <-]. auto.
Qed.

Lemma putalpha_shape (im alpha r : Image) :
  putalpha im alpha = Ok r ->
  im_mode r = RGBA /\ width r = width im /\ height r = height im.
Proof.
  unfold putalpha. destruct (same_size im alpha); [| discriminate].
  intros [= <-]. auto.
Qed.

Lemma blend_shape (a b r : Image) (alpha : float) :
  blend a b alpha = Ok r ->
  im_mode r = im_mode a /\ width r = width a /\ height r = height a.
Proof.
  unfold blend. destruct (same_size a b && mode_eqb (im_mode a) (im_mode b));
    [| discriminate].
  intros [= <-]. auto.
Qed.

Lemma alpha_composite_shape (dst src r : Image) :
  alpha_composite dst src = Ok r ->
  im_mode r = RGBA /\ width r = width dst /\ height r = height dst.
Proof.
  unfold alpha_composite.
  destruct (same_size dst src && mode_eqb (im_mode dst) RGBA
            && mode_eqb (im_mode src) RGBA); [| discriminate].
  intros [= <-]. auto.
Qed.

Lemma merge_rgb_alpha_shape (rgb alpha r : Image) :
  im_mode rgb = RGB ->
  merge RGBA (split rgb ++ [alpha])%list = Ok r ->
  im_mode r = RGBA /\ width r = width rgb /\ height r = height rgb.
Proof.
  intros Hm. unfold split, merge. rewrite Hm. cbn [app].
  destruct (same_size (band R rgb) (band G rgb)
            && same_size (band R rgb) (band B rgb)
            && same_size (band R rgb) alpha); [| discriminate].
  intros [= <-]. auto.
Qed.

Lemma new_shape (m : mode) (w h : Z) (c : pixel) (r : Image) :
  new m (w, h) c = Ok r -> im_mode r = m /\ width r = w /\ height r = h.
Proof.
  unfold new. destruct ((w <? 0) || (h <? 0)); [discriminate |].
  intros [= <-]. auto.
Qed.

Lemma load_background_shape (bg_key : string) (w h : Z) (bg : Image) :
  load_background bg_key (w, h) = Ok bg -> width bg = w /\ height bg = h.
Proof.
  unfold load_background. destruct (asset_file _) as [f |].
  - apply resize_shape.
  - destruct (getrgb "white") as [c | e]; cbn [bind]; [| discriminate].
    intros Hn. apply new_shape in Hn. tauto.
Qed.

Lemma adaptive_edge_purity_shape (im r : Image) (is_light_prod : bool) :
  adaptive_edge_purity im is_light_prod = Ok r ->
  width r = width im /\ height r = height im.
Proof.
  unfold adaptive_edge_purity. destruct (has_alpha (im_mode im));
    [| intros [= <-]; auto].
  intros H. inv_bind H. apply putalpha_shape in E.
  destruct E as (_ & Hw & Hh).
  destruct (convert_shape RGB v) as (Hcm & Hcw & Hch).
  inv_bind H. rename E into E0.
  assert (Hs : im_mode v0 = RGB /\ width v0 = width (convert RGB v)
               /\ height v0 = height (convert RGB v)).
  { destruct (negb is_light_prod); apply paste_shape in E0;
      destruct E0 as (Em & Ew & Eh); rewrite Em, Ew, Eh; auto. }
  destruct Hs as (Hm0 & Hw0 & Hh0).
  apply (merge_rgb_alpha_shape _ _ _ Hm0) in H. lia.
Qed.

Lemma feather_edges_shape (im r : Image) (blur_radius : float) :
  feather_edges im blur_radius = Ok r ->
  width r = width im /\ height r = height im.
Proof.
  intros H. destruct (feather_edges_ok im blur_radius)
    as (r' & Hr' & _ & Hw & Hh).
  rewrite Hr' in H. injection H as <-. auto.
Qed.

Lemma apply_rim_glow_shape (im r : Image) (color : Z * Z * Z)
      (power : float) (blur : Z) :
  apply_rim_glow im color power blur = Ok r ->
  width r = width im /\ height r = height im.
Proof.
  unfold apply_rim_glow. destruct (has_alpha (im_mode im)); cbn [negb];
    [| intros [= <-]; auto].
  intros H. inv_bind H. destruct color as [[cr cg] cb].
  do 4 inv_bind H. apply paste_shape in H. apply paste_shape in E3.
  unfold size in E1. apply new_shape in E1. lia.
Qed.

Lemma apply_cinematic_effects_shape (im r : Image) (dark_bg dark_prod : bool)
      (tint : option (Z * Z * Z)) :
  apply_cinematic_effects im dark_bg dark_prod tint = Ok r ->
  width r = width im /\ height r = height im.
Proof.
  unfold apply_cinematic_effects. intros H. inv_bind H.
  assert (Hv : width v = width im /\ height v = height im).
  { destruct tint as [[[tr tg] tb] |]; [| injection E as <-; auto].
    do 2 inv_bind E. apply blend_shape in E1.
    destruct (convert_shape RGB im) as (_ & Hcw & Hch).
    destruct (has_alpha (im_mode im)).
    - apply putalpha_shape in E.
      destruct (convert_shape RGBA v1) as (_ & Hw1 & Hh1). lia.
    - injection E as <-. lia. }
  inv_bind H. injection H as <-. cbn [filter width height].
  assert (Hv0 : width v0 = width v /\ height v0 = height v); [| lia].
  destruct dark_bg.
  - apply apply_rim_glow_shape in E0.
    destruct dark_prod; cbn [enhance_contrast enhance_brightness width height]
      in E0; exact E0.
  - injection E0 as <-. destruct dark_prod; auto.
Qed.

Lemma apply_scene_shadows_shape (product bg r : Image) (pos : Z * Z)
      (intensity : float) :
  apply_scene_shadows product bg pos intensity = Ok r ->
  width r = width product /\ height r = height product.
Proof.
  unfold apply_scene_shadows. destruct (has_alpha (im_mode product));
    cbn [negb]; [| intros [= <-]; auto].
  unfold size, copy. intros H. do 2 inv_bind H.
  apply paste_shape in H. tauto.
Qed.

Lemma apply_light_wrap_shape (product bg r : Image) (pos : Z * Z)
      (intensity : float) (blur : Z) :
  apply_light_wrap product bg pos intensity blur = Ok r ->
  width r = width product /\ height r = height product.
Proof.
  unfold apply_light_wrap. destruct (has_alpha (im_mode product));
    cbn [negb]; [| intros [= <-]; auto].
  unfold size. intros H. do 5 inv_bind H.
  apply blend_shape in H. apply alpha_composite_shape in E2. lia.
Qed.

(** What a returned frame records: the background has the padded
    subject's size, [scale] and the subject's size come from step 4, the
    anchor from step 7 (re-centred by the non-floor branch of step 8), and
    the subject is pasted at the anchor before the grain. *)
Lemma plate_branch_frame (no_bg : Image) (orig_h : Z)
      (manual_bg bg_key : string) (fr : frame) :
  plate_branch no_bg orig_h manual_bg bg_key = Ok fr ->
  bg_w fr = width no_bg /\ bg_h fr = height no_bg
  /\ (exists scaled,
        perspective_scaling no_bg orig_h (bg_h fr) manual_bg
        = Ok (scaled, scale fr)
        /\ width scaled = p_w fr /\ height scaled = p_h fr)
  /\ (exists y0,
        positioning (bg_w fr) (bg_h fr) (p_w fr) (p_h fr) manual_bg
        = Ok (pos_x fr, y0)
        /\ pos_y fr = if is_floor manual_bg then y0
                      else (bg_h fr - p_h fr) / 2)
  /\ width (processed_product fr) = p_w fr
  /\ height (processed_product fr) = p_h fr
  /\ (exists layers composed,
        paste layers (processed_product fr) (pos_x fr, pos_y fr)
          (Some (processed_product fr)) = Ok composed
        /\ apply_film_grain composed (lit 12 3) = Ok (final_render fr)).
Proof.
  unfold plate_branch. intros H.
  inv_bind H. rename v into bg_layer, E into Ebg.
  unfold size in H, Ebg. apply load_background_shape in Ebg.
  destruct Ebg as [Hbw Hbh].
  inv_bind H. destruct v as [scaled sc]. rename E into Escale.
  inv_bind H. rename v into shaved, E into Eshave.
  apply adaptive_edge_purity_shape in Eshave.
  inv_bind H. rename v into feathered, E into Efeather.
  apply feather_edges_shape in Efeather.
  inv_bind H. destruct v as [x0 y0]. rename E into Epos.
  inv_bind H. rename v into thumb, E into Ethumb.
  inv_bind H. rename v into graded, E into Egrade.
  apply apply_cinematic_effects_shape in Egrade.
  inv_bind H. rename v into shadowed, E into Eshadow.
  assert (Hshadow : width shadowed = width graded
                    /\ height shadowed = height graded).
  { destruct (daylight_or_parquet manual_bg).
    - now apply apply_scene_shadows_shape in Eshadow.
    - injection Eshadow as <-. auto. }
  inv_bind H. rename v into wrapped, E into Ewrap.
  apply apply_light_wrap_shape in Ewrap.
  inv_bind H. destruct v as [layers y1]. rename E into Erender.
  inv_bind H. rename v into composed, E into Epaste.
  inv_bind H. rename v into grained, E into Egrain.
  injection H as <-. cbn [bg_w bg_h scale p_w p_h pos_x pos_y
                            processed_product final_render].
  split; [exact Hbw |]. split; [exact Hbh |]. split; [| split; [| split; [| split]]].
  - exists scaled. rewrite Hbh in Escale |- *. split; [exact Escale |]. lia.
  - exists y0. split; [exact Epos |].
    unfold render_layers in Erender. destruct (is_floor manual_bg).
    + inv_bind Erender. now injection Erender as _ <-.
    + unfold plain_layers in Erender. inv_bind Erender.
      destruct v as [shadow_d pad_d]. inv_bind Erender.
      now injection Erender as _ <-.
  - lia.
  - lia.
  - exists layers, composed. split; [exact Epaste | exact Egrain].
Qed.

End Plate.

(* ================================================================= *)
(** ** The style catalog and the sample runs *)

Lemma get_in_keys {V : Type} (d : dict V) (k : string) (v : V) :
  get d k = Some v -> In k (keys d).
Proof.
  induction d as [| [k' v'] d IH]; simpl; [discriminate |].
  destruct (String.eqb_spec k k') as [-> | Hne]; [now left |].
  intros H. right. now apply IH.
Qed.

Lemma catalog_floor (name bg_key : string) :
  get image_bg_map name = Some bg_key -> is_floor name = true.
Proof.
  intros H. apply get_in_keys in H.
  assert (Hall : Forall (fun n => is_floor n = true) (keys image_bg_map))
    by (repeat constructor).
  rewrite Forall_forall in Hall. now apply Hall.
Qed.

Lemma all_from_spec (f : Z -> bool) (k : nat) (z x : Z) :
  all_from k z f = true -> z <= x < z + Z.of_nat k -> f x = true.
Proof.
  revert z. induction k as [| k IH]; intros z; [lia |].
  cbn [all_from]. rewrite andb_true_iff. intros [Hz Hrest] Hx.
  destruct (Z.eq_dec x z) as [-> | Hne]; [exact Hz |].
  apply (IH (z + 1)); [exact Hrest | lia].
Qed.

(** Up to 32767 rows, [int(bg_h * 0.7)] is within one pixel of 70%. *)
Lemma horizon_within_a_pixel (bg_h horizon : Z) :
  0 <= bg_h < 32768 ->
  int (fmul (of_int bg_h) (lit 7 1)) = Ok horizon ->
  7 * bg_h - 10 <= 10 * horizon <= 7 * bg_h.
Proof.
  intros Hr Hh.
  assert (Hall :
    all_from (Z.to_nat 32768) 0
      (fun h => match int (fmul (of_int h) (lit 7 1)) with
                | Ok v => (7 * h - 10 <=? 10 * v) && (10 * v <=? 7 * h)
                | Raise _ => false
                end) = true)
    by (vm_compute; reflexivity).
  pose proof (all_from_spec _ _ _ bg_h Hall) as Hb. cbv beta in Hb.
  rewrite Hh, Z2Nat.id in Hb by lia. specialize (Hb ltac:(lia)).
  apply andb_true_iff in Hb. lia.
Qed.

Lemma column_flat_lay_summary :
  Demo.summary
    (plate_branch (backend := Demo.backend)
       (padded (backend := Demo.backend) (trim Demo.column))
       (height (trim Demo.column))
       "Dark Studio (Flat Lay)" "dark_studio_floor")
  = Some (201, 456, Some (S754_finite false 5207287069147136 (-52)),
          232, 527, -16, -36).
Proof. vm_compute. reflexivity. Qed.

Lemma column_marble_summary :
  Demo.summary
    (plate_branch (backend := Demo.backend)
       (padded (backend := Demo.backend) (trim Demo.column))
       (height (trim Demo.column)) "Marble Floor" "marble_floor")
  = Some (201, 456, Some (S754_finite false 8022036836253696 (-53)),
          179, 406, 11, -87).
Proof. vm_compute. reflexivity. Qed.

Lemma summary_ok (r : result frame) (n : Z * Z * option float * Z * Z * Z * Z) :
  Demo.summary r = Some n ->
  exists fr, r = Ok fr
             /\ n = (bg_w fr, bg_h fr, scale fr, p_w fr, p_h fr,
                     pos_x fr, pos_y fr).
Proof.
  destruct r as [fr | e]; simpl; [| discriminate].
  intros [= <-]. now exists fr.
Qed.

(* ================================================================= *)
(** ** Trimming and padding keep the opaque pixels *)

Lemma range_app (a n : Z) :
  0 <= a -> 0 <= n -> range (a + n) = (range a ++ map (Z.add a) (range n))%list.
Proof.
  intros Ha Hn. revert n Hn. apply natlike_ind.
  - rewrite Z.add_0_r. rewrite (range_nonpos 0) by lia. simpl.
    now rewrite app_nil_r.
  - intros n Hn IH. unfold Z.succ. rewrite Z.add_assoc.
    rewrite !range_snoc by lia. rewrite IH, map_app, app_assoc. reflexivity.
Qed.

Section Windows.
Context {T : Type}.

Lemma concat_map_nil (G : Z -> list T) (l : list Z) :
  (forall y, In y l -> G y = []) -> List.concat (map G l) = [].
Proof.
  induction l as [| y l IH]; intros Hl; simpl; [reflexivity |].
  rewrite (Hl y) by now left. apply IH. intros z Hz. apply Hl. now right.
Qed.

(** Over a range, rows outside a window that contribute nothing can be
    dropped. *)
Lemma concat_window (G : Z -> list T) (a n b : Z) :
  0 <= a -> 0 <= n -> 0 <= b ->
  (forall y, 0 <= y < a -> G y = []) ->
  (forall y, a + n <= y < a + n + b -> G y = []) ->
  List.concat (map G (range (a + n + b)))
  = List.concat (map (fun y => G (a + y)) (range n)).
Proof.
  intros Ha Hn Hb Hlow Hhigh.
  rewrite (range_app (a + n) b), (range_app a n) by lia.
  rewrite !map_app, !concat_app, !map_map.
  rewrite (concat_map_nil G (range a)).
  - rewrite (concat_map_nil (fun y => G (a + n + y)) (range b)).
    + now rewrite app_nil_r.
    + intros y Hy. apply in_range in Hy. apply Hhigh. lia.
  - intros y Hy. apply in_range in Hy. now apply Hlow.
Qed.

Lemma filter_as_concat (f : T -> bool) (g : Z -> T) (l : list Z) :
  List.filter f (map g l)
  = List.concat (map (fun x => if f (g x) then [g x] else []) l).
Proof.
  induction l as [| x l IH]; simpl; [reflexivity |].
  rewrite IH. destruct (f (g x)); reflexivity.
Qed.

(** The same within one row. *)
Lemma filter_window (f : T -> bool) (g : Z -> T) (a n b : Z) :
  0 <= a -> 0 <= n -> 0 <= b ->
  (forall x, 0 <= x < a -> f (g x) = false) ->
  (forall x, a + n <= x < a + n + b -> f (g x) = false) ->
  List.filter f (map g (range (a + n + b)))
  = List.filter f (map (fun x => g (a + x)) (range n)).
Proof.
  intros Ha Hn Hb Hlow Hhigh.
  rewrite (filter_as_concat f g), (filter_as_concat f (fun x => g (a + x))).
  apply (concat_window (fun x => if f (g x) then [g x] else [])); try lia.
  - intros x Hx. now rewrite Hlow.
  - intros x Hx. now rewrite Hhigh.
Qed.

Lemma filter_map_nil (f : T -> bool) (g : Z -> T) (l : list Z) :
  (forall x, In x l -> f (g x) = false) -> List.filter f (map g l) = [].
Proof.
  induction l as [| x l IH]; intros Hl; simpl; [reflexivity |].
  rewrite (Hl x) by now left. apply IH. intros z Hz. apply Hl. now right.
Qed.

End Windows.

Section Subject.
Context {backend : Backend}.

(** The opaque pixels, row by row. *)
Lemma opaque_rows (im : Image) :
  opaque im
  = List.concat
      (map (fun y => List.filter is_opaque
                       (map (fun x => px (convert RGBA im) x y)
                            (range (width im))))
           (range (height im))).
Proof.
  unfold opaque, pixels_of, np_array.
  destruct (convert_shape RGBA im) as (_ & -> & ->).
  rewrite <- concat_filter_map, map_map. reflexivity.
Qed.

Lemma rows_ext (n : Z) (G1 G2 : Z -> list pixel) :
  (forall y, 0 <= y < n -> G1 y = G2 y) ->
  List.concat (map G1 (range n)) = List.concat (map G2 (range n)).
Proof.
  intros H. f_equal. apply map_ext_in. intros y Hy.
  apply in_range in Hy. now apply H.
Qed.

Lemma row_ext (n : Z) (g1 g2 : Z -> pixel) :
  (forall x, 0 <= x < n -> g1 x = g2 x) ->
  List.filter is_opaque (map g1 (range n))
  = List.filter is_opaque (map g2 (range n)).
Proof.
  intros H. f_equal. apply map_ext_in. intros x Hx.
  apply in_range in Hx. now apply H.
Qed.

(** The safe zone adds no opaque pixel and keeps the others in order. *)
Lemma opaque_padded (t : Image) :
  well_sized t -> opaque (padded t) = opaque t.
Proof.
  intros [Hw Hh]. rewrite !opaque_rows. unfold padded, safe_pad.
  cbn [convert im_mode width height px].
  replace (height t + 100 * 2) with (100 + height t + 100) by lia.
  replace (width t + 100 * 2) with (100 + width t + 100) by lia.
  rewrite concat_window; try lia.
  - apply rows_ext. intros y Hy.
    rewrite filter_window; try lia.
    + apply row_ext. intros x Hx.
      replace (100 + x - 100) with x by lia.
      replace (100 + y - 100) with y by lia.
      replace (inside t x y) with true; [reflexivity |].
      symmetry. apply inside_iff. lia.
    + intros x Hx. replace (inside t (x - 100) (100 + y - 100)) with false;
        [reflexivity |].
      symmetry. apply not_true_is_false. rewrite inside_iff. lia.
    + intros x Hx. replace (inside t (x - 100) (100 + y - 100)) with false;
        [reflexivity |].
      symmetry. apply not_true_is_false. rewrite inside_iff. lia.
  - intros y Hy. apply filter_map_nil. intros x _.
    replace (inside t (x - 100) (y - 100)) with false; [reflexivity |].
    symmetry. apply not_true_is_false. rewrite inside_iff. lia.
  - intros y Hy. apply filter_map_nil. intros x _.
    replace (inside t (x - 100) (y - 100)) with false; [reflexivity |].
    symmetry. apply not_true_is_false. rewrite inside_iff. lia.
Qed.

(** Cropping an RGBA raster to a box that holds all its opaque pixels
    keeps them, in order. *)
Lemma opaque_crop (im : Image) (x0 y0 x1 y1 : Z) :
  im_mode im = RGBA ->
  0 <= x0 <= x1 -> x1 <= width im -> 0 <= y0 <= y1 -> y1 <= height im ->
  (forall x y, inside im x y = true -> is_opaque (px im x y) = true ->
     x0 <= x < x1 /\ y0 <= y < y1) ->
  opaque (crop im (x0, y0, x1, y1)) = opaque im.
Proof.
  intros Hm Hx Hx1 Hy Hy1 Hbox.
  assert (Hout : forall x y, inside im x y = true ->
                   ~ (x0 <= x < x1 /\ y0 <= y < y1) ->
                   is_opaque (px im x y) = false).
  { intros x y Hin Hno. destruct (is_opaque (px im x y)) eqn:E;
      [| reflexivity]. elim Hno. now apply Hbox. }
  rewrite !opaque_rows.
  assert (Hc : convert RGBA im = im) by (rewrite <- Hm; apply convert_same).
  assert (Hcc : convert RGBA (crop im (x0, y0, x1, y1))
                = crop im (x0, y0, x1, y1)).
  { rewrite <- Hm at 1.
    change (im_mode im) with (im_mode (crop im (x0, y0, x1, y1))).
    apply convert_same. }
  rewrite Hc, Hcc. cbn [crop width height px].
  rewrite !Z.max_r by lia.
  replace (height im) with (y0 + (y1 - y0) + (height im - y1)) at 1 by lia.
  replace (width im) with (x0 + (x1 - x0) + (width im - x1)) by lia.
  rewrite (concat_window
             (fun y => List.filter is_opaque
                         (map (fun x => px im x y)
                              (range (x0 + (x1 - x0) + (width im - x1))))));
    try lia.
  - apply rows_ext. intros y Hyr. symmetry.
    rewrite filter_window; try lia.
    + apply row_ext. intros x Hxr.
      replace (inside im (x0 + x) (y0 + y)) with true; [reflexivity |].
      symmetry. apply inside_iff. lia.
    + intros x Hxr. apply Hout; [apply inside_iff |]; lia.
    + intros x Hxr. apply Hout; [apply inside_iff |]; lia.
  - intros y Hyr. apply filter_map_nil. intros x Hxr.
    apply in_range in Hxr. apply Hout; [apply inside_iff |]; lia.
  - intros y Hyr. apply filter_map_nil. intros x Hxr.
    apply in_range in Hxr. apply Hout; [apply inside_iff |]; lia.
Qed.

(** Steps 1 and 2 hand on exactly the opaque pixels of the segmentation
    result, so the classifier sees the same subject before and after. *)
Lemma opaque_trim_and_pad (seg : Image) :
  im_mode seg = RGBA -> well_sized seg ->
  opaque (padded (trim seg)) = opaque seg.
Proof.
  intros Hm Hs. rewrite (opaque_padded _ (trim_well_sized _ Hs)).
  unfold trim. pose proof (getbbox_spec seg) as Hspec.
  destruct (getbbox seg) as [[[[x0 y0] x1] y1] |]; [| reflexivity].
  destruct Hspec as (Hx0 & Hx & Hx1 & Hy0 & Hy & Hy1 & Hall & _).
  apply opaque_crop; try lia; [exact Hm |].
  intros x y Hin Hop. apply Hall; [exact Hin |].
  unfold holds_data. rewrite Hm. unfold nonzero.
  unfold is_opaque in Hop. apply Z.ltb_lt in Hop.
  rewrite negb_true_iff, Z.eqb_neq. lia.
Qed.

Lemma is_product_white_subject (seg : Image) (threshold : Q) :
  im_mode seg = RGBA -> well_sized seg ->
  is_product_white (padded (trim seg)) threshold
  = is_product_white seg threshold.
Proof.
  intros Hm Hs. rewrite !is_product_white_unfold. unfold mean_brightness.
  rewrite (opaque_trim_and_pad seg Hm Hs). reflexivity.
Qed.

End Subject.

(* ================================================================= *)
(** ** The claims *)


(** Where the exact mean and the rounded one part: one opaque pixel
    (0, 0, 1), whose mean is a third, against the threshold [1.0 / 3.0].
    The code compares the rounded mean with the threshold, two equal
    floats, and answers false; the exact mean is greater. *)
Example rounded_mean_at_a_third :
  let im := Demo.dot (mkpx 0 0 1 255) in
  let third := SFdiv prec emax (of_int 1) (of_int 3) in
  mean_brightness64 (backend := Demo.backend) im = third
  /\ is_product_white_binary64 (backend := Demo.backend) im third = false
  /\ (value third < mean_brightness (backend := Demo.backend) im)%Q.
Proof. vm_compute. repeat split. Qed.

(** C5.  Brightening is monotone: when raster [b] has the alpha channel of
    raster [a] and no smaller R, G, B value at any pixel with alpha > 0,
    then [a] classified light implies [b] classified light, for the same
    threshold. *)
Theorem is_product_white_monotone
        {backend : Backend} (a b : Image) (threshold : Q) :
  width a = width b -> height a = height b ->
  (forall x y, inside a x y = true ->
     no_darker (px (convert RGBA a) x y) (px (convert RGBA b) x y)) ->
  is_product_white a threshold = true ->
  is_product_white b threshold = true.
Proof.
  intros Hw Hh Hpx.
  pose proof (pixels_of_related no_darker a b Hw Hh Hpx) as Hrel.
  apply brightness_no_darker in Hrel. cbv zeta in Hrel.
  fold (opaque a) (opaque b) in Hrel. destruct Hrel as [Hlen Hsum].
  rewrite !is_product_white_unfold. unfold mean_brightness.
  destruct (opaque a) as [| pa la] eqn:Ea; [discriminate |].
  destruct (opaque b) as [| pb lb] eqn:Eb; [discriminate |].
  rewrite !gt_iff. rewrite <- Hlen. intros Hlt.
  eapply Qlt_le_trans; [exact Hlt |].
  unfold Qdiv. apply Qmult_le_compat_r.
  - rewrite <- Zle_Qle. exact Hsum.
  - apply Qinv_le_0_compat. rewrite <- (Zle_Qle 0). lia.
Qed.

Lemma is_product_white_monotone_witness :
  is_product_white (backend := Demo.backend)
    (Demo.solid 2 2 Demo.near_white) 200 = true
  /\ is_product_white (backend := Demo.backend)
       (Demo.solid 2 2 (mkpx 255 255 255 255)) 200 = true.
Proof.
  assert (H : is_product_white (backend := Demo.backend)
                (Demo.solid 2 2 Demo.near_white) 200 = true)
    by (vm_compute; reflexivity).
  split; [exact H |].
  apply (is_product_white_monotone (backend := Demo.backend)
           (Demo.solid 2 2 Demo.near_white)
           (Demo.solid 2 2 (mkpx 255 255 255 255)) 200);
    [reflexivity | reflexivity | | exact H].
  intros x y _. unfold no_darker. simpl. lia.
Defined.

(** C6.  For an RGBA subject of size (w, h), any offset and any blur
    radius, [create_drop_shadow] returns a raster of width w + 2*(4*blur)
    and height h + 2*(4*blur), whatever the offset, together with the
    padding 4*blur. *)
Theorem drop_shadow_padding
        {backend : Backend} (image : Image) (offset : Z * Z)
        (background_color : pixel) (blur : Z) :
  im_mode image = RGBA -> well_sized image -> 0 <= blur ->
  exists shadow,
    create_drop_shadow image offset background_color blur
    = Ok (shadow, 4 * blur)
    /\ width shadow = width image + 2 * (4 * blur)
    /\ height shadow = height image + 2 * (4 * blur).
Proof.
  intros Hm Hs Hb.
  destruct (create_drop_shadow_ok image offset background_color blur Hm Hs Hb)
    as (shadow & Hr & _ & Hw & Hh).
  now exists shadow.
Qed.

Lemma drop_shadow_padding_witness :
  exists shadow,
    create_drop_shadow (backend := Demo.backend)
      (Demo.solid 3 2 Demo.near_black) (-12, 10) (mkpx 0 0 0 45) 35
    = Ok (shadow, 140)
    /\ width shadow = 283 /\ height shadow = 282.
Proof.
  apply (drop_shadow_padding (backend := Demo.backend)
           (Demo.solid 3 2 Demo.near_black) (-12, 10) (mkpx 0 0 0 45) 35).
  - reflexivity.
  - unfold well_sized. simpl. lia.
  - lia.
Defined.

(** C3.  On an RGBA raster with at least one pixel of non-zero alpha, the
    trim step ([getbbox] then [crop]) yields exactly the minimal bounding
    box of the pixels of non-zero alpha: the result is the part of the
    raster inside a box that lies within the raster, contains every pixel
    with alpha > 0, and has a pixel with alpha > 0 on each of its four
    edges. *)
Theorem trim_is_minimal_bounding_box (im : Image) :
  im_mode im = RGBA -> uint8_image im ->
  (exists x y, inside im x y = true /\ A (px im x y) <> 0) ->
  exists x0 y0 x1 y1,
    getbbox im = Some (x0, y0, x1, y1)
    /\ trim im = crop im (x0, y0, x1, y1)
    /\ width (trim im) = x1 - x0 /\ height (trim im) = y1 - y0
    /\ (forall i j, inside (trim im) i j = true ->
          px (trim im) i j = px im (x0 + i) (y0 + j))
    /\ 0 <= x0 /\ x1 <= width im /\ 0 <= y0 /\ y1 <= height im
    /\ (forall x y, inside im x y = true -> 0 < A (px im x y) ->
          x0 <= x < x1 /\ y0 <= y < y1)
    /\ (exists y, y0 <= y < y1 /\ 0 < A (px im x0 y))
    /\ (exists y, y0 <= y < y1 /\ 0 < A (px im (x1 - 1) y))
    /\ (exists x, x0 <= x < x1 /\ 0 < A (px im x y0))
    /\ (exists x, x0 <= x < x1 /\ 0 < A (px im x (y1 - 1))).
Proof.
  intros Hm Hu (xd & yd & Hind & Had).
  assert (Hdata : forall x y, inside im x y = true ->
                    (holds_data im x y = true <-> 0 < A (px im x y))).
  { intros x y Hin. unfold holds_data. rewrite Hm. unfold nonzero.
    rewrite negb_true_iff, Z.eqb_neq.
    destruct (Hu x y Hin) as (_ & _ & _ & Ha). unfold uint8 in Ha. lia. }
  pose proof (getbbox_spec im) as Hspec. unfold trim.
  destruct (getbbox im) as [[[[x0 y0] x1] y1] |].
  - destruct Hspec as (Hx0 & Hx & Hx1 & Hy0 & Hy & Hy1 & Hall
                       & Ex0 & Ex1 & Ey0 & Ey1).
    assert (Hbox : forall x y, inside im x y = true -> 0 < A (px im x y) ->
                     x0 <= x < x1 /\ y0 <= y < y1)
      by (intros x y Hin Ha; apply Hall; [exact Hin | now apply Hdata]).
    exists x0, y0, x1, y1. split; [reflexivity |]. split; [reflexivity |].
    cbn [crop width height px].
    split; [lia |]. split; [lia |]. split.
    { intros i j Hin. apply inside_iff in Hin. cbn [crop width height] in Hin.
      replace (inside im (x0 + i) (y0 + j)) with true; [reflexivity |].
      symmetry. apply inside_iff. lia. }
    split; [lia |]. split; [lia |]. split; [lia |]. split; [lia |].
    split; [exact Hbox |].
    split; [| split; [| split]].
    + destruct Ex0 as (y & Hin & Hnz). apply Hdata in Hnz; [| exact Hin].
      exists y. split; [| exact Hnz]. apply (Hbox _ _ Hin Hnz).
    + destruct Ex1 as (y & Hin & Hnz). apply Hdata in Hnz; [| exact Hin].
      exists y. split; [| exact Hnz]. apply (Hbox _ _ Hin Hnz).
    + destruct Ey0 as (x & Hin & Hnz). apply Hdata in Hnz; [| exact Hin].
      exists x. split; [| exact Hnz]. apply (Hbox _ _ Hin Hnz).
    + destruct Ey1 as (x & Hin & Hnz). apply Hdata in Hnz; [| exact Hin].
      exists x. split; [| exact Hnz]. apply (Hbox _ _ Hin Hnz).
  - exfalso. specialize (Hspec xd yd Hind).
    assert (Ht : holds_data im xd yd = true).
    { apply Hdata; [exact Hind |].
      destruct (Hu xd yd Hind) as (_ & _ & _ & Ha). unfold uint8 in Ha. lia. }
    congruence.
Qed.

Lemma trim_is_minimal_bounding_box_witness :
  exists x0 y0 x1 y1,
    getbbox (Demo.dot Demo.near_white) = Some (x0, y0, x1, y1)
    /\ trim (Demo.dot Demo.near_white)
       = crop (Demo.dot Demo.near_white) (x0, y0, x1, y1)
    /\ width (trim (Demo.dot Demo.near_white)) = x1 - x0
    /\ height (trim (Demo.dot Demo.near_white)) = y1 - y0.
Proof.
  destruct (trim_is_minimal_bounding_box (Demo.dot Demo.near_white))
    as (x0 & y0 & x1 & y1 & Hb & Ht & Hw & Hh & _).
  - reflexivity.
  - intros x y _. unfold Demo.dot, uint8. cbn [px].
    destruct ((x =? 2) && (y =? 1)); simpl; lia.
  - exists 2, 1. split; [reflexivity | simpl; lia].
  - exists x0, y0, x1, y1. auto.
Defined.

(** C1, as amended.  When the segmentation result has an empty bounding
    box, [process_product_photo] raises no error: it skips the crop and
    carries on with the untrimmed raster.  With no plate style selected it
    returns an RGB raster that is the segmentation result's size plus the
    safe zone, labelled with the explicitly chosen color, or with "White"
    when the color is detected (a raster without an opaque pixel is never
    classified light). *)
Theorem empty_bbox_is_not_an_error
        {backend : Backend} (input_image seg : Image)
        (manual_bg : option string) :
  remove_background input_image = Ok seg -> well_sized seg ->
  getbbox seg = None -> plate_key manual_bg = None ->
  exists img,
    process_product_photo input_image manual_bg
    = Ok (img, match manual_bg with
               | Some name => if mem name ["White"; "Black"] then name
                              else "White"
               | None => "White"
               end)
    /\ im_mode img = RGB
    /\ width img = width seg + 200 /\ height img = height seg + 200.
Proof.
  intros Hseg Hs Hb Hk.
  destruct (process_color_ok input_image seg manual_bg Hseg Hs Hk)
    as (img & Hi & Hm & Hw & Hh).
  pose proof (empty_bbox_not_white seg 200
                (remove_background_mode _ _ Hseg) Hb) as Hdark.
  exists img. unfold trim in Hw, Hh. rewrite Hb in Hw, Hh.
  split; [| auto]. rewrite Hi. do 2 f_equal.
  unfold resolve_bg_color. rewrite Hdark.
  destruct manual_bg as [name |]; [| reflexivity].
  destruct (mem name ["White"; "Black"]) eqn:E.
  - unfold mem in E. cbn [existsb] in E. rewrite orb_false_r in E.
    apply orb_true_iff in E.
    destruct E as [E | E]; apply String.eqb_eq in E; subst name; reflexivity.
  - rewrite andb_false_r. reflexivity.
Qed.

Lemma empty_bbox_is_not_an_error_witness :
  exists img,
    process_product_photo (backend := Demo.backend) Demo.blank None
    = Ok (img, "White")
    /\ im_mode img = RGB /\ width img = 202 /\ height img = 202.
Proof.
  apply (empty_bbox_is_not_an_error (backend := Demo.backend)
           Demo.blank Demo.blank None).
  - reflexivity.
  - unfold well_sized. simpl. lia.
  - reflexivity.
  - reflexivity.
Defined.

(** C1, as stated, fails: the fully transparent photo has a segmentation
    result with an empty bounding box, and the pipeline returns a raster
    and the label "White" for it.  A plate style returns as well on a
    fully transparent photo. *)
Lemma no_subject_returns_normally :
  remove_background (backend := Demo.backend) Demo.blank = Ok Demo.blank
  /\ getbbox Demo.blank = None
  /\ (exists img,
        process_product_photo (backend := Demo.backend) Demo.blank None
        = Ok (img, "White"))
  /\ getbbox (Demo.solid 1 256 transparent) = None
  /\ returns (process_product_photo (backend := Demo.backend)
                (Demo.solid 1 256 transparent) (Some "Marble Floor")) = true.
Proof.
  split; [reflexivity |]. split; [reflexivity |].
  split; [| split; vm_compute; reflexivity].
  destruct (process_color_ok (backend := Demo.backend)
              Demo.blank Demo.blank None eq_refl)
    as (img & Hi & _); [unfold well_sized; simpl; lia | reflexivity |].
  assert (E : resolve_bg_color (backend := Demo.backend)
                (padded (backend := Demo.backend) (trim Demo.blank)) None
              = "white") by (vm_compute; reflexivity).
  rewrite E in Hi. exists img. exact Hi.
Qed.

(** C2.  When the background choice is absent ([None], or a name that is
    neither a plate style nor a color name), [process_product_photo]
    returns, and its second output is "Black" when [is_product_white]
    classifies the subject after background removal as light, and "White"
    otherwise.  The classifier is run on the trimmed and padded subject,
    which has exactly the opaque pixels of the segmentation result, so it
    is the classification of that result: "Black" exactly when the subject
    has an opaque pixel and the mean of its opaque pixels exceeds 200. *)
Theorem auto_background_resolution
        {backend : Backend} (input_image seg : Image)
        (manual_bg : option string) :
  remove_background input_image = Ok seg -> well_sized seg ->
  absent manual_bg ->
  exists img label,
    process_product_photo input_image manual_bg = Ok (img, label)
    /\ label = (if is_product_white (padded (trim seg)) 200
                then "Black" else "White")
    /\ is_product_white (padded (trim seg)) 200 = is_product_white seg 200
    /\ (label = "Black" <->
        opaque seg <> [] /\ (200 < mean_brightness seg)%Q)
    /\ (label = "White" <->
        ~ (opaque seg <> [] /\ (200 < mean_brightness seg)%Q)).
Proof.
  intros Hseg Hs Ha.
  destruct (process_color_ok input_image seg manual_bg Hseg Hs
              (absent_no_plate _ Ha)) as (img & Hi & _).
  pose proof (is_product_white_subject seg 200
                (remove_background_mode _ _ Hseg) Hs) as Hsame.
  rewrite (resolve_absent _ _ Ha) in Hi.
  assert (Hw : is_product_white seg 200 = true <->
               opaque seg <> [] /\ (200 < mean_brightness seg)%Q).
  { rewrite is_product_white_unfold.
    destruct (opaque seg) as [| p l] eqn:E.
    - split; [discriminate | intros [Hne _]; now elim Hne].
    - rewrite gt_iff. split; [intros Hlt; split; [discriminate | exact Hlt] |].
      now intros [_ Hlt]. }
  exists img, (if is_product_white (padded (trim seg)) 200
               then "Black" else "White").
  split.
  { rewrite Hi. destruct (is_product_white (padded (trim seg)) 200);
      reflexivity. }
  split; [reflexivity |]. split; [exact Hsame |]. rewrite Hsame.
  destruct (is_product_white seg 200).
  - assert (Hc : opaque seg <> [] /\ (200 < mean_brightness seg)%Q)
      by now apply Hw.
    split; [tauto |]. split; [discriminate | tauto].
  - assert (Hn : ~ (opaque seg <> [] /\ (200 < mean_brightness seg)%Q))
      by (intros H; apply Hw in H; discriminate).
    split; [split; [discriminate | tauto] | tauto].
Qed.

Lemma auto_background_resolution_witness :
  (exists img,
     process_product_photo (backend := Demo.backend)
       (Demo.dot Demo.near_white) None = Ok (img, "Black"))
  /\ (exists img,
        process_product_photo (backend := Demo.backend)
          (Demo.dot Demo.near_black) (Some "auto") = Ok (img, "White")).
Proof.
  split.
  - destruct (auto_background_resolution (backend := Demo.backend)
                (Demo.dot Demo.near_white) (Demo.dot Demo.near_white) None
                eq_refl) as (img & label & Hi & Hl & _);
      [unfold well_sized; simpl; lia | exact I |].
    assert (E : is_product_white (backend := Demo.backend)
                  (padded (backend := Demo.backend)
                     (trim (Demo.dot Demo.near_white))) 200 = true)
      by (vm_compute; reflexivity).
    rewrite E in Hl. subst label. exists img. exact Hi.
  - destruct (auto_background_resolution (backend := Demo.backend)
                (Demo.dot Demo.near_black) (Demo.dot Demo.near_black)
                (Some "auto") eq_refl) as (img & label & Hi & Hl & _);
      [unfold well_sized; simpl; lia | split; reflexivity |].
    assert (E : is_product_white (backend := Demo.backend)
                  (padded (backend := Demo.backend)
                     (trim (Demo.dot Demo.near_black))) 200 = false)
      by (vm_compute; reflexivity).
    rewrite E in Hl. subst label. exists img. exact Hi.
Defined.

(** C9.  The interface passes the lowercase strings "white" and "black"
    for its White and Black options.  The explicit-color test compares
    with "White" and "Black", so for these two inputs the pipeline does
    exactly what it does with no choice at all: the color is detected from
    brightness.  A user who selects White can thus receive a black
    background, and one who selects Black a white one. *)
Theorem lowercase_color_choice_is_ignored :
  get App.bg_map "White" = Some (Some "white")
  /\ get App.bg_map "Black" = Some (Some "black")
  /\ (forall (backend : Backend) (input_image : Image),
        process_product_photo input_image (Some "white")
        = process_product_photo input_image None
        /\ process_product_photo input_image (Some "black")
           = process_product_photo input_image None
        /\ App.process input_image "White"
           = App.process input_image "Auto-detect"
        /\ App.process input_image "Black"
           = App.process input_image "Auto-detect")
  /\ (exists img,
        App.process (backend := Demo.backend) (Demo.dot Demo.near_white)
          "White" = Ok (img, "Black"))
  /\ (exists img,
        App.process (backend := Demo.backend) (Demo.dot Demo.near_black)
          "Black" = Ok (img, "White")).
Proof.
  split; [reflexivity |]. split; [reflexivity |].
  assert (Hsame : forall (backend : Backend) (input_image : Image),
            process_product_photo input_image (Some "white")
            = process_product_photo input_image None
            /\ process_product_photo input_image (Some "black")
               = process_product_photo input_image None).
  { intros backend input_image. unfold process_product_photo.
    destruct (trim_and_pad input_image) as [[[no_bg orig_w] orig_h] | e];
      cbn [bind]; split; reflexivity. }
  split; [| split].
  - intros backend input_image. destruct (Hsame backend input_image) as [Hw Hb].
    repeat split; assumption.
  - change (App.process (backend := Demo.backend) (Demo.dot Demo.near_white)
              "White")
      with (process_product_photo (backend := Demo.backend)
              (Demo.dot Demo.near_white) (Some "white")).
    rewrite (proj1 (Hsame Demo.backend _)).
    destruct (process_color_ok (backend := Demo.backend)
                (Demo.dot Demo.near_white) (Demo.dot Demo.near_white) None
                eq_refl) as (img & Hi & _);
      [unfold well_sized; simpl; lia | reflexivity |].
    assert (E : resolve_bg_color (backend := Demo.backend)
                  (padded (backend := Demo.backend)
                     (trim (Demo.dot Demo.near_white))) None = "black")
      by (vm_compute; reflexivity).
    rewrite E in Hi. exists img. exact Hi.
  - change (App.process (backend := Demo.backend) (Demo.dot Demo.near_black)
              "Black")
      with (process_product_photo (backend := Demo.backend)
              (Demo.dot Demo.near_black) (Some "black")).
    rewrite (proj2 (Hsame Demo.backend _)).
    destruct (process_color_ok (backend := Demo.backend)
                (Demo.dot Demo.near_black) (Demo.dot Demo.near_black) None
                eq_refl) as (img & Hi & _);
      [unfold well_sized; simpl; lia | reflexivity |].
    assert (E : resolve_bg_color (backend := Demo.backend)
                  (padded (backend := Demo.backend)
                     (trim (Demo.dot Demo.near_black))) None = "white")
      by (vm_compute; reflexivity).
    rewrite E in Hi. exists img. exact Hi.
Qed.

(** C10.  Every style name of the plate catalog contains one of "Floor",
    "Marble", "Studio", "Slate", "Parquet", so [is_floor] holds whenever
    the plate branch is entered, and the rendering step is always the floor
    one: the branch with the single soft shadow and the re-centred vertical
    position is never taken. *)
Theorem every_plate_style_is_floor
        (manual_bg : option string) (name bg_key : string) :
  plate_key manual_bg = Some (name, bg_key) ->
  In name (keys image_bg_map)
  /\ is_floor name = true
  /\ forall (backend : Backend) (final_render processed_product : Image)
            (is_light_prod : bool) (pos_x pos_y bg_h p_h : Z),
       render_layers final_render processed_product name is_light_prod
         pos_x pos_y bg_h p_h
       = (layers <- floor_layers final_render processed_product name
                      is_light_prod pos_x pos_y p_h ;;
          Ok (layers, pos_y)).
Proof.
  unfold plate_key. destruct manual_bg as [n |]; [| discriminate].
  destruct (get image_bg_map n) as [k |] eqn:E; [| discriminate].
  intros [= <- <-]. split; [exact (get_in_keys _ _ _ E) |].
  pose proof (catalog_floor _ _ E) as Hf. split; [exact Hf |].
  intros. unfold render_layers. rewrite Hf. reflexivity.
Qed.

Lemma every_plate_style_is_floor_witness :
  In "Marble Floor" (keys image_bg_map) /\ is_floor "Marble Floor" = true.
Proof.
  destruct (every_plate_style_is_floor (Some "Marble Floor") "Marble Floor"
              "marble_floor" eq_refl) as (Hin & Hf & _).
  split; [exact Hin | exact Hf].
Defined.

(** With a plate style selected, the entry point runs the plate branch on
    the trimmed and padded subject, with the trimmed height as [orig_h]. *)
Lemma process_plate {backend : Backend} (input_image seg : Image)
      (name bg_key : string) :
  remove_background input_image = Ok seg -> well_sized seg ->
  get image_bg_map name = Some bg_key ->
  process_product_photo input_image (Some name)
  = (fr <- plate_branch (padded (trim seg)) (height (trim seg)) name bg_key ;;
     Ok (convert RGB (final_render fr), name)).
Proof.
  intros Hseg Hs Hk. unfold process_product_photo.
  rewrite (trim_and_pad_ok _ _ Hseg Hs). cbn [bind].
  unfold plate_key. rewrite Hk. reflexivity.
Qed.

(** What step 4 computes on a floor style. *)
Lemma perspective_scaling_floor {backend : Backend} (no_bg scaled : Image)
      (orig_h bg_h : Z) (name : string) (sc : option float) :
  is_floor name = true ->
  perspective_scaling no_bg orig_h bg_h name = Ok (scaled, sc) ->
  exists target_h s,
    int (fmul (of_int bg_h) (scale_factor name)) = Ok target_h
    /\ fdiv (of_int target_h) (of_int orig_h) = Ok s
    /\ sc = Some s
    /\ int (fmul (of_int (width no_bg)) s) = Ok (width scaled)
    /\ int (fmul (of_int (height no_bg)) s) = Ok (height scaled).
Proof.
  intros Hf. unfold perspective_scaling. rewrite Hf. unfold size.
  cbn [fst snd]. intros H.
  inv_bind H. rename v into target_h, E into Et.
  inv_bind H. rename v into s, E into Es.
  inv_bind H. rename v into new_w, E into Ew.
  inv_bind H. rename v into new_h, E into Eh.
  inv_bind H. injection H as <- <-.
  apply resize_shape in E. destruct E as [-> ->].
  exists target_h, s. auto.
Qed.

(** C7, as amended.  For every plate style (all are floor styles) the
    subject is rescaled by [scale = target_h / orig_h], where [target_h] is
    the whole number of pixels [int(bg_h * scale_factor)], [scale_factor] is
    0.65 when the flat-lay flag holds, 0.45 when the spotlight flag holds
    and flat-lay does not, 0.5 otherwise, and [orig_h] is the height of the
    trimmed subject before padding.  Both sides of the padded subject are
    multiplied by this one [scale] and truncated to pixels. *)
Theorem perspective_scale
        {backend : Backend} (input_image seg : Image)
        (name bg_key : string) (fr : frame) :
  remove_background input_image = Ok seg -> well_sized seg ->
  get image_bg_map name = Some bg_key ->
  plate_branch (padded (trim seg)) (height (trim seg)) name bg_key = Ok fr ->
  process_product_photo input_image (Some name)
  = Ok (convert RGB (final_render fr), name)
  /\ bg_h fr = height (trim seg) + 200
  /\ scale_factor name
     = (if is_flat_lay name then lit 65 2
        else if is_spotlight name then lit 45 2 else lit 5 1)
  /\ exists target_h sc,
       int (fmul (of_int (bg_h fr)) (scale_factor name)) = Ok target_h
       /\ fdiv (of_int target_h) (of_int (height (trim seg))) = Ok sc
       /\ scale fr = Some sc
       /\ int (fmul (of_int (width (trim seg) + 200)) sc) = Ok (p_w fr)
       /\ int (fmul (of_int (height (trim seg) + 200)) sc) = Ok (p_h fr)
       /\ width (processed_product fr) = p_w fr
       /\ height (processed_product fr) = p_h fr.
Proof.
  intros Hseg Hs Hk Hfr.
  split; [rewrite (process_plate _ _ _ _ Hseg Hs Hk), Hfr; reflexivity |].
  destruct (plate_branch_frame _ _ _ _ _ Hfr)
    as (Hbw & Hbh & (scaled & Hscale & Hsw & Hsh) & _ & Hpw & Hph & _).
  cbn [padded width height] in Hbw, Hbh. unfold safe_pad in *.
  split; [lia |]. split; [reflexivity |].
  destruct (perspective_scaling_floor _ _ _ _ _ _ (catalog_floor _ _ Hk) Hscale)
    as (target_h & s & Ht & Hq & Hsc & Hw & Hh).
  cbn [padded width height] in Hw, Hh. unfold safe_pad in *.
  exists target_h, s. rewrite <- Hsw, <- Hsh in *.
  replace (width (trim seg) + 200) with (width (trim seg) + 100 * 2) by lia.
  replace (height (trim seg) + 200) with (height (trim seg) + 100 * 2) by lia.
  repeat split; assumption.
Qed.

Lemma perspective_scale_witness :
  exists fr target_h sc,
    plate_branch (backend := Demo.backend)
      (padded (backend := Demo.backend) (trim Demo.column))
      (height (trim Demo.column)) "Marble Floor" "marble_floor" = Ok fr
    /\ int (fmul (of_int (bg_h fr)) (scale_factor "Marble Floor"))
       = Ok target_h
    /\ fdiv (of_int target_h) (of_int (height (trim Demo.column))) = Ok sc
    /\ scale fr = Some sc.
Proof.
  destruct (summary_ok _ _ column_marble_summary) as (fr & Hfr & _).
  destruct (perspective_scale (backend := Demo.backend)
              Demo.column Demo.column "Marble Floor" "marble_floor" fr
              eq_refl) as (_ & _ & _ & target_h & sc & Ht & Hq & Hsc & _).
  - unfold well_sized. simpl. lia.
  - reflexivity.
  - exact Hfr.
  - exists fr, target_h, sc.
    split; [exact Hfr |]. split; [exact Ht |]. split; [exact Hq | exact Hsc].
Defined.

(** C7, as stated, fails: for the 1 x 256 column on the flat-lay studio
    style the background is 456 high and the scale factor 0.65, the
    pipeline's scale is exactly 296/256 = 37/32, and that is not
    456 * 0.65 / 256. *)
Lemma scale_is_not_the_plain_quotient :
  exists fr sc,
    plate_branch (backend := Demo.backend)
      (padded (backend := Demo.backend) (trim Demo.column))
      (height (trim Demo.column))
      "Dark Studio (Flat Lay)" "dark_studio_floor" = Ok fr
    /\ height (trim Demo.column) = 256
    /\ bg_h fr = 456
    /\ scale_factor "Dark Studio (Flat Lay)" = lit 65 2
    /\ scale fr = Some sc
    /\ (value sc == 37 # 32)%Q
    /\ ~ (value sc == inject_Z 456 * (65 # 100) / inject_Z 256)%Q.
Proof.
  destruct (summary_ok _ _ column_flat_lay_summary) as (fr & Hfr & Hn).
  injection Hn as Hbw Hbh Hsc Hpw Hph Hx Hy.
  exists fr, (S754_finite false 5207287069147136 (-52)).
  split; [exact Hfr |]. split; [vm_compute; reflexivity |].
  split; [now symmetry |]. split; [reflexivity |]. split; [now symmetry |].
  split; [vm_compute; reflexivity |].
  intros H. vm_compute in H. discriminate H.
Qed.

(* ================================================================= *)
(** ** Further properties: the shadow layers *)

Section ShadowLayers.
Context {backend : Backend}.

(** The drop shadow with the color's alpha component changed. *)
Lemma create_drop_shadow_alpha (image : Image) (offset : Z * Z)
      (r g b a1 a2 blur : Z) :
  create_drop_shadow image offset (mkpx r g b a1) blur
  = create_drop_shadow image offset (mkpx r g b a2) blur.
Proof.
  unfold create_drop_shadow.
  destruct (negb (has_alpha (im_mode image))); [reflexivity |].
  unfold size.
  destruct (new RGBA (width image + blur * 4 * 2, height image + blur * 4 * 2)
              transparent) as [container | e]; cbn [bind]; [| reflexivity].
  destruct (new L (width image + blur * 4 * 2, height image + blur * 4 * 2)
              (grey 0)) as [mask0 | e]; cbn [bind]; [| reflexivity].
  destruct (paste mask0 (last_band image)
              (blur * 4 + fst offset, blur * 4 + snd offset) None)
    as [mask1 | e]; cbn [bind]; [| reflexivity].
  unfold new, putalpha, same_size, filter. cbn [width height].
  destruct ((width mask1 <? 0) || (height mask1 <? 0)); cbn [bind];
    [reflexivity |].
  cbn [width height]. rewrite !Z.eqb_refl. reflexivity.
Qed.

(** X1.  The alpha component of the color given to [create_drop_shadow]
    is never used: [putalpha] replaces the alpha of the colored canvas by
    the blurred mask.  Two colors with the same R, G, B give the same
    result, and the shadow of an RGBA image has the given R, G, B at every
    pixel. *)
Theorem drop_shadow_color_alpha_is_unused
        (image : Image) (offset : Z * Z) (r g b a1 a2 blur : Z) :
  create_drop_shadow image offset (mkpx r g b a1) blur
  = create_drop_shadow image offset (mkpx r g b a2) blur
  /\ (forall shadow pad,
        im_mode image = RGBA ->
        create_drop_shadow image offset (mkpx r g b a1) blur
        = Ok (shadow, pad) ->
        forall x y, rgb_of (px shadow x y) = (r, g, b)).
Proof.
  split; [apply create_drop_shadow_alpha |].
  intros shadow pad Hm. unfold create_drop_shadow. rewrite Hm.
  cbn [has_alpha negb]. unfold size. intros H.
  do 4 inv_bind H. unfold new in E2.
  destruct (_ || _) in E2; [discriminate |].
  injection E2 as <-. inv_bind H. injection H as <- _.
  unfold putalpha in E2.
  destruct (same_size _ _) in E2; [| discriminate].
  injection E2 as <-. reflexivity.
Qed.

(** X2.  The opacities adapted to a light product have no effect on the
    flat-lay and slate shadows: they are alpha components of drop-shadow
    colors.  For a style with the flat-lay or the slate flag, and without a
    light bounce (marble, or neither daylight nor parquet), the rendered
    floor layers are the same whether the product counts as light or not. *)
Theorem floor_shadows_ignore_product_tone
        (final_render processed_product : Image) (name : string)
        (pos_x pos_y p_h : Z) :
  is_flat_lay name = true \/ is_slate name = true ->
  is_marble name = true \/ daylight_or_parquet name = false ->
  floor_layers final_render processed_product name true pos_x pos_y p_h
  = floor_layers final_render processed_product name false pos_x pos_y p_h.
Proof.
  intros Hstage Hbounce. unfold floor_layers.
  assert (H8a :
    (if is_marble name then
       reflection <- create_reflection processed_product (lit 8 2) 4 ;;
       paste final_render reflection (pos_x, pos_y + p_h - 2)
         (Some reflection)
     else if true && daylight_or_parquet name then
       '(bounce, pad_b) <-
         create_drop_shadow processed_product (0, 0)
           (mkpx 255 255 255 20) 50 ;;
       paste final_render bounce (pos_x - pad_b, pos_y - pad_b)
         (Some bounce)
     else Ok final_render)
    = (if is_marble name then
         reflection <- create_reflection processed_product (lit 8 2) 4 ;;
         paste final_render reflection (pos_x, pos_y + p_h - 2)
           (Some reflection)
       else if false && daylight_or_parquet name then
         '(bounce, pad_b) <-
           create_drop_shadow processed_product (0, 0)
             (mkpx 255 255 255 20) 50 ;;
         paste final_render bounce (pos_x - pad_b, pos_y - pad_b)
           (Some bounce)
       else Ok final_render)).
  { destruct (is_marble name); [reflexivity |].
    destruct Hbounce as [Hb | Hb]; [discriminate | rewrite Hb; reflexivity]. }
  rewrite H8a. same_step.
  assert (H15a : int (fmul (of_int 45) (lit 15 1)) = Ok 67) by reflexivity.
  assert (H15b : int (fmul (of_int 80) (lit 15 1)) = Ok 120) by reflexivity.
  destruct (is_flat_lay name).
  - destruct (daylight_or_parquet name).
    + rewrite H15a. cbn [bind].
      rewrite (create_drop_shadow_alpha _ _ 0 0 0 67 45 35).
      repeat same_step.
      rewrite (create_drop_shadow_alpha _ _ 0 0 0 220 160 4). reflexivity.
    + rewrite H15b. cbn [bind].
      rewrite (create_drop_shadow_alpha _ _ 0 0 0 120 80 35).
      repeat same_step.
      rewrite (create_drop_shadow_alpha _ _ 0 0 0 220 160 4). reflexivity.
  - destruct Hstage as [Hf | Hs]; [discriminate |]. rewrite Hs.
    rewrite (create_drop_shadow_alpha _ _ 0 0 0 90 60 40).
    repeat same_step.
    rewrite (create_drop_shadow_alpha _ _ 0 0 0 200 180 4). reflexivity.
Qed.

End ShadowLayers.

Lemma floor_shadows_ignore_product_tone_witness :
  floor_layers (backend := Demo.backend) (Demo.solid 4 4 Demo.near_white)
    (Demo.dot Demo.near_black) "Industrial Slate Floor" true 0 0 4
  = floor_layers (backend := Demo.backend) (Demo.solid 4 4 Demo.near_white)
      (Demo.dot Demo.near_black) "Industrial Slate Floor" false 0 0 4.
Proof.
  apply (floor_shadows_ignore_product_tone (backend := Demo.backend)).
  - right. reflexivity.
  - right. reflexivity.
Defined.

(* ================================================================= *)
(** ** Further properties: the edge clean-up *)

Section EdgeCleanup.
Context {backend : Backend}.

Lemma last_band_rgba (im : Image) :
  im_mode im = RGBA -> last_band im = band A im.
Proof. intros Hm. unfold last_band, split. rewrite Hm. reflexivity. Qed.

(** One round of the loop of [solidify_edges] leaves the colors alone
    where the subject is not fully transparent. *)
Lemma solidify_round (image acc r : Image) :
  exact_mask -> im_mode image = RGBA ->
  paste acc (filter (GaussianBlur (of_int 3)) acc) (0, 0)
    (Some (point (fun x => if x =? 0 then 255 else 0) (last_band image)))
  = Ok r ->
  forall x y, A (px image x y) <> 0 -> rgb_of (px r x y) = rgb_of (px acc x y).
Proof.
  intros Hex Hm Hp x y Ha. unfold paste in Hp.
  destruct (same_size _ _) in Hp; [| discriminate].
  injection Hp as <-. cbn [px].
  destruct (inside _ _ _); [| reflexivity].
  rewrite (last_band_rgba _ Hm). unfold mask_value, point, band, blend_channels.
  cbn [im_mode has_alpha px grey R]. rewrite !Z.sub_0_r.
  destruct (Z.eqb_spec (A (px image x y)) 0) as [E | _]; [contradiction |].
  unfold rgb_of. cbn [R G B].
  rewrite !(proj1 (Hex _ _)). reflexivity.
Qed.

Lemma solidify_loop (image : Image) (l : list nat) (acc : Image) :
  exact_mask -> im_mode image = RGBA ->
  im_mode acc = RGB -> width acc = width image -> height acc = height image ->
  exists r,
    fold_left
      (fun (acc : result Image) (_ : nat) =>
         rgb <- acc ;;
         paste rgb (filter (GaussianBlur (of_int 3)) rgb) (0, 0)
           (Some (point (fun x => if x =? 0 then 255 else 0)
                    (last_band image))))
      l (Ok acc) = Ok r
    /\ im_mode r = RGB /\ width r = width image /\ height r = height image
    /\ forall x y, A (px image x y) <> 0 ->
         rgb_of (px r x y) = rgb_of (px acc x y).
Proof.
  intros Hex Hm. revert acc.
  destruct (last_band_shape image) as (Haw & Hah).
  induction l as [| k l IH]; intros acc Hma Hwa Hha.
  - exists acc. simpl. auto.
  - cbn [fold_left].
    destruct (paste_mask_ok acc (filter (GaussianBlur (of_int 3)) acc)
                (point (fun x => if x =? 0 then 255 else 0) (last_band image))
                (0, 0)) as (r & Hr & Hmr & Hwr & Hhr).
    + simpl. lia.
    + simpl. lia.
    + cbn [bind]. rewrite Hr.
      destruct (IH r) as (r' & Hr' & Hm' & Hw' & Hh' & Hc'); try congruence.
      exists r'. repeat split; try assumption.
      intros x y Ha. rewrite (Hc' x y Ha).
      exact (solidify_round image acc r Hex Hm Hr x y Ha).
Qed.

Lemma solidify_edges_subject (image : Image) (iterations : nat) :
  exact_mask -> im_mode image = RGBA ->
  exists r,
    solidify_edges image iterations = Ok r
    /\ im_mode r = RGBA
    /\ width r = width image /\ height r = height image
    /\ (forall x y, A (px r x y) = A (px image x y))
    /\ (forall x y, A (px image x y) <> 0 ->
          rgb_of (px r x y) = rgb_of (px image x y)).
Proof.
  intros Hex Hm. unfold solidify_edges. rewrite Hm.
  cbn [has_alpha negb]. cbv iota zeta.
  destruct (convert_shape RGB image) as (Hcm & Hcw & Hch).
  destruct (solidify_loop image (seq 0 iterations) (convert RGB image)
              Hex Hm Hcm Hcw Hch) as (r & Hr & Hmr & Hwr & Hhr & Hc).
  rewrite Hr. cbn [bind]. unfold split, merge. rewrite Hmr. cbn [app].
  destruct (last_band_shape image) as (Haw & Hah).
  rewrite !same_size_true; simpl; try lia.
  eexists. split; [reflexivity |]. cbn [im_mode width height px].
  repeat split; try assumption.
  - intros x y. rewrite (last_band_rgba _ Hm). reflexivity.
  - intros x y Ha. specialize (Hc x y Ha). unfold rgb_of in *.
    cbn [R G B]. rewrite Hc. unfold convert. rewrite Hm. reflexivity.
Qed.

End EdgeCleanup.

(** X3.  [solidify_edges] never fails on an RGBA image and changes only the
    colors of fully transparent pixels: the result has the size and the
    alpha channel of the input, and wherever the input's alpha is not 0 the
    R, G, B values are the input's (Pillow pastes nothing where the mask is
    0). *)
Theorem solidify_edges_keeps_the_subject
        {backend : Backend} (image : Image) (iterations : nat) :
  exact_mask -> im_mode image = RGBA ->
  exists r,
    solidify_edges image iterations = Ok r
    /\ im_mode r = RGBA
    /\ width r = width image /\ height r = height image
    /\ (forall x y, A (px r x y) = A (px image x y))
    /\ (forall x y, A (px image x y) <> 0 ->
          rgb_of (px r x y) = rgb_of (px image x y)).
Proof. intros Hex Hm. exact (solidify_edges_subject image iterations Hex Hm). Qed.

Lemma demo_exact_mask : exact_mask (backend := Demo.backend).
Proof. intros d s. split; reflexivity. Qed.

Lemma solidify_edges_keeps_the_subject_witness :
  exists r,
    solidify_edges (backend := Demo.backend) (Demo.dot Demo.near_black) 2
    = Ok r
    /\ im_mode r = RGBA
    /\ width r = 5 /\ height r = 4
    /\ (forall x y, A (px r x y) = A (px (Demo.dot Demo.near_black) x y))
    /\ (forall x y, A (px (Demo.dot Demo.near_black) x y) <> 0 ->
          rgb_of (px r x y) = rgb_of (px (Demo.dot Demo.near_black) x y)).
Proof.
  apply (solidify_edges_keeps_the_subject (backend := Demo.backend)
           (Demo.dot Demo.near_black) 2).
  - exact demo_exact_mask.
  - reflexivity.
Defined.

Lemma feather_edges_subject {backend : Backend} (image : Image)
      (blur_radius : float) :
  exact_mask -> im_mode image = RGBA ->
  exists s r,
    solidify_edges image 2 = Ok s
    /\ feather_edges image blur_radius = Ok r
    /\ im_mode r = RGBA
    /\ width r = width image /\ height r = height image
    /\ (forall x y,
          A (px r x y)
          = R (px (filter (GaussianBlur blur_radius) (last_band s)) x y))
    /\ (forall x y, A (px image x y) <> 0 ->
          rgb_of (px r x y) = rgb_of (px image x y)).
Proof.
  intros Hex Hm. unfold feather_edges. rewrite Hm. cbn [has_alpha negb].
  cbv iota.
  destruct (solidify_edges_subject image 2 Hex Hm)
    as (s & Hs & Hms & Hws & Hhs & Has & Hcs).
  exists s. rewrite Hs. cbn [bind]. unfold copy, putalpha.
  destruct (last_band_shape s) as (Haw & Hah).
  rewrite same_size_true by (simpl; lia).
  eexists. split; [reflexivity |]. split; [reflexivity |].
  cbn [im_mode width height px]. repeat split; try assumption.
Qed.

(** X4.  [feather_edges] never fails on an RGBA image and touches only the
    opacity of the subject: the result has the input's size, its alpha is
    the Gaussian blur of the alpha band of the solidified image, and
    wherever the input's alpha is not 0 the R, G, B values are the
    input's. *)
Theorem feather_edges_changes_only_opacity
        {backend : Backend} (image : Image) (blur_radius : float) :
  exact_mask -> im_mode image = RGBA ->
  exists s r,
    solidify_edges image 2 = Ok s
    /\ feather_edges image blur_radius = Ok r
    /\ im_mode r = RGBA
    /\ width r = width image /\ height r = height image
    /\ (forall x y,
          A (px r x y)
          = R (px (filter (GaussianBlur blur_radius) (last_band s)) x y))
    /\ (forall x y, A (px image x y) <> 0 ->
          rgb_of (px r x y) = rgb_of (px image x y)).
Proof. intros Hex Hm. exact (feather_edges_subject image blur_radius Hex Hm). Qed.

Lemma feather_edges_changes_only_opacity_witness :
  exists s r,
    solidify_edges (backend := Demo.backend) (Demo.dot Demo.near_white) 2
    = Ok s
    /\ feather_edges (backend := Demo.backend) (Demo.dot Demo.near_white)
         (lit 7 1) = Ok r
    /\ im_mode r = RGBA
    /\ width r = 5 /\ height r = 4
    /\ (forall x y,
          A (px r x y)
          = R (px (filter (backend := Demo.backend) (GaussianBlur (lit 7 1))
                     (last_band s)) x y))
    /\ (forall x y, A (px (Demo.dot Demo.near_white) x y) <> 0 ->
          rgb_of (px r x y) = rgb_of (px (Demo.dot Demo.near_white) x y)).
Proof.
  apply (feather_edges_changes_only_opacity (backend := Demo.backend)
           (Demo.dot Demo.near_white) (lit 7 1)).
  - exact demo_exact_mask.
  - reflexivity.
Defined.

(* ================================================================= *)
(** ** Further properties: the film grain *)

(** An 8-bit value survives the way through floats when the noise added
    is a zero. *)
Lemma clip_of_byte (v : Z) (s : bool) :
  0 <= v <= 255 -> clip_uint8 (fadd (of_int v) (S754_zero s)) = v.
Proof.
  intros Hv.
  assert (Hall :
    all_from 256 0
      (fun v => (clip_uint8 (fadd (of_int v) (S754_zero true)) =? v)
                && (clip_uint8 (fadd (of_int v) (S754_zero false)) =? v))
    = true) by (vm_compute; reflexivity).
  assert (Hr : 0 <= v < 0 + Z.of_nat 256)
    by (change (Z.of_nat 256) with 256; lia).
  pose proof (all_from_spec _ _ _ v Hall Hr) as Hb.
  cbv beta in Hb. apply andb_true_iff in Hb. destruct Hb as [Ht Hf].
  apply Z.eqb_eq in Ht, Hf. destruct s; assumption.
Qed.

Lemma random_normal_inv {backend : Backend} (sigma : float)
      (noise : Z -> Z -> Z -> float) :
  random_normal sigma = Ok noise ->
  Np.signbit sigma = false /\ noise = normal sigma.
Proof.
  unfold random_normal. destruct (Np.signbit sigma); [discriminate |].
  intros Heq. split; [reflexivity | congruence].
Qed.

Lemma apply_film_grain_ok {backend : Backend} (image : Image)
      (intensity : float) :
  Np.signbit (fmul intensity (of_int 255)) = false ->
  exists r,
    apply_film_grain image intensity = Ok r
    /\ im_mode r = (if has_alpha (im_mode image) then RGBA else RGB)
    /\ width r = width image /\ height r = height image
    /\ (forall x y,
          A (px r x y)
          = if has_alpha (im_mode image) then A (px image x y) else 255)
    /\ (forall x y,
          let p := px image x y in
          let n := normal (fmul intensity (of_int 255)) y x in
          px r x y
          = mkpx (clip_uint8 (fadd (of_int (R (px (convert RGB image) x y))) (n 0)))
                 (clip_uint8 (fadd (of_int (G (px (convert RGB image) x y))) (n 1)))
                 (clip_uint8 (fadd (of_int (B (px (convert RGB image) x y))) (n 2)))
                 (A (px r x y))).
Proof.
  intros Hsigma. unfold apply_film_grain, random_normal. rewrite Hsigma.
  cbn [bind]. cbv zeta.
  destruct (convert_shape RGB image) as (Hcm & Hcw & Hch).
  destruct (has_alpha (im_mode image)) eqn:Ea.
  - destruct (last_band_shape image) as (Haw & Hah).
    change (convert RGBA ?im) with
      (mkImage RGBA (width im) (height im)
         (fun x y => let p := px im x y in mkpx (R p) (G p) (B p) 255)).
    cbn [im_mode width height px R G B]. unfold putalpha.
    rewrite same_size_true by (cbn [width height]; lia).
    eexists. split; [reflexivity |]. cbn [im_mode width height px A R G B].
    repeat split; try assumption.
    intros x y. destruct (im_mode image) eqn:Em; try discriminate.
    unfold last_band, split. rewrite Em. reflexivity.
  - eexists. split; [reflexivity |]. cbn [im_mode width height px A].
    repeat split; assumption.
Qed.

(** A negative noise scale is the one way the grain can fail. *)
Lemma apply_film_grain_refused {backend : Backend} (image : Image)
      (intensity : float) :
  Np.signbit (fmul intensity (of_int 255)) = true ->
  apply_film_grain image intensity = Raise ValueError.
Proof.
  intros Hsigma. unfold apply_film_grain, random_normal. rewrite Hsigma.
  reflexivity.
Qed.

Lemma apply_film_grain_inv {backend : Backend} (image r : Image)
      (intensity : float) :
  apply_film_grain image intensity = Ok r ->
  im_mode r = (if has_alpha (im_mode image) then RGBA else RGB)
  /\ width r = width image /\ height r = height image
  /\ (forall x y,
        let p := px image x y in
        let n := normal (fmul intensity (of_int 255)) y x in
        px r x y
        = mkpx (clip_uint8 (fadd (of_int (R (px (convert RGB image) x y))) (n 0)))
               (clip_uint8 (fadd (of_int (G (px (convert RGB image) x y))) (n 1)))
               (clip_uint8 (fadd (of_int (B (px (convert RGB image) x y))) (n 2)))
               (A (px r x y))).
Proof.
  intros H.
  destruct (Np.signbit (fmul intensity (of_int 255))) eqn:Hsigma.
  - rewrite (apply_film_grain_refused _ _ Hsigma) in H. discriminate.
  - destruct (apply_film_grain_ok image intensity Hsigma)
      as (r' & Hr' & Hm & Hw & Hh & _ & Hpx).
    rewrite Hr' in H. injection H as <-. auto.
Qed.

Lemma convert_rgb_px {backend : Backend} (im : Image) (x y : Z) :
  R (px (convert RGB im) x y) = R (px im x y)
  /\ G (px (convert RGB im) x y) = G (px im x y)
  /\ B (px (convert RGB im) x y) = B (px im x y).
Proof. unfold convert. destruct (im_mode im); auto. Qed.

(** X5.  [apply_film_grain] fails in one case only: a negative noise
    scale [intensity * 255], which [np.random.normal] refuses with a
    [ValueError].  For every other intensity it returns and keeps the
    size.  An RGBA image stays RGBA with its alpha channel untouched (the
    noise goes to the R, G, B channels only); an image of any other mode
    comes back as RGB. *)
Theorem film_grain_keeps_size_and_alpha
        {backend : Backend} (image : Image) (intensity : float) :
  if Np.signbit (fmul intensity (of_int 255))
  then apply_film_grain image intensity = Raise ValueError
  else exists r,
         apply_film_grain image intensity = Ok r
         /\ im_mode r = (if has_alpha (im_mode image) then RGBA else RGB)
         /\ width r = width image /\ height r = height image
         /\ (forall x y,
               A (px r x y)
               = if has_alpha (im_mode image) then A (px image x y)
                 else 255).
Proof.
  destruct (Np.signbit (fmul intensity (of_int 255))) eqn:Hsigma.
  - exact (apply_film_grain_refused image intensity Hsigma).
  - destruct (apply_film_grain_ok image intensity Hsigma)
      as (r & Hr & Hm & Hw & Hh & Ha & _).
    exists r. auto.
Qed.

(** X6.  Without noise the grain is the identity on 8-bit data: every
    channel goes to a float, has a zero added, is clipped to 0..255 and
    truncated, and comes back as it was. *)
Theorem film_grain_without_noise
        {backend : Backend} (image : Image) (intensity : float) :
  no_noise (fmul intensity (of_int 255)) -> uint8_image image ->
  exists r,
    apply_film_grain image intensity = Ok r
    /\ forall x y, inside image x y = true ->
         rgb_of (px r x y) = rgb_of (px image x y).
Proof.
  intros (noise & Hnoise & Hnn) Hu.
  destruct (random_normal_inv _ _ Hnoise) as (Hsigma & ->).
  destruct (apply_film_grain_ok image intensity Hsigma)
    as (r & Hr & _ & _ & _ & _ & Hpx).
  exists r. split; [exact Hr |]. intros x y Hin.
  rewrite (Hpx x y). cbv zeta.
  destruct (Hnn y x 0) as (s0 & ->). destruct (Hnn y x 1) as (s1 & ->).
  destruct (Hnn y x 2) as (s2 & ->).
  destruct (convert_rgb_px image x y) as (-> & -> & ->).
  destruct (Hu x y Hin) as (HR & HG & HB & _). unfold uint8 in *.
  unfold rgb_of. cbn [R G B]. rewrite !clip_of_byte by assumption.
  reflexivity.
Qed.

Lemma demo_dot_uint8 (p : pixel) :
  uint8 (R p) /\ uint8 (G p) /\ uint8 (B p) /\ uint8 (A p) ->
  uint8_image (Demo.dot p).
Proof.
  intros Hp x y _. unfold Demo.dot. cbn [px].
  destruct ((x =? 2) && (y =? 1)); [exact Hp |].
  unfold uint8. simpl. lia.
Qed.

Lemma film_grain_without_noise_witness :
  exists r,
    apply_film_grain (backend := Demo.backend) (Demo.dot Demo.near_black)
      (lit 12 3) = Ok r
    /\ forall x y, inside (Demo.dot Demo.near_black) x y = true ->
         rgb_of (px r x y) = rgb_of (px (Demo.dot Demo.near_black) x y).
Proof.
  apply (film_grain_without_noise (backend := Demo.backend)
           (Demo.dot Demo.near_black) (lit 12 3)).
  - eexists. split; [reflexivity |]. intros y x c. exists false.
    reflexivity.
  - apply demo_dot_uint8. unfold uint8. simpl. lia.
Defined.

(* ================================================================= *)
(** ** Further properties: the background plate *)

Lemma load_background_ok {backend : Backend} (bg_name : string) (w h : Z) :
  1 <= w -> 1 <= h ->
  exists bg,
    load_background bg_name (w, h) = Ok bg
    /\ im_mode bg = RGBA /\ width bg = w /\ height bg = h
    /\ (asset_file ("assets/backgrounds/" ++ bg_name ++ ".png")%string = None ->
        forall x y, px bg x y = mkpx 255 255 255 255).
Proof.
  intros Hw Hh. unfold load_background.
  destruct (asset_file _) as [f |].
  - destruct (convert_shape RGBA f) as (Hcm & _ & _). unfold resize, copy.
    destruct ((w =? width (convert RGBA f)) && (h =? height (convert RGBA f)))
      eqn:E.
    + apply andb_true_iff in E. destruct E as [Ew Eh].
      apply Z.eqb_eq in Ew, Eh. eexists. split; [reflexivity |].
      repeat split; (assumption || congruence || discriminate).
    + destruct (Z.ltb_spec w 1); [lia |]. destruct (Z.ltb_spec h 1); [lia |].
      cbn [orb]. eexists. split; [reflexivity |].
      cbn [im_mode width height]. repeat split; (assumption || discriminate).
  - change (getrgb "white") with (Ok (mkpx 255 255 255 255)).
    cbn [bind]. rewrite new_ok by lia.
    eexists. split; [reflexivity |]. cbn [im_mode width height px].
    repeat split.
Qed.

(** X7.  [load_background] gives an RGBA raster of exactly the requested
    size for every size of at least 1x1, whether the asset file exists
    (it is resized) or not; without the file the raster is opaque white. *)
Theorem load_background_gives_target_size
        {backend : Backend} (bg_name : string) (w h : Z) :
  1 <= w -> 1 <= h ->
  exists bg,
    load_background bg_name (w, h) = Ok bg
    /\ im_mode bg = RGBA /\ width bg = w /\ height bg = h
    /\ (asset_file ("assets/backgrounds/" ++ bg_name ++ ".png")%string = None ->
        forall x y, px bg x y = mkpx 255 255 255 255).
Proof. intros Hw Hh. exact (load_background_ok bg_name w h Hw Hh). Qed.

Lemma load_background_gives_target_size_witness :
  exists bg,
    load_background (backend := Demo.backend) "studio_floor" (3, 2) = Ok bg
    /\ im_mode bg = RGBA /\ width bg = 3 /\ height bg = 2
    /\ (asset_file (Backend := Demo.backend)
          ("assets/backgrounds/" ++ "studio_floor" ++ ".png")%string = None ->
        forall x y, px bg x y = mkpx 255 255 255 255).
Proof.
  apply (load_background_gives_target_size (backend := Demo.backend)
           "studio_floor" 3 2); lia.
Defined.

(* ================================================================= *)
(** ** Further properties: the rendered picture *)

(** Every paste of the run recorded in the context keeps the shape of
    its destination. *)
Ltac paste_shapes :=
  repeat match goal with
         | E : paste _ _ _ _ = Ok _ |- _ =>
             apply paste_shape in E; destruct E as (? & ? & ?)
         end.

(** Follow a run that returned through all its steps. *)
Ltac run_steps H :=
  repeat (inv_bind H;
          try match goal with
              | v : (_ * _)%type |- _ => destruct v
              end).

Section Render.
Context {backend : Backend}.

Lemma floor_layers_shape (final_render processed_product r : Image)
      (name : string) (is_light_prod : bool) (pos_x pos_y p_h : Z) :
  floor_layers final_render processed_product name is_light_prod
    pos_x pos_y p_h = Ok r ->
  im_mode r = im_mode final_render
  /\ width r = width final_render /\ height r = height final_render.
Proof.
  unfold floor_layers. intros H. inv_bind H. rename v into first, E into E1.
  assert (H1 : im_mode first = im_mode final_render
               /\ width first = width final_render
               /\ height first = height final_render).
  { destruct (is_marble name).
    - run_steps E1. now apply paste_shape in E1.
    - destruct (is_light_prod && daylight_or_parquet name).
      + run_steps E1. now apply paste_shape in E1.
      + injection E1 as <-. auto. }
  destruct H1 as (Hm1 & Hw1 & Hh1).
  destruct (is_flat_lay name); [| destruct (is_slate name)];
    run_steps H; paste_shapes; repeat split; congruence.
Qed.

Lemma render_layers_shape (final_render processed_product r : Image)
      (name : string) (is_light_prod : bool) (pos_x pos_y bg_h p_h y : Z) :
  render_layers final_render processed_product name is_light_prod
    pos_x pos_y bg_h p_h = Ok (r, y) ->
  im_mode r = im_mode final_render
  /\ width r = width final_render /\ height r = height final_render.
Proof.
  unfold render_layers, plain_layers. intros H.
  destruct (is_floor name).
  - inv_bind H. injection H as <- _. now apply floor_layers_shape in E.
  - run_steps H. injection H as <- _. now apply paste_shape in E0.
Qed.

(** The rendered plate has the size of the padded subject. *)
Lemma plate_branch_render (no_bg : Image) (orig_h : Z)
      (manual_bg bg_key : string) (fr : frame) :
  plate_branch no_bg orig_h manual_bg bg_key = Ok fr ->
  width (final_render fr) = width no_bg
  /\ height (final_render fr) = height no_bg.
Proof.
  unfold plate_branch. intros H.
  inv_bind H. rename v into bg_layer, E into Ebg.
  unfold size in H, Ebg. apply load_background_shape in Ebg.
  destruct Ebg as [Hbw Hbh].
  inv_bind H. destruct v as [scaled sc]. rename E into Escale.
  inv_bind H. rename v into shaved, E into Eshave.
  inv_bind H. rename v into feathered, E into Efeather.
  inv_bind H. destruct v as [x0 y0]. rename E into Epos.
  inv_bind H. rename v into thumb, E into Ethumb.
  inv_bind H. rename v into graded, E into Egrade.
  inv_bind H. rename v into shadowed, E into Eshadow.
  inv_bind H. rename v into wrapped, E into Ewrap.
  inv_bind H. destruct v as [layers y1]. rename E into Erender.
  inv_bind H. rename v into composed, E into Epaste.
  inv_bind H. rename v into grained, E into Egrain.
  injection H as <-. cbn [final_render].
  apply render_layers_shape in Erender. unfold copy in Erender.
  apply paste_shape in Epaste.
  apply apply_film_grain_inv in Egrain. lia.
Qed.

Lemma process_output_shape (input_image seg img : Image)
      (manual_bg : option string) (label : string) :
  remove_background input_image = Ok seg -> well_sized seg ->
  process_product_photo input_image manual_bg = Ok (img, label) ->
  im_mode img = RGB
  /\ width img = width (trim seg) + 200
  /\ height img = height (trim seg) + 200
  /\ (label = "White" \/ label = "Black"
      \/ manual_bg = Some label /\ In label (keys image_bg_map)).
Proof.
  intros Hseg Hs H.
  destruct (plate_key manual_bg) as [[name bg_key] |] eqn:Ek.
  - unfold process_product_photo in H.
    rewrite (trim_and_pad_ok _ _ Hseg Hs) in H. cbn [bind] in H.
    rewrite Ek in H. inv_bind H.
    assert (Hi : img = convert RGB (final_render v)) by congruence.
    assert (Hl : label = name) by congruence.
    clear H. subst img label.
    apply plate_branch_render in E.
    destruct (convert_shape RGB (final_render v)) as (Hm & Hw & Hh).
    unfold padded, safe_pad in E. cbn [width height] in E.
    split; [exact Hm |]. split; [lia |]. split; [lia |].
    right. right. unfold plate_key in Ek.
    destruct manual_bg as [n |]; [| discriminate].
    destruct (get image_bg_map n) as [k |] eqn:Eg; [| discriminate].
    injection Ek as <- <-. split; [reflexivity |].
    exact (get_in_keys _ _ _ Eg).
  - destruct (process_color_ok input_image seg manual_bg Hseg Hs Ek)
      as (img' & Hi & Hm & Hw & Hh).
    rewrite Hi in H. injection H as <- <-.
    split; [exact Hm |]. split; [exact Hw |]. split; [exact Hh |].
    destruct (resolve_bg_color_cases (padded (trim seg)) manual_bg)
      as [-> | ->]; auto.
Qed.

End Render.

(** X8.  Whatever the background choice, a picture the pipeline returns is
    an RGB raster of the trimmed subject's size plus the 100px safe zone on
    each side (the plate is resized to the subject, never the other way
    round), and its label is "White", "Black" or the chosen plate style. *)
Theorem output_is_rgb_of_padded_size
        {backend : Backend} (input_image seg img : Image)
        (manual_bg : option string) (label : string) :
  remove_background input_image = Ok seg -> well_sized seg ->
  process_product_photo input_image manual_bg = Ok (img, label) ->
  im_mode img = RGB
  /\ width img = width (trim seg) + 200
  /\ height img = height (trim seg) + 200
  /\ (label = "White" \/ label = "Black"
      \/ manual_bg = Some label /\ In label (keys image_bg_map)).
Proof.
  intros Hseg Hs H.
  exact (process_output_shape input_image seg img manual_bg label Hseg Hs H).
Qed.

Lemma demo_dot_well_sized (p : pixel) : well_sized (Demo.dot p).
Proof. unfold well_sized. simpl. lia. Qed.

Lemma output_is_rgb_of_padded_size_witness :
  exists img label,
    process_product_photo (backend := Demo.backend)
      (Demo.dot Demo.near_black) None = Ok (img, label)
    /\ im_mode img = RGB
    /\ width img = width (trim (Demo.dot Demo.near_black)) + 200
    /\ height img = height (trim (Demo.dot Demo.near_black)) + 200
    /\ (label = "White" \/ label = "Black"
        \/ None = Some label /\ In label (keys image_bg_map)).
Proof.
  destruct (process_color_ok (backend := Demo.backend)
              (Demo.dot Demo.near_black) (Demo.dot Demo.near_black) None
              eq_refl (demo_dot_well_sized _) eq_refl)
    as (img & Hi & _).
  exists img. eexists. split; [exact Hi |].
  exact (output_is_rgb_of_padded_size (backend := Demo.backend)
           (Demo.dot Demo.near_black) (Demo.dot Demo.near_black) img None _
           eq_refl (demo_dot_well_sized _) Hi).
Defined.

(* ================================================================= *)
(** ** Further properties: the flat-color canvas *)

Lemma mem_white_black (name : string) :
  mem name ["White"; "Black"] = true -> name = "White" \/ name = "Black".
Proof.
  unfold mem. cbn [existsb]. rewrite orb_false_r, orb_true_iff.
  intros [E | E]; apply String.eqb_eq in E; auto.
Qed.

Lemma color_branch_canvas {backend : Backend} (no_bg : Image)
      (manual_bg : option string) :
  exact_mask -> im_mode no_bg = RGBA -> well_sized no_bg ->
  exists f img label,
    feather_edges no_bg (lit 7 1) = Ok f
    /\ color_branch no_bg manual_bg = Ok (img, label)
    /\ (label = "White" \/ label = "Black")
    /\ (forall name, manual_bg = Some name ->
          mem name ["White"; "Black"] = true -> label = name)
    /\ forall x y,
         (inside f x y = false \/ A (px f x y) = 0 ->
          rgb_of (px img x y) = rgb_of (canvas_color label))
         /\ (inside f x y = true -> A (px f x y) = 255 ->
             rgb_of (px img x y) = rgb_of (px f x y)).
Proof.
  intros Hex Hm [Hw Hh].
  destruct (feather_edges_subject no_bg (lit 7 1) Hex Hm)
    as (s & f & _ & Hf & Hmf & Hwf & Hhf & _ & _).
  assert (Hcf : convert RGBA f = f) by (rewrite <- Hmf; apply convert_same).
  assert (Hexplicit : forall name, manual_bg = Some name ->
            mem name ["White"; "Black"] = true ->
            capitalize (resolve_bg_color no_bg manual_bg) = name).
  { intros name -> Hn. apply mem_white_black in Hn.
    destruct Hn as [-> | ->]; reflexivity. }
  exists f. unfold color_branch. rewrite Hf. cbn [bind].
  assert (Hc : exists c,
             getrgb (resolve_bg_color no_bg manual_bg) = Ok c
             /\ c = canvas_color (capitalize (resolve_bg_color no_bg manual_bg))
             /\ (capitalize (resolve_bg_color no_bg manual_bg) = "White"
                 \/ capitalize (resolve_bg_color no_bg manual_bg) = "Black")).
  { destruct (resolve_bg_color_cases no_bg manual_bg) as [-> | ->];
      eexists; (split; [reflexivity |]); split; auto. }
  destruct Hc as (c & -> & Hc & Hl). cbn [bind]. unfold size.
  rewrite new_ok by lia. cbn [bind]. unfold paste.
  rewrite same_size_true by reflexivity. cbn [bind im_mode].
  rewrite Hcf. eexists. eexists. split; [reflexivity |].
  split; [reflexivity |]. split; [exact Hl |]. split; [exact Hexplicit |].
  rewrite <- Hc.
  change (convert RGB ?im) with
    (mkImage RGB (width im) (height im)
       (fun x y => let p := px im x y in mkpx (R p) (G p) (B p) 255)).
  cbn [px width height]. intros x y. rewrite !Z.sub_0_r.
  unfold mask_value, blend_channels, rgb_of. rewrite Hmf.
  cbn [has_alpha R G B]. split.
  - intros [Hout | Ha].
    + rewrite Hout. reflexivity.
    + destruct (inside f x y); [| reflexivity].
      rewrite Ha, !(proj1 (Hex _ _)). reflexivity.
  - intros Hin Ha. rewrite Hin, Ha, !(proj2 (Hex _ _)). reflexivity.
Qed.

(** X9.  Without a plate style the picture is the feathered subject over a
    canvas of one color.  The label is "White" or "Black", and it is the
    choice itself when the choice is one of these two capitalized names.
    Outside the subject and wherever the feathered alpha is 0 the picture
    has the canvas color the label names; wherever the feathered alpha is
    255 it has the subject's color. *)
Theorem flat_canvas_shows_through
        {backend : Backend} (input_image seg : Image)
        (manual_bg : option string) :
  exact_mask -> remove_background input_image = Ok seg -> well_sized seg ->
  plate_key manual_bg = None ->
  exists f img label,
    feather_edges (padded (trim seg)) (lit 7 1) = Ok f
    /\ process_product_photo input_image manual_bg = Ok (img, label)
    /\ (label = "White" \/ label = "Black")
    /\ (forall name, manual_bg = Some name ->
          mem name ["White"; "Black"] = true -> label = name)
    /\ forall x y,
         (inside f x y = false \/ A (px f x y) = 0 ->
          rgb_of (px img x y) = rgb_of (canvas_color label))
         /\ (inside f x y = true -> A (px f x y) = 255 ->
             rgb_of (px img x y) = rgb_of (px f x y)).
Proof.
  intros Hex Hseg Hs Hk. unfold process_product_photo.
  rewrite (trim_and_pad_ok _ _ Hseg Hs). cbn [bind]. rewrite Hk.
  apply trim_well_sized in Hs. destruct Hs as [Hw Hh].
  apply color_branch_canvas; [exact Hex | reflexivity |].
  unfold well_sized, padded, safe_pad. cbn [width height]. lia.
Qed.

Lemma flat_canvas_shows_through_witness :
  exists f img label,
    feather_edges (backend := Demo.backend)
      (padded (backend := Demo.backend) (trim (Demo.dot Demo.near_black)))
      (lit 7 1) = Ok f
    /\ process_product_photo (backend := Demo.backend)
         (Demo.dot Demo.near_black) (Some "Black") = Ok (img, label)
    /\ (label = "White" \/ label = "Black")
    /\ (forall name, Some "Black" = Some name ->
          mem name ["White"; "Black"] = true -> label = name)
    /\ forall x y,
         (inside f x y = false \/ A (px f x y) = 0 ->
          rgb_of (px img x y) = rgb_of (canvas_color label))
         /\ (inside f x y = true -> A (px f x y) = 255 ->
             rgb_of (px img x y) = rgb_of (px f x y)).
Proof.
  apply (flat_canvas_shows_through (backend := Demo.backend)
           (Demo.dot Demo.near_black) (Demo.dot Demo.near_black)
           (Some "Black")).
  - exact demo_exact_mask.
  - reflexivity.
  - exact (demo_dot_well_sized _).
  - reflexivity.
Defined.

(* ================================================================= *)
(** ** Further properties: the trim *)

Lemma tight_box_unique (im : Image) (b b' : Z * Z * Z * Z) :
  tight_box im b -> tight_box im b' -> b = b'.
Proof.
  destruct b as [[[x0 y0] x1] y1], b' as [[[x0' y0'] x1'] y1'].
  unfold tight_box.
  intros (_ & _ & _ & _ & _ & _ & Hall & (ya & Hia & Hda) & (yb & Hib & Hdb)
          & (xc & Hic & Hdc) & (xd & Hid & Hdd)).
  intros (_ & _ & _ & _ & _ & _ & Hall' & (ya' & Hia' & Hda')
          & (yb' & Hib' & Hdb') & (xc' & Hic' & Hdc') & (xd' & Hid' & Hdd')).
  pose proof (Hall' _ _ Hia Hda). pose proof (Hall' _ _ Hib Hdb).
  pose proof (Hall' _ _ Hic Hdc). pose proof (Hall' _ _ Hid Hdd).
  pose proof (Hall _ _ Hia' Hda'). pose proof (Hall _ _ Hib' Hdb').
  pose proof (Hall _ _ Hic' Hdc'). pose proof (Hall _ _ Hid' Hdd').
  repeat f_equal; lia.
Qed.

Lemma getbbox_of_tight (im : Image) (b : Z * Z * Z * Z) :
  tight_box im b -> getbbox im = Some b.
Proof.
  intros Hb. pose proof (getbbox_spec im) as Hspec.
  destruct (getbbox im) as [b' |].
  - f_equal. exact (tight_box_unique im b' b Hspec Hb).
  - exfalso. destruct b as [[[x0 y0] x1] y1].
    destruct Hb as (_ & _ & _ & _ & _ & _ & _ & (y & Hi & Hd) & _).
    rewrite (Hspec _ _ Hi) in Hd. discriminate.
Qed.

(** A crop to the tight box has the whole frame as its tight box. *)
Lemma crop_tight (im : Image) (x0 y0 x1 y1 : Z) :
  tight_box im (x0, y0, x1, y1) ->
  tight_box (crop im (x0, y0, x1, y1)) (0, 0, x1 - x0, y1 - y0).
Proof.
  intros (Hx0 & Hx & Hx1 & Hy0 & Hy & Hy1 & Hall & (ya & Hia & Hda)
          & (yb & Hib & Hdb) & (xc & Hic & Hdc) & (xd & Hid & Hdd)).
  assert (Hdata : forall x y, 0 <= x < x1 - x0 -> 0 <= y < y1 - y0 ->
            inside (crop im (x0, y0, x1, y1)) x y = true
            /\ holds_data (crop im (x0, y0, x1, y1)) x y
               = holds_data im (x0 + x) (y0 + y)).
  { intros x y Hxr Hyr. split.
    - apply inside_iff. cbn [crop width height]. lia.
    - unfold holds_data. cbn [crop im_mode px].
      replace (inside im (x0 + x) (y0 + y)) with true; [reflexivity |].
      symmetry. apply inside_iff. lia. }
  pose proof (Hall _ _ Hia Hda) as Ha. pose proof (Hall _ _ Hib Hdb) as Hb.
  pose proof (Hall _ _ Hic Hdc) as Hc. pose proof (Hall _ _ Hid Hdd) as Hd.
  unfold tight_box.
  split; [lia |]. split; [lia |].
  split; [cbn [crop width]; lia |]. split; [lia |]. split; [lia |].
  split; [cbn [crop height]; lia |].
  split; [| split; [| split; [| split]]].
  - intros x y Hin _. apply inside_iff in Hin. cbn [crop width height] in Hin.
    lia.
  - exists (ya - y0). destruct (Hdata 0 (ya - y0)) as [Hi Hh]; try lia.
    split; [exact Hi |]. rewrite Hh.
    replace (x0 + 0) with x0 by lia. replace (y0 + (ya - y0)) with ya by lia.
    exact Hda.
  - exists (yb - y0).
    destruct (Hdata (x1 - x0 - 1) (yb - y0)) as [Hi Hh]; try lia.
    split; [exact Hi |]. rewrite Hh.
    replace (x0 + (x1 - x0 - 1)) with (x1 - 1) by lia.
    replace (y0 + (yb - y0)) with yb by lia. exact Hdb.
  - exists (xc - x0). destruct (Hdata (xc - x0) 0) as [Hi Hh]; try lia.
    split; [exact Hi |]. rewrite Hh.
    replace (y0 + 0) with y0 by lia. replace (x0 + (xc - x0)) with xc by lia.
    exact Hdc.
  - exists (xd - x0).
    destruct (Hdata (xd - x0) (y1 - y0 - 1)) as [Hi Hh]; try lia.
    split; [exact Hi |]. rewrite Hh.
    replace (y0 + (y1 - y0 - 1)) with (y1 - 1) by lia.
    replace (x0 + (xd - x0)) with xd by lia. exact Hdd.
Qed.

(** X10.  The trim is idempotent.  After it the data touches all four
    sides of the raster: the bounding box of a trimmed image is its whole
    frame (and a raster without data stays as it is), so a second trim
    keeps the size and every pixel. *)
Theorem trim_is_idempotent (im : Image) :
  getbbox (trim im)
  = match getbbox im with
    | Some _ => Some (0, 0, width (trim im), height (trim im))
    | None => None
    end
  /\ width (trim (trim im)) = width (trim im)
  /\ height (trim (trim im)) = height (trim im)
  /\ forall x y, inside (trim im) x y = true ->
       px (trim (trim im)) x y = px (trim im) x y.
Proof.
  pose proof (getbbox_spec im) as Hspec.
  destruct (getbbox im) as [[[[x0 y0] x1] y1] |] eqn:Eb.
  - assert (Etrim : trim im = crop im (x0, y0, x1, y1))
      by (unfold trim; now rewrite Eb).
    rewrite !Etrim.
    pose proof (crop_tight im x0 y0 x1 y1 Hspec) as Ht.
    destruct Hspec as (Hx0 & Hx & Hx1 & Hy0 & Hy & Hy1 & _).
    assert (Hw : width (crop im (x0, y0, x1, y1)) = x1 - x0)
      by (cbn [crop width]; lia).
    assert (Hh : height (crop im (x0, y0, x1, y1)) = y1 - y0)
      by (cbn [crop height]; lia).
    apply getbbox_of_tight in Ht.
    assert (Etrim2 : trim (crop im (x0, y0, x1, y1))
                     = crop (crop im (x0, y0, x1, y1))
                         (0, 0, x1 - x0, y1 - y0))
      by (unfold trim; now rewrite Ht).
    rewrite Etrim2, Ht, Hw, Hh.
    split; [reflexivity |].
    split; [cbn [crop width]; lia |]. split; [cbn [crop height]; lia |].
    intros x y Hin.
    change (px (crop (crop im (x0, y0, x1, y1)) (0, 0, x1 - x0, y1 - y0)) x y)
      with (if inside (crop im (x0, y0, x1, y1)) x y
            then px (crop im (x0, y0, x1, y1)) x y else transparent).
    rewrite Hin. reflexivity.
  - assert (Etrim : trim im = im) by (unfold trim; now rewrite Eb).
    rewrite !Etrim. auto.
Qed.

(* ================================================================= *)
(** ** Further properties: the selection of app.py *)

(** X11.  The tables of [app.py] and [processor.py] agree.  Every entry of
    the select box has a row in [bg_map], so the lookup never raises
    [KeyError]; the row is [None] (auto-detect), the lower-case color name,
    or the entry itself, which is then a key of [image_bg_map].  Conversely
    every plate style of [image_bg_map] is offered by the select box. *)
Theorem every_option_is_mapped (choice : string) :
  In choice App.options ->
  (exists manual_bg,
     get App.bg_map choice = Some manual_bg
     /\ (manual_bg = None
         \/ (mem choice ["White"; "Black"] = true
             /\ manual_bg = Some (lower choice))
         \/ (manual_bg = Some choice
             /\ exists bg_key, get image_bg_map choice = Some bg_key)))
  /\ forall name, In name (keys image_bg_map) -> In name App.options.
Proof.
  intros Hin. split.
  - unfold App.options in Hin. cbn [In] in Hin.
    repeat (destruct Hin as [<- | Hin];
            [eexists; split; [reflexivity |];
             first [ left; reflexivity
                   | right; left; split; reflexivity
                   | right; right; split; [reflexivity |];
                     eexists; reflexivity ] |]).
    contradiction.
  - intros name Hn. unfold keys, image_bg_map in Hn. cbn [map fst In] in Hn.
    unfold App.options. cbn [In].
    repeat (destruct Hn as [<- | Hn]; [tauto |]). contradiction.
Qed.

Lemma every_option_is_mapped_witness :
  (exists manual_bg,
     get App.bg_map "Premium Oak Parquet" = Some manual_bg
     /\ (manual_bg = None
         \/ (mem "Premium Oak Parquet" ["White"; "Black"] = true
             /\ manual_bg = Some (lower "Premium Oak Parquet"))
         \/ (manual_bg = Some "Premium Oak Parquet"
             /\ exists bg_key,
                  get image_bg_map "Premium Oak Parquet" = Some bg_key)))
  /\ forall name, In name (keys image_bg_map) -> In name App.options.
Proof.
  apply (every_option_is_mapped "Premium Oak Parquet").
  unfold App.options. cbn [In]. tauto.
Defined.

(* ================================================================= *)
(** ** Further properties: the threshold of the classifier *)

Lemma brightness_sum_bounds (l : list pixel) :
  (forall p, In p l -> uint8 (R p) /\ uint8 (G p) /\ uint8 (B p)) ->
  0 <= brightness_sum l <= 255 * (3 * Z.of_nat (List.length l)).
Proof.
  induction l as [| p l IH]; intros Hl; [simpl; lia |].
  cbn [brightness_sum fold_right].
  change (fold_right (fun p acc => R p + G p + B p + acc) 0 l)
    with (brightness_sum l).
  change (List.length (p :: l)) with (S (List.length l)).
  rewrite Nat2Z.inj_succ.
  destruct (Hl p (or_introl eq_refl)) as (HR & HG & HB). unfold uint8 in *.
  specialize (IH (fun q Hq => Hl q (or_intror Hq))). lia.
Qed.

Lemma opaque_channels {backend : Backend} (im : Image) :
  uint8_image im ->
  forall p, In p (opaque im) -> uint8 (R p) /\ uint8 (G p) /\ uint8 (B p).
Proof.
  intros Hu p Hp. apply in_opaque in Hp.
  destruct Hp as (x & y & Hin & -> & _).
  destruct (Hu x y Hin) as (HR & HG & HB & _).
  unfold convert. destruct (im_mode im); cbn [px R G B]; auto.
Qed.

(** On 8-bit data the mean brightness lies in 0..255. *)
Lemma mean_brightness_bounds {backend : Backend} (im : Image) :
  uint8_image im -> opaque im <> [] ->
  (0 <= mean_brightness im <= 255)%Q.
Proof.
  intros Hu Hne. unfold mean_brightness.
  pose proof (brightness_sum_bounds (opaque im) (opaque_channels im Hu))
    as [Hlo Hhi].
  assert (Hn : 0 < 3 * Z.of_nat (List.length (opaque im))).
  { destruct (opaque im); [congruence |]. simpl List.length. lia. }
  assert (Hq : (0 < inject_Z (3 * Z.of_nat (List.length (opaque im))))%Q)
    by (change 0%Q with (inject_Z 0); now rewrite <- Zlt_Qlt).
  split.
  - apply Qle_shift_div_l; [exact Hq |]. rewrite Qmult_0_l.
    change 0%Q with (inject_Z 0). now rewrite <- Zle_Qle.
  - apply Qle_shift_div_r; [exact Hq |].
    change 255%Q with (inject_Z 255).
    rewrite <- inject_Z_mult, <- Zle_Qle. exact Hhi.
Qed.

(** X12.  On 8-bit data with at least one pixel of alpha > 0 the mean
    brightness lies in 0..255, and [is_product_white] is a threshold test
    on it: its answer can only go from true to false as the threshold
    grows, it is false for every threshold of 255 or more and true for
    every negative threshold. *)
Theorem classifier_threshold {backend : Backend} (im : Image) :
  uint8_image im -> opaque im <> [] ->
  (0 <= mean_brightness im <= 255)%Q
  /\ (forall t1 t2, (t1 <= t2)%Q ->
        is_product_white im t2 = true -> is_product_white im t1 = true)
  /\ (forall t, (255 <= t)%Q -> is_product_white im t = false)
  /\ (forall t, (t < 0)%Q -> is_product_white im t = true).
Proof.
  intros Hu Hne.
  pose proof (mean_brightness_bounds im Hu Hne) as [Hlo Hhi].
  split; [split; assumption |].
  assert (Hw : forall t, is_product_white im t
                         = Np.gt (mean_brightness im) t).
  { intros t. rewrite is_product_white_unfold.
    destruct (opaque im); [congruence | reflexivity]. }
  split; [| split].
  - intros t1 t2 Hle. rewrite !Hw, !gt_iff.
    intros Hlt. exact (Qle_lt_trans _ _ _ Hle Hlt).
  - intros t Ht. rewrite Hw.
    destruct (Np.gt (mean_brightness im) t) eqn:Eg; [| reflexivity].
    apply gt_iff in Eg. exfalso.
    apply (Qlt_irrefl t). apply (Qlt_le_trans _ _ _ Eg).
    exact (Qle_trans _ _ _ Hhi Ht).
  - intros t Ht. rewrite Hw. apply gt_iff.
    exact (Qlt_le_trans _ _ _ Ht Hlo).
Qed.

Lemma classifier_threshold_witness :
  (0 <= mean_brightness (backend := Demo.backend) (Demo.dot Demo.near_white)
   <= 255)%Q
  /\ (forall t1 t2, (t1 <= t2)%Q ->
        is_product_white (backend := Demo.backend)
          (Demo.dot Demo.near_white) t2 = true ->
        is_product_white (backend := Demo.backend)
          (Demo.dot Demo.near_white) t1 = true)
  /\ (forall t, (255 <= t)%Q ->
        is_product_white (backend := Demo.backend)
          (Demo.dot Demo.near_white) t = false)
  /\ (forall t, (t < 0)%Q ->
        is_product_white (backend := Demo.backend)
          (Demo.dot Demo.near_white) t = true).
Proof.
  apply (classifier_threshold (backend := Demo.backend)
           (Demo.dot Demo.near_white)).
  - apply demo_dot_uint8. unfold uint8. simpl. lia.
  - vm_compute. discriminate.
Defined.

(* ================================================================= *)
(** ** Further properties: the lighting stages never fail *)

Section Stages.
Context {backend : Backend}.

Lemma width_convert (m : mode) (im : Image) : width (convert m im) = width im.
Proof. exact (proj1 (proj2 (convert_shape m im))). Qed.

Lemma height_convert (m : mode) (im : Image) :
  height (convert m im) = height im.
Proof. exact (proj2 (proj2 (convert_shape m im))). Qed.

Lemma mode_convert (m : mode) (im : Image) : im_mode (convert m im) = m.
Proof. exact (proj1 (convert_shape m im)). Qed.

Lemma width_last_band (im : Image) : width (last_band im) = width im.
Proof. exact (proj1 (last_band_shape im)). Qed.

Lemma height_last_band (im : Image) : height (last_band im) = height im.
Proof. exact (proj2 (last_band_shape im)). Qed.

Lemma alpha_composite_ok (dst src : Image) :
  im_mode dst = RGBA -> im_mode src = RGBA ->
  width dst = width src -> height dst = height src ->
  exists r, alpha_composite dst src = Ok r
            /\ im_mode r = RGBA
            /\ width r = width dst /\ height r = height dst.
Proof.
  intros Hd Hs Hw Hh. unfold alpha_composite.
  rewrite (same_size_true _ _ Hw Hh), Hd, Hs. cbn [mode_eqb andb].
  eexists. split; [reflexivity |]. cbn [im_mode width height]. auto.
Qed.

Lemma blend_ok (a b : Image) (alpha : float) :
  im_mode a = im_mode b -> width a = width b -> height a = height b ->
  exists r, blend a b alpha = Ok r
            /\ im_mode r = im_mode a
            /\ width r = width a /\ height r = height a.
Proof.
  intros Hm Hw Hh. unfold blend.
  rewrite (same_size_true _ _ Hw Hh), <- Hm.
  replace (mode_eqb (im_mode a) (im_mode a)) with true
    by (destruct (im_mode a); reflexivity).
  cbn [andb]. eexists. split; [reflexivity |].
  cbn [im_mode width height]. auto.
Qed.

End Stages.

(** Sizes and modes through the operations that keep them. *)
Ltac shape :=
  unfold copy in *;
  repeat (progress
            (cbn [filter crop point invert flip multiply enhance_brightness
                  enhance_contrast band width height im_mode fst snd]
               in *;
             rewrite ?width_convert, ?height_convert, ?mode_convert,
               ?width_last_band, ?height_last_band in *)).

(** The next masked paste of the run returns. *)
Ltac paste_step :=
  match goal with
  | |- context [paste ?d ?s ?p (Some ?m)] =>
      let r := fresh "r" in
      let Hp := fresh "Hp" in
      destruct (paste_mask_ok d s m p) as (r & Hp & ? & ? & ?);
      [ shape; lia | shape; lia | rewrite Hp; cbn [bind]; clear Hp ]
  end.

Section StagesReturn.
Context {backend : Backend}.

Lemma apply_light_wrap_ok (product background : Image) (pos : Z * Z)
      (intensity : float) (blur : Z) :
  im_mode product = RGBA -> well_sized product ->
  exists r,
    apply_light_wrap product background pos intensity blur = Ok r
    /\ im_mode r = RGBA
    /\ width r = width product /\ height r = height product.
Proof.
  intros Hm [Hw Hh]. unfold apply_light_wrap. rewrite Hm.
  cbn [has_alpha negb]. unfold size. cbv beta iota zeta.
  rewrite !new_ok by lia. cbn [bind].
  paste_step. paste_step.
  destruct (alpha_composite_ok product r) as (c1 & Hc1 & Hm1 & Hw1 & Hh1);
    [shape; congruence .. |].
  rewrite Hc1. cbn [bind].
  destruct (alpha_composite_ok c1 r0) as (c2 & Hc2 & Hm2 & Hw2 & Hh2);
    [shape; congruence .. |].
  rewrite Hc2. cbn [bind].
  destruct (blend_ok c1 c2 intensity) as (b & Hb & Hmb & Hwb & Hhb);
    [congruence .. |].
  exists b. split; [exact Hb |]. repeat split; congruence.
Qed.

Lemma apply_scene_shadows_ok (product background : Image) (pos : Z * Z)
      (intensity : float) :
  im_mode product = RGBA -> well_sized product ->
  exists r,
    apply_scene_shadows product background pos intensity = Ok r
    /\ im_mode r = RGBA
    /\ width r = width product /\ height r = height product.
Proof.
  intros Hm [Hw Hh]. unfold apply_scene_shadows. rewrite Hm.
  cbn [has_alpha negb]. unfold size. cbv beta iota zeta.
  unfold merge. rewrite !same_size_true by reflexivity. cbn [andb bind].
  match goal with
  | |- context [blend ?a ?b ?f] =>
      destruct (blend_ok a b f) as (bl & Hbl & Hmb & Hwb & Hhb);
        [shape; try reflexivity; lia .. |]
  end.
  rewrite Hbl. cbn [bind]. paste_step.
  exists r. split; [reflexivity |]. shape. repeat split; congruence.
Qed.

Lemma apply_rim_glow_ok (image : Image) (color : Z * Z * Z) (power : float)
      (blur glow_a : Z) :
  im_mode image = RGBA -> well_sized image ->
  int (fmul (of_int 100) power) = Ok glow_a ->
  exists r,
    apply_rim_glow image color power blur = Ok r
    /\ im_mode r = RGBA
    /\ width r = width image /\ height r = height image.
Proof.
  intros Hm [Hw Hh] Hg. unfold apply_rim_glow. rewrite Hm, Hg.
  cbn [has_alpha negb bind]. destruct color as [[cr cg] cb]. unfold size.
  rewrite !new_ok by lia. cbn [bind].
  paste_step. paste_step. paste_step.
  exists r1. split; [reflexivity |]. shape. repeat split; congruence.
Qed.

Lemma apply_cinematic_effects_ok (image : Image)
      (is_dark_bg is_dark_product : bool) (tint_color : option (Z * Z * Z)) :
  im_mode image = RGBA -> well_sized image ->
  exists r,
    apply_cinematic_effects image is_dark_bg is_dark_product tint_color
    = Ok r
    /\ im_mode r = RGBA
    /\ width r = width image /\ height r = height image.
Proof.
  intros Hm [Hw Hh]. unfold apply_cinematic_effects.
  assert (Htint : exists t,
    match tint_color with
    | Some (r, g, b) =>
        solid <- new RGB (size image) (mkpx r g b 255) ;;
        processed_rgb <- blend (convert RGB image) solid (lit 2 2) ;;
        if has_alpha (im_mode image) then
          putalpha (convert RGBA processed_rgb) (last_band image)
        else Ok processed_rgb
    | None => Ok image
    end = Ok t
    /\ im_mode t = RGBA /\ width t = width image /\ height t = height image).
  { destruct tint_color as [[[tr tg] tb] |]; [| exists image; auto].
    unfold size. rewrite new_ok by lia. cbn [bind].
    match goal with
    | |- context [blend ?a ?b ?f] =>
        destruct (blend_ok a b f) as (bl & Hbl & Hmb & Hwb & Hhb);
          [shape; try reflexivity; lia .. |]
    end.
    rewrite Hbl. cbn [bind]. rewrite Hm. cbn [has_alpha].
    destruct (putalpha_ok (convert RGBA bl) (last_band image))
      as (t & Ht & Hmt & Hwt & Hht); [shape; lia .. |].
    exists t. split; [exact Ht |]. shape. repeat split; congruence. }
  destruct Htint as (t & -> & Hmt & Hwt & Hht). cbn [bind].
  assert (Hglow : exists g,
    (if is_dark_bg then
       apply_rim_glow
         (if is_dark_product then
            enhance_contrast (enhance_brightness t (lit 11 1)) (lit 105 2)
          else t) (255, 255, 255) (lit 11 1) 5
     else Ok (if is_dark_product then
                enhance_contrast (enhance_brightness t (lit 11 1)) (lit 105 2)
              else t)) = Ok g
    /\ im_mode g = RGBA /\ width g = width image /\ height g = height image).
  { destruct is_dark_bg.
    - destruct (apply_rim_glow_ok
                  (if is_dark_product then
                     enhance_contrast (enhance_brightness t (lit 11 1))
                       (lit 105 2)
                   else t) (255, 255, 255) (lit 11 1) 5 110)
        as (g & Hg & Hmg & Hwg & Hhg).
      + destruct is_dark_product; shape; assumption.
      + unfold well_sized. destruct is_dark_product; shape; lia.
      + reflexivity.
      + exists g. split; [exact Hg |].
        destruct is_dark_product; shape; repeat split; congruence.
    - eexists. split; [reflexivity |].
      destruct is_dark_product; shape; auto. }
  destruct Hglow as (g & -> & Hmg & Hwg & Hhg). cbn [bind].
  eexists. split; [reflexivity |]. shape. auto.
Qed.

End StagesReturn.

(** X13.  [apply_light_wrap] never fails on a product that has a size: the
    crop of the backdrop, the edge masks and the two layers all get the
    product's size, so no paste, composite or blend meets mismatching
    images.  The result has the product's mode and size; a product
    without alpha comes back as it is. *)
Theorem light_wrap_never_fails
        {backend : Backend} (product background : Image) (pos : Z * Z)
        (intensity : float) (blur : Z) :
  well_sized product ->
  exists r,
    apply_light_wrap product background pos intensity blur = Ok r
    /\ im_mode r = im_mode product
    /\ width r = width product /\ height r = height product
    /\ (has_alpha (im_mode product) = false -> r = product).
Proof.
  intros Hs. destruct (im_mode product) eqn:Em.
  - exists product. unfold apply_light_wrap. rewrite Em. auto.
  - exists product. unfold apply_light_wrap. rewrite Em. auto.
  - destruct (apply_light_wrap_ok product background pos intensity blur
                Em Hs) as (r & Hr & Hm & Hw & Hh).
    exists r. repeat split; try assumption. discriminate.
Qed.

Lemma light_wrap_never_fails_witness :
  exists r,
    apply_light_wrap (backend := Demo.backend) (Demo.dot Demo.near_black)
      (Demo.solid 9 9 Demo.near_white) (2, 3) (lit 12 2) 12 = Ok r
    /\ im_mode r = RGBA
    /\ width r = 5 /\ height r = 4
    /\ (has_alpha RGBA = false -> r = Demo.dot Demo.near_black).
Proof.
  apply (light_wrap_never_fails (backend := Demo.backend)
           (Demo.dot Demo.near_black) (Demo.solid 9 9 Demo.near_white)
           (2, 3) (lit 12 2) 12).
  exact (demo_dot_well_sized _).
Defined.

(** X14.  [apply_scene_shadows] never fails on a product that has a size,
    wherever it stands on the backdrop (the crop is padded outside the
    backdrop): the result has the product's mode and size; a product
    without alpha comes back as it is. *)
Theorem scene_shadows_never_fail
        {backend : Backend} (product background : Image) (pos : Z * Z)
        (intensity : float) :
  well_sized product ->
  exists r,
    apply_scene_shadows product background pos intensity = Ok r
    /\ im_mode r = im_mode product
    /\ width r = width product /\ height r = height product
    /\ (has_alpha (im_mode product) = false -> r = product).
Proof.
  intros Hs. destruct (im_mode product) eqn:Em.
  - exists product. unfold apply_scene_shadows. rewrite Em. auto.
  - exists product. unfold apply_scene_shadows. rewrite Em. auto.
  - destruct (apply_scene_shadows_ok product background pos intensity Em Hs)
      as (r & Hr & Hm & Hw & Hh).
    exists r. repeat split; try assumption. discriminate.
Qed.

Lemma scene_shadows_never_fail_witness :
  exists r,
    apply_scene_shadows (backend := Demo.backend) (Demo.dot Demo.near_black)
      (Demo.solid 9 9 Demo.near_white) (-2, 7) (lit 8 2) = Ok r
    /\ im_mode r = RGBA
    /\ width r = 5 /\ height r = 4
    /\ (has_alpha RGBA = false -> r = Demo.dot Demo.near_black).
Proof.
  apply (scene_shadows_never_fail (backend := Demo.backend)
           (Demo.dot Demo.near_black) (Demo.solid 9 9 Demo.near_white)
           (-2, 7) (lit 8 2)).
  exact (demo_dot_well_sized _).
Defined.

(** X15.  [apply_cinematic_effects] never fails on an RGBA image that has
    a size, for every combination of its flags and with or without a tint:
    the tint blend, the alpha put back, the rim glow (whose opacity
    [int(100 * 1.1)] is 110) and the sharpening all keep the mode RGBA and
    the size. *)
Theorem cinematic_effects_never_fail
        {backend : Backend} (image : Image)
        (is_dark_bg is_dark_product : bool)
        (tint_color : option (Z * Z * Z)) :
  im_mode image = RGBA -> well_sized image ->
  int (fmul (of_int 100) (lit 11 1)) = Ok 110
  /\ exists r,
       apply_cinematic_effects image is_dark_bg is_dark_product tint_color
       = Ok r
       /\ im_mode r = RGBA
       /\ width r = width image /\ height r = height image.
Proof.
  intros Hm Hs. split; [reflexivity |].
  exact (apply_cinematic_effects_ok image is_dark_bg is_dark_product
           tint_color Hm Hs).
Qed.

Lemma cinematic_effects_never_fail_witness :
  int (fmul (of_int 100) (lit 11 1)) = Ok 110
  /\ exists r,
       apply_cinematic_effects (backend := Demo.backend)
         (Demo.dot Demo.near_black) true true (Some (40, 40, 40)) = Ok r
       /\ im_mode r = RGBA
       /\ width r = 5 /\ height r = 4.
Proof.
  apply (cinematic_effects_never_fail (backend := Demo.backend)
           (Demo.dot Demo.near_black) true true (Some (40, 40, 40))).
  - reflexivity.
  - exact (demo_dot_well_sized _).
Defined.

(* ================================================================= *)
(** ** Further properties: the perspective shadow and the edge band *)

Lemma resize_ok {backend : Backend} (im : Image) (w h : Z)
      (rs : option Resampling) :
  1 <= w -> 1 <= h ->
  exists r, resize im (w, h) rs = Ok r
            /\ im_mode r = im_mode im /\ width r = w /\ height r = h.
Proof.
  intros Hw Hh. unfold resize, copy.
  destruct ((w =? width im) && (h =? height im)) eqn:E.
  - apply andb_true_iff in E. destruct E as [Ew Eh].
    apply Z.eqb_eq in Ew, Eh. exists im. auto.
  - destruct (Z.ltb_spec w 1); [lia |]. destruct (Z.ltb_spec h 1); [lia |].
    cbn [orb]. eexists. split; [reflexivity |]. cbn [im_mode width height].
    auto.
Qed.

(** Up to 32767 rows the three fractions of a height the pipeline takes
    are row counts: 70% (the horizon), 20% (the squashed shadow, at least
    one row as soon as there are five) and 10% (the shadow's lift). *)
Lemma height_fractions (h : Z) :
  0 <= h < 32768 ->
  (exists s, int (fmul (of_int h) (lit 7 1)) = Ok s /\ 0 <= s <= h)
  /\ (exists s, int (fmul (of_int h) (lit 2 1)) = Ok s
                /\ 0 <= s <= h /\ (5 <= h -> 1 <= s))
  /\ (exists s, int (fmul (of_int h) (lit 1 1)) = Ok s /\ 0 <= s <= h).
Proof.
  intros Hr.
  assert (Hall :
    (let k7 := lit 7 1 in
     let k2 := lit 2 1 in
     let k1 := lit 1 1 in
     all_from (Z.to_nat 32768) 0
       (fun h =>
          match int (fmul (of_int h) k7), int (fmul (of_int h) k2),
                int (fmul (of_int h) k1) with
          | Ok a, Ok b, Ok c =>
              (0 <=? a) && (a <=? h) && (0 <=? b) && (b <=? h)
              && ((h <? 5) || (1 <=? b)) && (0 <=? c) && (c <=? h)
          | _, _, _ => false
          end)) = true)
    by (vm_compute; reflexivity).
  cbv zeta in Hall.
  pose proof (all_from_spec _ _ _ h Hall) as Hb. cbv beta in Hb.
  rewrite Z2Nat.id in Hb by lia. specialize (Hb ltac:(lia)).
  destruct (int (fmul (of_int h) (lit 7 1))) as [a | e]; [| discriminate].
  destruct (int (fmul (of_int h) (lit 2 1))) as [b | e]; [| discriminate].
  destruct (int (fmul (of_int h) (lit 1 1))) as [c | e]; [| discriminate].
  rewrite !andb_true_iff, orb_true_iff in Hb.
  split; [| split]; eexists; (split; [reflexivity |]); lia.
Qed.

Lemma create_perspective_shadow_ok {backend : Backend} (image : Image)
      (blur op : Z) (opacity : float) :
  1 <= width image -> 5 <= height image < 32768 ->
  int (fmul (of_int 255) opacity) = Ok op ->
  exists r,
    create_perspective_shadow image (lit 2 1) blur opacity = Ok r
    /\ im_mode r = RGBA
    /\ width r = width image /\ height r = height image.
Proof.
  intros Hw Hh Hop. unfold create_perspective_shadow, size.
  rewrite new_ok by lia. cbn [bind].
  destruct (height_fractions (height image)) as (_ & (s & Hs & Hsr & Hs1) & _);
    [lia |].
  rewrite Hs. cbn [bind].
  match goal with
  | |- context [resize ?im ?sz ?rs] =>
      destruct (resize_ok im (width image) s rs)
        as (sh & Hsh & Hmsh & Hwsh & Hhsh); [lia | lia |]
  end.
  rewrite Hsh. cbn [bind]. rewrite new_ok by lia. cbn [bind].
  rewrite Hop. cbn [bind]. rewrite new_ok by lia. cbn [bind].
  paste_step. eexists. split; [reflexivity |]. shape. auto.
Qed.

(** X16.  [create_perspective_shadow] with the pipeline's squash factor 0.2
    never fails on a subject at least 1 pixel wide and 5 to 32767 pixels
    high: the shadow height [int(h * 0.2)] is then between 1 and [h], so
    the resize gets a non-empty target and the squashed silhouette fits the
    canvas.  The result is RGBA and has the subject's size. *)
Theorem perspective_shadow_never_fails
        {backend : Backend} (image : Image) (blur : Z) (is_light_prod : bool) :
  1 <= width image -> 5 <= height image < 32768 ->
  (exists s, int (fmul (of_int (height image)) (lit 2 1)) = Ok s
             /\ 1 <= s <= height image)
  /\ exists r,
       create_perspective_shadow image (lit 2 1) blur
         (if is_light_prod then lit 35 2 else lit 25 2) = Ok r
       /\ im_mode r = RGBA
       /\ width r = width image /\ height r = height image.
Proof.
  intros Hw Hh. split.
  - destruct (height_fractions (height image))
      as (_ & (s & Hs & Hsr & Hs1) & _); [lia |].
    exists s. split; [exact Hs | lia].
  - destruct is_light_prod.
    + apply (create_perspective_shadow_ok image blur 89); [lia | lia |].
      reflexivity.
    + apply (create_perspective_shadow_ok image blur 63); [lia | lia |].
      reflexivity.
Qed.

Lemma perspective_shadow_never_fails_witness :
  (exists s, int (fmul (of_int 7) (lit 2 1)) = Ok s /\ 1 <= s <= 7)
  /\ exists r,
       create_perspective_shadow (backend := Demo.backend)
         (Demo.solid 3 7 Demo.near_black) (lit 2 1) 15 (lit 35 2) = Ok r
       /\ im_mode r = RGBA
       /\ width r = 3 /\ height r = 7.
Proof.
  apply (perspective_shadow_never_fails (backend := Demo.backend)
           (Demo.solid 3 7 Demo.near_black) 15 true); simpl; lia.
Defined.

Lemma adaptive_edge_purity_ok {backend : Backend} (image : Image)
      (is_light_prod : bool) :
  im_mode image = RGBA ->
  exists r,
    adaptive_edge_purity image is_light_prod = Ok r
    /\ im_mode r = RGBA
    /\ width r = width image /\ height r = height image
    /\ forall x y,
         A (px r x y) = R (px (filter (MinFilter 7) (last_band image)) x y).
Proof.
  intros Hm. unfold adaptive_edge_purity. rewrite Hm. cbn [has_alpha].
  cbv zeta.
  destruct (putalpha_ok image (filter (MinFilter 7) (last_band image)))
    as (p & Hp & Hmp & Hwp & Hhp); [shape; lia .. |].
  rewrite Hp. cbn [bind].
  assert (Hrgb : exists rgb,
    (if negb is_light_prod then
       paste (convert RGB p) (enhance_brightness (convert RGB p) (lit 4 1))
         (0, 0)
         (Some (filter (GaussianBlur (of_int 1))
                  (filter FIND_EDGES
                     (filter (MinFilter 7) (last_band image)))))
     else
       paste (convert RGB p) (enhance_brightness (convert RGB p) (lit 105 2))
         (0, 0)
         (Some (filter (GaussianBlur (of_int 1))
                  (filter FIND_EDGES
                     (filter (MinFilter 7) (last_band image)))))) = Ok rgb
    /\ im_mode rgb = RGB /\ width rgb = width image
    /\ height rgb = height image).
  { destruct (negb is_light_prod); paste_step; eexists;
      (split; [reflexivity |]); shape; repeat split; congruence. }
  destruct Hrgb as (rgb & -> & Hmr & Hwr & Hhr). cbn [bind].
  unfold split, merge. rewrite Hmr. cbn [app].
  rewrite !same_size_true by (shape; lia). cbn [andb].
  eexists. split; [reflexivity |]. cbn [im_mode width height px A R].
  repeat split; assumption.
Qed.

(** X17.  The adaptive edge purity step never fails on an RGBA subject and
    keeps its size; the new alpha channel is the 7x7 minimum filter of the
    old one, whatever the tone of the subject (the tone only selects how
    the colors of the edge band are treated).  An image without alpha is
    returned as it is. *)
Theorem edge_purity_shrinks_the_mask
        {backend : Backend} (image : Image) (is_light_prod : bool) :
  exists r,
    adaptive_edge_purity image is_light_prod = Ok r
    /\ im_mode r = im_mode image
    /\ width r = width image /\ height r = height image
    /\ (if has_alpha (im_mode image)
        then forall x y,
               A (px r x y)
               = R (px (filter (MinFilter 7) (last_band image)) x y)
        else r = image).
Proof.
  destruct (im_mode image) eqn:Em.
  - exists image. unfold adaptive_edge_purity. rewrite Em. cbn [has_alpha].
    auto.
  - exists image. unfold adaptive_edge_purity. rewrite Em. cbn [has_alpha].
    auto.
  - destruct (adaptive_edge_purity_ok image is_light_prod Em)
      as (r & Hr & Hm & Hw & Hh & Ha).
    exists r. cbn [has_alpha]. repeat split; assumption.
Qed.

(* ================================================================= *)
(** ** Further properties: the plate branch after the scaling *)

(** The next drop shadow of the run returns. *)
Ltac shadow_step :=
  match goal with
  | |- context [create_drop_shadow ?im ?off ?c ?b] =>
      let sh := fresh "sh" in
      let Hsh := fresh "Hsh" in
      destruct (create_drop_shadow_ok im off c b)
        as (sh & Hsh & ? & ? & ?);
      [ assumption | unfold well_sized; lia | lia
      | rewrite Hsh; cbn [bind]; clear Hsh ]
  end.

(** The next conversion between integers and floats of the run, on
    constants. *)
Ltac compute_step :=
  match goal with
  | |- context [bind ?c _] =>
      match c with
      | int _ => idtac
      | fdiv _ _ => idtac
      end;
      let v := eval vm_compute in c in
      replace c with v by (vm_compute; reflexivity);
      cbn [bind]
  end.

Section PlateReturns.
Context {backend : Backend}.

Lemma floor_layers_ok (final_render processed_product : Image)
      (name : string) (is_light_prod : bool) (pos_x pos_y p_h : Z) :
  is_marble name = false -> im_mode processed_product = RGBA ->
  1 <= width processed_product ->
  5 <= height processed_product < 32768 -> 0 <= p_h < 32768 ->
  exists r,
    floor_layers final_render processed_product name is_light_prod
      pos_x pos_y p_h = Ok r.
Proof.
  intros Hmarble Hm Hw Hh Hp. unfold floor_layers. rewrite Hmarble.
  cbv zeta.
  destruct (height_fractions p_h Hp) as (_ & _ & (lift & Hlift & _)).
  rewrite Hlift.
  destruct (create_perspective_shadow_ok processed_product 15 89 (lit 35 2)
              Hw Hh eq_refl) as (ps1 & Hps1 & Hmp1 & Hwp1 & Hhp1).
  destruct (create_perspective_shadow_ok processed_product 15 63 (lit 25 2)
              Hw Hh eq_refl) as (ps2 & Hps2 & Hmp2 & Hwp2 & Hhp2).
  destruct is_light_prod, (daylight_or_parquet name), (is_flat_lay name),
    (is_slate name); cbn [andb fst snd bind];
    rewrite ?Hps1, ?Hps2; cbn [bind];
    repeat first [shadow_step | paste_step | compute_step];
    eexists; reflexivity.
Qed.

Lemma positioning_ok (bg_w bg_h p_w p_h : Z) (name : string) :
  0 <= bg_h < 32768 ->
  exists x y, positioning bg_w bg_h p_w p_h name = Ok (x, y).
Proof.
  intros Hb. unfold positioning.
  destruct (is_spotlight name || is_flat_lay name); cbn [bind].
  - eexists. eexists. reflexivity.
  - destruct (height_fractions bg_h Hb) as ((s & -> & _) & _).
    cbn [bind]. eexists. eexists. reflexivity.
Qed.

Lemma perspective_scaling_mode (no_bg scaled : Image) (orig_h bg_h : Z)
      (name : string) (sc : option float) :
  perspective_scaling no_bg orig_h bg_h name = Ok (scaled, sc) ->
  im_mode scaled = im_mode no_bg
  /\ (1 <= width no_bg -> 1 <= height no_bg -> 1 <= width scaled).
Proof.
  unfold perspective_scaling. destruct (is_floor name).
  - intros H. run_steps H. injection H as <- _. unfold resize, copy in E3.
    destruct ((v1 =? width no_bg) && (v2 =? height no_bg)) eqn:Es.
    + injection E3 as <-. auto.
    + destruct (Z.ltb_spec v1 1); cbn [orb] in E3; [discriminate |].
      destruct (v2 <? 1); [discriminate |]. injection E3 as <-.
      cbn [im_mode width]. auto.
  - intros [= <- _]. auto.
Qed.

Lemma plate_branch_ok (no_bg scaled : Image) (orig_h : Z)
      (name bg_key : string) (sc : option float) :
  im_mode no_bg = RGBA -> 1 <= width no_bg -> 1 <= height no_bg < 32768 ->
  get image_bg_map name = Some bg_key -> is_marble name = false ->
  perspective_scaling no_bg orig_h (height no_bg) name = Ok (scaled, sc) ->
  5 <= height scaled < 32768 ->
  exists fr,
    plate_branch no_bg orig_h name bg_key = Ok fr
    /\ scale fr = sc
    /\ p_w fr = width scaled /\ p_h fr = height scaled.
Proof.
  intros Hm Hw Hh Hkey Hmarble Hscale Hsh.
  destruct (perspective_scaling_mode _ _ _ _ _ _ Hscale) as (Hms & Hws).
  rewrite Hm in Hms. specialize (Hws Hw ltac:(lia)).
  unfold plate_branch, size.
  destruct (load_background_ok bg_key (width no_bg) (height no_bg))
    as (bg & Hbg & Hmb & Hwb & Hhb & _); [lia | lia |].
  rewrite Hbg. cbn [bind]. rewrite Hhb, Hwb, Hscale. cbn [bind].
  set (light := is_product_white scaled 200).
  destruct (adaptive_edge_purity_ok scaled light Hms)
    as (shaved & -> & Hmv & Hwv & Hhv & _).
  cbn [bind].
  destruct (feather_edges_ok shaved (lit 4 1))
    as (feathered & -> & Hmf & Hwf & Hhf).
  cbn [bind].
  destruct (positioning_ok (width no_bg) (height no_bg) (width feathered)
              (height feathered) name) as (x & y & ->); [lia |].
  cbn [bind].
  destruct (resize_ok bg 1 1 None) as (thumb & -> & _); [lia | lia |].
  cbn [bind].
  destruct (apply_cinematic_effects_ok feathered (is_dark_bg name)
              (negb light)
              (Some (R (px thumb 0 0), G (px thumb 0 0), B (px thumb 0 0))))
    as (graded & -> & Hmg & Hwg & Hhg);
    [congruence | unfold well_sized; lia |].
  cbn [bind].
  assert (Hshadow : exists shadowed,
    (if daylight_or_parquet name then
       apply_scene_shadows graded bg (x, y) (lit 8 2)
     else Ok graded) = Ok shadowed
    /\ im_mode shadowed = RGBA
    /\ width shadowed = width graded /\ height shadowed = height graded).
  { destruct (daylight_or_parquet name); [| exists graded; auto].
    apply apply_scene_shadows_ok; [exact Hmg | unfold well_sized; lia]. }
  destruct Hshadow as (shadowed & -> & Hmd & Hwd & Hhd). cbn [bind].
  destruct (apply_light_wrap_ok shadowed bg (x, y) (lit 12 2) 12)
    as (wrapped & -> & Hmw & Hww & Hhw);
    [exact Hmd | unfold well_sized; lia |].
  cbn [bind]. unfold render_layers.
  rewrite (catalog_floor _ _ Hkey).
  destruct (floor_layers_ok (copy bg) wrapped name
              (is_product_white wrapped 200) x y (height feathered))
    as (layers & ->); [exact Hmarble | exact Hmw | lia | lia | lia |].
  cbn [bind]. paste_step.
  destruct (apply_film_grain_ok r (lit 12 3) eq_refl) as (g & -> & _).
  cbn [bind]. eexists. split; [reflexivity |].
  cbn [scale p_w p_h]. repeat split; congruence.
Qed.

End PlateReturns.

(* ================================================================= *)
(** ** Further properties: the heights of the perspective scaling *)

Lemma scaled_height_bounds (f : float) (h : Z) :
  f = lit 65 2 \/ f = lit 45 2 \/ f = lit 5 1 ->
  1 <= h < 16384 ->
  exists target_h sc new_h,
    scaled_height f h = Ok (target_h, sc, new_h)
    /\ 90 <= target_h <= new_h /\ new_h < 32768.
Proof.
  intros Hf Hr.
  assert (Hall :
    (let k65 := lit 65 2 in
     let k45 := lit 45 2 in
     let k5 := lit 5 1 in
     let check := fun f h =>
       match scaled_height f h with
       | Ok (t, _, n) => (90 <=? t) && (t <=? n) && (n <? 32768)
       | Raise _ => false
       end in
     all_from (Z.to_nat 16383) 1
       (fun h => check k65 h && check k45 h && check k5 h)) = true)
    by (vm_compute; reflexivity).
  cbv zeta in Hall.
  pose proof (all_from_spec _ _ _ h Hall) as Hb. cbv beta in Hb.
  rewrite Z2Nat.id in Hb by lia. specialize (Hb ltac:(lia)).
  rewrite !andb_true_iff in Hb. destruct Hb as [[H65 H45] H5].
  assert (Hc : match scaled_height f h with
               | Ok (t, _, n) => (90 <=? t) && (t <=? n) && (n <? 32768)
               | Raise _ => false
               end = true)
    by (destruct Hf as [-> | [-> | ->]]; assumption).
  destruct (scaled_height f h) as [[[t sc] n] | e]; [| discriminate].
  exists t, sc, n. split; [reflexivity |].
  rewrite !andb_true_iff in Hc. lia.
Qed.

Lemma scale_factor_cases (name : string) :
  scale_factor name = lit 65 2 \/ scale_factor name = lit 45 2
  \/ scale_factor name = lit 5 1.
Proof.
  unfold scale_factor. destruct (is_flat_lay name); [auto |].
  destruct (is_spotlight name); auto.
Qed.

Lemma perspective_scaling_heights {backend : Backend} (no_bg : Image)
      (h : Z) (name : string) :
  is_floor name = true -> 1 <= h < 16384 ->
  1 <= width no_bg -> height no_bg = h + 200 ->
  exists target_h sc new_h,
    scaled_height (scale_factor name) h = Ok (target_h, sc, new_h)
    /\ 90 <= target_h <= new_h /\ new_h < 32768
    /\ (forall scaled s,
          perspective_scaling no_bg h (height no_bg) name = Ok (scaled, s) ->
          s = Some sc /\ height scaled = new_h)
    /\ (forall new_w,
          int (fmul (of_int (width no_bg)) sc) = Ok new_w -> 1 <= new_w ->
          exists scaled,
            perspective_scaling no_bg h (height no_bg) name
            = Ok (scaled, Some sc)
            /\ width scaled = new_w /\ height scaled = new_h).
Proof.
  intros Hfloor Hr Hw Hh.
  destruct (scaled_height_bounds _ h (scale_factor_cases name) Hr)
    as (t & sc & n & Hs & Hb & Hn).
  exists t, sc, n. split; [exact Hs |]. split; [exact Hb |].
  split; [exact Hn |].
  unfold scaled_height, safe_pad in Hs.
  replace (h + 100 * 2) with (h + 200) in Hs by lia.
  unfold perspective_scaling. rewrite Hfloor, Hh. unfold size.
  cbn [fst snd]. rewrite Hh.
  destruct (int (fmul (of_int (h + 200)) (scale_factor name)))
    as [t' | e]; cbn [bind] in Hs |- *; [| discriminate].
  destruct (fdiv (of_int t') (of_int h)) as [sc' | e]; cbn [bind] in Hs |- *;
    [| discriminate].
  destruct (int (fmul (of_int (h + 200)) sc')) as [n' | e] eqn:En;
    cbn [bind] in Hs; [| discriminate].
  injection Hs as -> -> ->. split.
  - intros scaled s H. do 2 inv_bind H. injection H as <- <-.
    split; [reflexivity |].
    apply resize_shape in E0. tauto.
  - intros new_w Hnw Hw1. rewrite Hnw. cbn [bind].
    destruct (resize_ok no_bg new_w n (Some LANCZOS))
      as (r & -> & _ & Hrw & Hrh); [lia | lia |].
    cbn [bind]. exists r. auto.
Qed.

(** X18.  The heights of the perspective scaling never go wrong.  For a
    floor style and a trimmed subject of 1 to 16383 rows, the target
    height [int(bg_h * factor)], the scale and the scaled height are all
    computed without error, the target is at least 90 rows, and the
    scaled subject with its safe zone is at least as tall as the target
    (the scale divides by the height before the safe zone but multiplies
    the height with it).  The step returns as soon as the scaled width is
    computed and is at least 1. *)
Theorem perspective_scaling_heights_are_safe
        {backend : Backend} (no_bg : Image) (h : Z) (name : string) :
  is_floor name = true -> 1 <= h < 16384 ->
  1 <= width no_bg -> height no_bg = h + 200 ->
  exists target_h sc new_h,
    scaled_height (scale_factor name) h = Ok (target_h, sc, new_h)
    /\ 90 <= target_h <= new_h /\ new_h < 32768
    /\ (forall scaled s,
          perspective_scaling no_bg h (height no_bg) name = Ok (scaled, s) ->
          s = Some sc /\ height scaled = new_h)
    /\ (forall new_w,
          int (fmul (of_int (width no_bg)) sc) = Ok new_w -> 1 <= new_w ->
          exists scaled,
            perspective_scaling no_bg h (height no_bg) name
            = Ok (scaled, Some sc)
            /\ width scaled = new_w /\ height scaled = new_h).
Proof.
  intros Hfloor Hr Hw Hh.
  exact (perspective_scaling_heights no_bg h name Hfloor Hr Hw Hh).
Qed.

Lemma perspective_scaling_heights_are_safe_witness :
  exists target_h sc new_h,
    scaled_height (scale_factor "Wooden Floor") 256
    = Ok (target_h, sc, new_h)
    /\ 90 <= target_h <= new_h /\ new_h < 32768
    /\ (forall scaled s,
          perspective_scaling (backend := Demo.backend)
            (Demo.solid 201 456 Demo.near_black) 256
            (height (Demo.solid 201 456 Demo.near_black)) "Wooden Floor"
          = Ok (scaled, s) ->
          s = Some sc /\ height scaled = new_h)
    /\ (forall new_w,
          int (fmul (of_int (width (Demo.solid 201 456 Demo.near_black))) sc)
          = Ok new_w -> 1 <= new_w ->
          exists scaled,
            perspective_scaling (backend := Demo.backend)
              (Demo.solid 201 456 Demo.near_black) 256
              (height (Demo.solid 201 456 Demo.near_black)) "Wooden Floor"
            = Ok (scaled, Some sc)
            /\ width scaled = new_w /\ height scaled = new_h).
Proof.
  apply (perspective_scaling_heights_are_safe (backend := Demo.backend)
           (Demo.solid 201 456 Demo.near_black) 256 "Wooden Floor").
  - reflexivity.
  - lia.
  - simpl. lia.
  - reflexivity.
Defined.

Lemma plate_after_scaling {backend : Backend} (input_image seg scaled : Image)
      (name bg_key : string) (sc : option float) :
  remove_background input_image = Ok seg -> well_sized seg ->
  height (trim seg) < 16384 ->
  get image_bg_map name = Some bg_key -> is_marble name = false ->
  perspective_scaling (padded (trim seg)) (height (trim seg))
    (height (trim seg) + 200) name = Ok (scaled, sc) ->
  exists fr,
    plate_branch (padded (trim seg)) (height (trim seg)) name bg_key = Ok fr
    /\ process_product_photo input_image (Some name)
       = Ok (convert RGB (final_render fr), name)
    /\ scale fr = sc
    /\ p_w fr = width scaled /\ p_h fr = height scaled
    /\ 90 <= p_h fr < 32768.
Proof.
  intros Hseg Hs Hbound Hkey Hmarble Hscale.
  pose proof (catalog_floor _ _ Hkey) as Hfloor.
  destruct (trim_well_sized _ Hs) as [Hw Hh].
  assert (Hpos : 1 <= height (trim seg)).
  { destruct (Z.eq_dec (height (trim seg)) 0) as [E0 | Hne]; [| lia].
    exfalso. unfold perspective_scaling in Hscale.
    rewrite Hfloor, E0 in Hscale. inv_bind Hscale.
    change (of_int 0) with (S754_zero false) in Hscale.
    discriminate Hscale. }
  change (height (trim seg) + 200) with (height (padded (trim seg)))
    in Hscale.
  destruct (perspective_scaling_heights (padded (trim seg))
              (height (trim seg)) name Hfloor)
    as (tg & sc' & n & _ & Hb & Hn & Hinv & _);
    [lia | cbn [padded width]; unfold safe_pad; lia | reflexivity |].
  destruct (Hinv _ _ Hscale) as [-> Hhs].
  destruct (plate_branch_ok (padded (trim seg)) scaled (height (trim seg))
              name bg_key (Some sc'))
    as (fr & Hfr & Hsc & Hpw & Hph);
    [ reflexivity | cbn [padded width]; unfold safe_pad; lia
    | cbn [padded height]; unfold safe_pad; lia | exact Hkey | exact Hmarble
    | exact Hscale | lia |].
  exists fr. split; [exact Hfr |]. split.
  - rewrite (process_plate _ _ _ _ Hseg Hs Hkey), Hfr. reflexivity.
  - repeat split; (assumption || lia).
Qed.

(** X19.  Once the subject has been rescaled, nothing later in the plate
    branch can fail.  For the plate styles without a reflection (no
    "Marble" in the name) and a trimmed subject of fewer than 16384 rows,
    if step 4 returns then the whole pipeline returns: the edge purity,
    the feathering, the anchor, the lighting stages, every shadow and
    paste of step 8, the final paste and the grain all meet images of
    matching size and mode, and every [int(...)] is taken of a finite
    number.  The frame records the scale and the size step 4 produced. *)
Theorem plate_never_fails_after_scaling
        {backend : Backend} (input_image seg scaled : Image)
        (name bg_key : string) (sc : option float) :
  remove_background input_image = Ok seg -> well_sized seg ->
  height (trim seg) < 16384 ->
  get image_bg_map name = Some bg_key -> is_marble name = false ->
  perspective_scaling (padded (trim seg)) (height (trim seg))
    (height (trim seg) + 200) name = Ok (scaled, sc) ->
  exists fr,
    plate_branch (padded (trim seg)) (height (trim seg)) name bg_key = Ok fr
    /\ process_product_photo input_image (Some name)
       = Ok (convert RGB (final_render fr), name)
    /\ scale fr = sc
    /\ p_w fr = width scaled /\ p_h fr = height scaled
    /\ 90 <= p_h fr < 32768.
Proof.
  intros Hseg Hs Hbound Hkey Hmarble Hscale.
  exact (plate_after_scaling input_image seg scaled name bg_key sc
           Hseg Hs Hbound Hkey Hmarble Hscale).
Qed.

Lemma demo_column_scaling :
  exists scaled sc,
    perspective_scaling (backend := Demo.backend)
      (padded (backend := Demo.backend) (trim Demo.column))
      (height (trim Demo.column)) (height (trim Demo.column) + 200)
      "Dark Studio (Flat Lay)" = Ok (scaled, sc).
Proof.
  destruct (summary_ok _ _ column_flat_lay_summary) as (fr & Hfr & _).
  destruct (plate_branch_frame _ _ _ _ _ Hfr)
    as (_ & Hbh & (scaled & Hsc & _) & _).
  exists scaled, (scale fr). rewrite <- Hsc, Hbh. reflexivity.
Qed.

Lemma plate_never_fails_after_scaling_witness :
  exists fr scaled sc,
    plate_branch (backend := Demo.backend)
      (padded (backend := Demo.backend) (trim Demo.column))
      (height (trim Demo.column)) "Dark Studio (Flat Lay)"
      "dark_studio_floor" = Ok fr
    /\ process_product_photo (backend := Demo.backend) Demo.column
         (Some "Dark Studio (Flat Lay)")
       = Ok (convert (backend := Demo.backend) RGB (final_render fr),
             "Dark Studio (Flat Lay)")
    /\ scale fr = sc
    /\ p_w fr = width scaled /\ p_h fr = height scaled
    /\ 90 <= p_h fr < 32768.
Proof.
  destruct demo_column_scaling as (scaled & sc & Hsc).
  destruct (plate_never_fails_after_scaling (backend := Demo.backend)
              Demo.column Demo.column scaled
              "Dark Studio (Flat Lay)" "dark_studio_floor" sc)
    as (fr & H).
  - reflexivity.
  - unfold well_sized. simpl. lia.
  - assert (E : height (trim Demo.column) = 256)
      by (vm_compute; reflexivity).
    rewrite E. lia.
  - reflexivity.
  - reflexivity.
  - exact Hsc.
  - exists fr, scaled, sc. exact H.
Defined.

(* ================================================================= *)
(** ** Further properties: the subject is painted last *)

Section PaintOrder.
Context {backend : Backend}.

Lemma load_background_mode (bg_key : string) (sz : Z * Z) (bg : Image) :
  load_background bg_key sz = Ok bg -> im_mode bg = RGBA.
Proof.
  unfold load_background. destruct (asset_file _) as [f |].
  - unfold resize, copy. destruct sz as [w h].
    destruct ((w =? width (convert RGBA f)) && (h =? height (convert RGBA f))).
    + intros Heq. assert (Hb : bg = convert RGBA f) by congruence.
      rewrite Hb. apply mode_convert.
    + destruct ((w <? 1) || (h <? 1)); [discriminate |].
      intros Heq.
      assert (Hb : im_mode bg = im_mode (convert RGBA f))
        by (injection Heq as <-; reflexivity).
      rewrite Hb. apply mode_convert.
  - change (getrgb "white") with (Ok (mkpx 255 255 255 255)). cbn [bind].
    destruct sz as [w h]. intros H. apply new_shape in H. tauto.
Qed.

(** The last two steps of the plate branch: the subject is pasted through
    its own alpha onto the RGBA layers, then the grain is added. *)
Lemma plate_branch_paint (no_bg : Image) (orig_h : Z)
      (manual_bg bg_key : string) (fr : frame) :
  plate_branch no_bg orig_h manual_bg bg_key = Ok fr ->
  exists layers composed,
    im_mode layers = RGBA
    /\ paste layers (processed_product fr) (pos_x fr, pos_y fr)
         (Some (processed_product fr)) = Ok composed
    /\ apply_film_grain composed (lit 12 3) = Ok (final_render fr).
Proof.
  unfold plate_branch. intros H.
  inv_bind H. rename v into bg_layer, E into Ebg.
  apply load_background_mode in Ebg. unfold size in H.
  inv_bind H. destruct v as [scaled sc].
  do 2 inv_bind H. inv_bind H. destruct v1 as [x0 y0].
  do 4 inv_bind H. inv_bind H. destruct v5 as [layers y1].
  rename E7 into Erender.
  inv_bind H. rename v5 into composed, E7 into Epaste.
  inv_bind H. injection H as <-.
  cbn [pos_x pos_y processed_product final_render].
  apply render_layers_shape in Erender. unfold copy in Erender.
  exists layers, composed. split; [| split; assumption].
  destruct Erender as (-> & _). exact Ebg.
Qed.

Lemma subject_on_top (no_bg : Image) (orig_h : Z)
      (manual_bg bg_key : string) (fr : frame) :
  exact_mask ->
  plate_branch no_bg orig_h manual_bg bg_key = Ok fr ->
  exists layers composed,
    paste layers (processed_product fr) (pos_x fr, pos_y fr)
      (Some (processed_product fr)) = Ok composed
    /\ apply_film_grain composed (lit 12 3) = Ok (final_render fr)
    /\ forall x y,
         let p := px (processed_product fr) (x - pos_x fr) (y - pos_y fr) in
         let n := normal (fmul (lit 12 3) (of_int 255)) y x in
         inside (processed_product fr) (x - pos_x fr) (y - pos_y fr) = true ->
         mask_value (processed_product fr) (x - pos_x fr) (y - pos_y fr)
         = 255 ->
         rgb_of (px (final_render fr) x y)
         = (clip_uint8 (fadd (of_int (R p)) (n 0)),
            clip_uint8 (fadd (of_int (G p)) (n 1)),
            clip_uint8 (fadd (of_int (B p)) (n 2))).
Proof.
  intros Hex H.
  destruct (plate_branch_paint _ _ _ _ _ H)
    as (layers & composed & Hml & Hpaste & Hgrain).
  exists layers, composed. split; [exact Hpaste |]. split; [exact Hgrain |].
  intros x y p n Hin Hmask.
  destruct (apply_film_grain_inv _ _ _ Hgrain) as (_ & _ & _ & Hpx).
  rewrite (Hpx x y). cbv zeta. unfold rgb_of. cbn [R G B].
  destruct (convert_rgb_px composed x y) as (-> & -> & ->).
  unfold paste in Hpaste.
  destruct (same_size _ _) in Hpaste; [| discriminate].
  injection Hpaste as <-. cbn [px]. rewrite Hin, Hmask, Hml.
  unfold blend_channels. cbn [R G B]. rewrite !(proj2 (Hex _ _)).
  unfold convert. fold p. fold n.
  destruct (im_mode (processed_product fr)); reflexivity.
Qed.

End PaintOrder.

(** X20.  On a plate the subject is painted last and nothing shows through
    where it is opaque.  In every frame the plate branch returns, the
    picture is the subject pasted through its own alpha onto the shadow
    layers, then grained; at a pixel the subject covers with a mask value
    of 255 the R, G, B of the picture are the subject's with the grain's
    noise added and clipped: they do not depend on the backdrop or on any
    shadow. *)
Theorem subject_is_painted_last
        {backend : Backend} (no_bg : Image) (orig_h : Z)
        (manual_bg bg_key : string) (fr : frame) :
  exact_mask ->
  plate_branch no_bg orig_h manual_bg bg_key = Ok fr ->
  exists layers composed,
    paste layers (processed_product fr) (pos_x fr, pos_y fr)
      (Some (processed_product fr)) = Ok composed
    /\ apply_film_grain composed (lit 12 3) = Ok (final_render fr)
    /\ forall x y,
         let p := px (processed_product fr) (x - pos_x fr) (y - pos_y fr) in
         let n := normal (fmul (lit 12 3) (of_int 255)) y x in
         inside (processed_product fr) (x - pos_x fr) (y - pos_y fr) = true ->
         mask_value (processed_product fr) (x - pos_x fr) (y - pos_y fr)
         = 255 ->
         rgb_of (px (final_render fr) x y)
         = (clip_uint8 (fadd (of_int (R p)) (n 0)),
            clip_uint8 (fadd (of_int (G p)) (n 1)),
            clip_uint8 (fadd (of_int (B p)) (n 2))).
Proof.
  intros Hex H. exact (subject_on_top no_bg orig_h manual_bg bg_key fr Hex H).
Qed.

Lemma subject_is_painted_last_witness :
  exists fr layers composed,
    plate_branch (backend := Demo.backend)
      (padded (backend := Demo.backend) (trim Demo.column))
      (height (trim Demo.column)) "Marble Floor" "marble_floor" = Ok fr
    /\ paste (backend := Demo.backend) layers (processed_product fr)
         (pos_x fr, pos_y fr) (Some (processed_product fr)) = Ok composed
    /\ apply_film_grain (backend := Demo.backend) composed (lit 12 3)
       = Ok (final_render fr)
    /\ forall x y,
         let p := px (processed_product fr) (x - pos_x fr) (y - pos_y fr) in
         let n := normal (Backend := Demo.backend)
                    (fmul (lit 12 3) (of_int 255)) y x in
         inside (processed_product fr) (x - pos_x fr) (y - pos_y fr) = true ->
         mask_value (processed_product fr) (x - pos_x fr) (y - pos_y fr)
         = 255 ->
         rgb_of (px (final_render fr) x y)
         = (clip_uint8 (fadd (of_int (R p)) (n 0)),
            clip_uint8 (fadd (of_int (G p)) (n 1)),
            clip_uint8 (fadd (of_int (B p)) (n 2))).
Proof.
  destruct (summary_ok _ _ column_marble_summary) as (fr & Hfr & _).
  destruct (subject_is_painted_last (backend := Demo.backend) _ _ _ _ fr
              demo_exact_mask Hfr) as (layers & composed & H).
  exists fr, layers, composed. split; [exact Hfr | exact H].
Defined.

(* ================================================================= *)
(** ** Further properties: the reflection *)

(** Up to 32767 the float of a positive integer is not a zero, so a
    division by it is defined. *)
Lemma of_int_divides (y h : Z) :
  1 <= h < 32768 -> exists ratio, fdiv (of_int y) (of_int h) = Ok ratio.
Proof.
  intros Hr.
  assert (Hall :
    all_from (Z.to_nat 32767) 1
      (fun h => match of_int h with S754_zero _ => false | _ => true end)
    = true) by (vm_compute; reflexivity).
  pose proof (all_from_spec _ _ _ h Hall) as Hb. cbv beta in Hb.
  rewrite Z2Nat.id in Hb by lia. specialize (Hb ltac:(lia)).
  unfold fdiv. destruct (of_int h); [discriminate | | |]; eexists; reflexivity.
Qed.

Lemma create_reflection_ok {backend : Backend} (image : Image)
      (opacity : float) (blur : Z) :
  im_mode image <> L ->
  0 <= width image -> 0 <= height image < 32768 ->
  (forall y ratio,
     0 <= y < height image ->
     fdiv (of_int y) (of_int (height image)) = Ok ratio ->
     exists a,
       int (fmul (fmul (of_int 255) opacity)
              (fsub (of_int 1) (fpow ratio (lit 15 1)))) = Ok a) ->
  exists r,
    create_reflection image opacity blur = Ok r
    /\ im_mode r = RGBA
    /\ width r = width image /\ height r = height image.
Proof.
  intros _ Hw Hh Hrow. unfold create_reflection, size.
  cbn [flip width height].
  rewrite new_ok by lia. cbn [bind].
  assert (Hloop : forall l, (forall y, In y l -> 0 <= y < height image) ->
    exists rows,
      fold_right
        (fun y acc =>
           rest <- acc ;;
           ratio <- fdiv (of_int y) (of_int (height image)) ;;
           alpha_val <- int (fmul (fmul (of_int 255) opacity)
                               (fsub (of_int 1)
                                  (fpow ratio (lit 15 1)))) ;;
           Ok (Z.max 0 alpha_val :: rest))
        (Ok []) l = Ok rows).
  { induction l as [| y l IH]; intros Hl; [exists []; reflexivity |].
    cbn [fold_right].
    destruct IH as (rest & ->); [intros z Hz; apply Hl; now right |].
    cbn [bind]. pose proof (Hl y (or_introl eq_refl)) as Hy.
    destruct (of_int_divides y (height image)) as (ratio & Hr); [lia |].
    destruct (Hrow y ratio Hy Hr) as (a & Ha).
    rewrite Hr. cbn [bind]. rewrite Ha. cbn [bind]. eexists. reflexivity. }
  destruct (Hloop (range (height image))) as (rows & ->).
  { intros y Hy. now apply in_range in Hy. }
  cbn [bind]. cbv zeta.
  match goal with
  | |- context [putalpha ?im ?al] =>
      destruct (putalpha_ok im al) as (r & -> & Hm & Hrw & Hrh);
        [shape; lia | shape; lia |]
  end.
  cbn [bind]. eexists. split; [reflexivity |]. shape. auto.
Qed.

(** X21.  On an RGB or RGBA image [create_reflection] never divides by
    zero and can fail only where a row's opacity cannot be computed.  For
    an image of fewer than 32768 rows, [y / h] is defined for every row of
    the loop (there is no row when [h] is 0); if
    [int(255 * opacity * (1 - (y/h)**1.5))] is computable for every row,
    the function returns, and the reflection is RGBA and has the subject's
    size: the gradient, the multiplied alpha and the flipped image always
    match.  (An L image would come back in mode LA, which is outside this
    model.) *)
Theorem reflection_fails_only_on_its_gradient
        {backend : Backend} (image : Image) (opacity : float) (blur : Z) :
  im_mode image <> L ->
  0 <= width image -> 0 <= height image < 32768 ->
  (forall y ratio,
     0 <= y < height image ->
     fdiv (of_int y) (of_int (height image)) = Ok ratio ->
     exists a,
       int (fmul (fmul (of_int 255) opacity)
              (fsub (of_int 1) (fpow ratio (lit 15 1)))) = Ok a) ->
  (forall y, 0 <= y < height image ->
     exists ratio, fdiv (of_int y) (of_int (height image)) = Ok ratio)
  /\ exists r,
       create_reflection image opacity blur = Ok r
       /\ im_mode r = RGBA
       /\ width r = width image /\ height r = height image.
Proof.
  intros Hm Hw Hh Hrow. split.
  - intros y Hy. apply of_int_divides. lia.
  - exact (create_reflection_ok image opacity blur Hm Hw Hh Hrow).
Qed.

Lemma reflection_fails_only_on_its_gradient_witness :
  (forall y, 0 <= y < height (Demo.dot Demo.near_black) ->
     exists ratio,
       fdiv (of_int y) (of_int (height (Demo.dot Demo.near_black)))
       = Ok ratio)
  /\ exists r,
       create_reflection (backend := Demo.backend)
         (Demo.dot Demo.near_black) (lit 8 2) 4 = Ok r
       /\ im_mode r = RGBA
       /\ width r = width (Demo.dot Demo.near_black)
       /\ height r = height (Demo.dot Demo.near_black).
Proof.
  apply (reflection_fails_only_on_its_gradient (backend := Demo.backend)
           (Demo.dot Demo.near_black) (lit 8 2) 4).
  - discriminate.
  - simpl. lia.
  - simpl. lia.
  - intros y ratio Hy Hr.
    change (height (Demo.dot Demo.near_black)) with 4 in Hy, Hr.
    assert (Hc : y = 0 \/ y = 1 \/ y = 2 \/ y = 3) by lia.
    destruct Hc as [-> | [-> | [-> | ->]]];
      vm_compute in Hr; injection Hr as <-; eexists; vm_compute;
      reflexivity.
Defined.

(* ================================================================= *)
(** ** The anchor *)

Section Anchor.
Context {backend : Backend}.

(** The layers the subject is pasted on have the backdrop's size. *)
Lemma plate_branch_layers (no_bg : Image) (orig_h : Z)
      (manual_bg bg_key : string) (fr : frame) :
  plate_branch no_bg orig_h manual_bg bg_key = Ok fr ->
  exists layers composed,
    width layers = width no_bg /\ height layers = height no_bg
    /\ paste layers (processed_product fr) (pos_x fr, pos_y fr)
         (Some (processed_product fr)) = Ok composed
    /\ apply_film_grain composed (lit 12 3) = Ok (final_render fr).
Proof.
  unfold plate_branch. intros H.
  inv_bind H. rename v into bg_layer, E into Ebg.
  unfold size in H, Ebg. apply load_background_shape in Ebg.
  destruct Ebg as [Hbw Hbh].
  inv_bind H. destruct v as [scaled sc].
  do 2 inv_bind H. inv_bind H. destruct v1 as [x0 y0].
  do 4 inv_bind H. inv_bind H. destruct v5 as [layers y1].
  rename E7 into Erender.
  inv_bind H. rename v5 into composed, E7 into Epaste.
  inv_bind H. injection H as <-.
  cbn [pos_x pos_y processed_product final_render].
  apply render_layers_shape in Erender. unfold copy in Erender.
  exists layers, composed.
  split; [lia |]. split; [lia |]. split; assumption.
Qed.

End Anchor.

(** C8.  For every plate style the anchor centres the raster of the
    (possibly rescaled) subject horizontally on the background, and
    vertically when the spotlight or the flat-lay flag holds; otherwise the
    bottom edge of that raster is at 70% of the background height, in
    whole pixels ([int(bg_h * 0.7)], within one pixel of 70% for any
    background lower than 32768 rows).  The raster is the trimmed subject
    in its 100px safe zone, rescaled by step 4: the background has the
    size of the padded subject, [p_w] x [p_h] is the size of the rescaled
    padded raster, and everything outside the subject's frame is
    transparent in it.  That raster is pasted at the anchor on layers of
    the background's size, and the picture has that size. *)
Theorem anchor_position
        {backend : Backend} (input_image seg : Image)
        (name bg_key : string) (fr : frame) :
  remove_background input_image = Ok seg -> well_sized seg ->
  get image_bg_map name = Some bg_key ->
  plate_branch (padded (trim seg)) (height (trim seg)) name bg_key = Ok fr ->
  process_product_photo input_image (Some name)
  = Ok (convert RGB (final_render fr), name)
  /\ bg_w fr = width (trim seg) + 200 /\ bg_h fr = height (trim seg) + 200
  /\ width (final_render fr) = bg_w fr /\ height (final_render fr) = bg_h fr
  /\ (exists scaled,
        perspective_scaling (padded (trim seg)) (height (trim seg))
          (bg_h fr) name = Ok (scaled, scale fr)
        /\ width scaled = p_w fr /\ height scaled = p_h fr)
  /\ width (processed_product fr) = p_w fr
  /\ height (processed_product fr) = p_h fr
  /\ (forall x y, inside (trim seg) (x - 100) (y - 100) = false ->
        px (padded (trim seg)) x y = transparent)
  /\ pos_x fr = (bg_w fr - p_w fr) / 2
  /\ 0 <= (bg_w fr - p_w fr - pos_x fr) - pos_x fr <= 1
  /\ (if is_spotlight name || is_flat_lay name
      then pos_y fr = (bg_h fr - p_h fr) / 2
           /\ 0 <= (bg_h fr - p_h fr - pos_y fr) - pos_y fr <= 1
      else exists horizon,
             int (fmul (of_int (bg_h fr)) (lit 7 1)) = Ok horizon
             /\ pos_y fr + p_h fr = horizon
             /\ (0 <= bg_h fr < 32768 ->
                 7 * bg_h fr - 10 <= 10 * horizon <= 7 * bg_h fr))
  /\ exists layers composed,
       width layers = bg_w fr /\ height layers = bg_h fr
       /\ paste layers (processed_product fr) (pos_x fr, pos_y fr)
            (Some (processed_product fr)) = Ok composed
       /\ apply_film_grain composed (lit 12 3) = Ok (final_render fr).
Proof.
  intros Hseg Hs Hk Hfr.
  destruct (plate_branch_frame _ _ _ _ _ Hfr)
    as (Hbw & Hbh & Hscaled & (y0 & Hpos & Hy) & Hpw & Hph & _).
  destruct (plate_branch_render _ _ _ _ _ Hfr) as (Hrw & Hrh).
  destruct (plate_branch_layers _ _ _ _ _ Hfr)
    as (layers & composed & Hlw & Hlh & Hpaste & Hgrain).
  rewrite (catalog_floor _ _ Hk) in Hy. subst y0.
  unfold positioning in Hpos.
  assert (Hx : pos_x fr = (bg_w fr - p_w fr) / 2).
  { destruct (is_spotlight name || is_flat_lay name); cbn [bind] in Hpos.
    - now injection Hpos as <- _.
    - inv_bind Hpos. now injection Hpos as <- _. }
  split.
  { rewrite (process_plate _ _ _ _ Hseg Hs Hk), Hfr. reflexivity. }
  split; [exact Hbw |]. split; [exact Hbh |].
  split; [congruence |]. split; [congruence |].
  split; [exact Hscaled |]. split; [exact Hpw |]. split; [exact Hph |].
  split.
  { intros x y Hout. unfold padded, safe_pad. cbn [px].
    now rewrite Hout. }
  split; [exact Hx |].
  split; [rewrite Hx; pose proof (Z.div_mod (bg_w fr - p_w fr) 2);
          pose proof (Z.mod_pos_bound (bg_w fr - p_w fr) 2); lia |].
  split.
  - destruct (is_spotlight name || is_flat_lay name); cbn [bind] in Hpos.
    + injection Hpos as _ Hy. split; [now symmetry |]. rewrite <- Hy.
      pose proof (Z.div_mod (bg_h fr - p_h fr) 2);
        pose proof (Z.mod_pos_bound (bg_h fr - p_h fr) 2); lia.
    + inv_bind Hpos. rename E into Ey. inv_bind Ey. rename v0 into horizon.
      injection Ey as Ey. injection Hpos as _ Hy.
      exists horizon. split; [reflexivity |]. split; [lia |].
      intros Hr. now apply horizon_within_a_pixel.
  - exists layers, composed. repeat split; (assumption || congruence).
Qed.

Lemma anchor_position_witness :
  exists fr,
    plate_branch (backend := Demo.backend)
      (padded (backend := Demo.backend) (trim Demo.column))
      (height (trim Demo.column)) "Marble Floor" "marble_floor" = Ok fr
    /\ bg_w fr = width (trim Demo.column) + 200
    /\ bg_h fr = height (trim Demo.column) + 200
    /\ pos_x fr = (bg_w fr - p_w fr) / 2
    /\ 0 <= (bg_w fr - p_w fr - pos_x fr) - pos_x fr <= 1.
Proof.
  destruct (summary_ok _ _ column_marble_summary) as (fr & Hfr & _).
  destruct (anchor_position (backend := Demo.backend)
              Demo.column Demo.column "Marble Floor" "marble_floor" fr
              eq_refl) as (_ & Hbw & Hbh & _ & _ & _ & _ & _ & _ & Hx & Hc & _).
  - unfold well_sized. simpl. lia.
  - reflexivity.
  - exact Hfr.
  - exists fr. split; [exact Hfr |]. split; [exact Hbw |].
    split; [exact Hbh |]. split; [exact Hx | exact Hc].
Defined.

Lemma slab_marble_summary :
  Demo.summary
    (plate_branch (backend := Demo.nearest)
       (padded (backend := Demo.nearest) (trim Demo.slab))
       (height (trim Demo.slab)) "Marble Floor" "marble_floor")
  = Some (240, 456, Some (S754_finite false 8022036836253696 (-53)),
          213, 406, 13, -87).
Proof. vm_compute. reflexivity. Qed.

Lemma slab_scaled_bbox :
  match perspective_scaling (backend := Demo.nearest)
          (padded (backend := Demo.nearest) (trim Demo.slab))
          (height (trim Demo.slab)) 456 "Marble Floor" with
  | Ok (scaled, _) => getbbox scaled
  | Raise _ => None
  end = Some (89, 90, 125, 317).
Proof. vm_compute. reflexivity. Qed.

(** C8, the subject's own bottom.  A dark slab of 40 x 256 pixels on
    "Marble Floor", resized by nearest neighbour.  The background has
    456 rows and the horizon [int(456 * 0.7)] is row 319; the raster that
    is anchored has 406 rows and its bottom edge is on the horizon.  But
    the subject ends at row 317 of that raster (the 89 rows below are the
    scaled safe zone), that is on row 230 of the picture, near one half of
    the background height and not at 70%. *)
Theorem subject_ends_above_the_horizon :
  exists fr scaled,
    plate_branch (backend := Demo.nearest)
      (padded (backend := Demo.nearest) (trim Demo.slab))
      (height (trim Demo.slab)) "Marble Floor" "marble_floor" = Ok fr
    /\ is_spotlight "Marble Floor" || is_flat_lay "Marble Floor" = false
    /\ bg_h fr = 456
    /\ int (fmul (of_int (bg_h fr)) (lit 7 1)) = Ok 319
    /\ p_h fr = 406 /\ pos_y fr + p_h fr = 319
    /\ perspective_scaling (backend := Demo.nearest)
         (padded (backend := Demo.nearest) (trim Demo.slab))
         (height (trim Demo.slab)) (bg_h fr) "Marble Floor"
       = Ok (scaled, scale fr)
    /\ height scaled = p_h fr
    /\ getbbox scaled = Some (89, 90, 125, 317)
    /\ pos_y fr + 317 = 230.
Proof.
  destruct (summary_ok _ _ slab_marble_summary) as (fr & Hfr & Hn).
  destruct (plate_branch_frame _ _ _ _ _ Hfr)
    as (_ & _ & (scaled & Hsc & _ & Hsh) & _).
  assert (Hbh : bg_h fr = 456) by congruence.
  assert (Hph : p_h fr = 406) by congruence.
  assert (Hpy : pos_y fr = -87) by congruence.
  exists fr, scaled. split; [exact Hfr |]. split; [reflexivity |].
  split; [exact Hbh |]. split; [rewrite Hbh; reflexivity |].
  split; [exact Hph |]. split; [lia |]. split; [exact Hsc |].
  split; [exact Hsh |]. split; [| lia].
  pose proof slab_scaled_bbox as Hb. rewrite Hbh in Hsc.
  rewrite Hsc in Hb. exact Hb.
Qed.
